(** * The retrieval-augmented answering route, embedded in Rocq

    The route handler answers a query in six persisted steps: it records the
    query, gathers sources (from a table of precomputed embeddings or from a
    live web search), streams a completion grounded in those sources while
    persisting the growing answer, and closes with follow-up questions.

    The embedding follows the handler function by function.  JavaScript
    numbers are IEEE-754 binary64 values and are modelled by Rocq's primitive
    floats, which implement the same format; strings are [string]; arrays are
    lists.  The services the handler talks to (OpenAI, Supabase, Postgres,
    Brave, the HTTP client, cheerio, the text splitter and the vector store)
    are not part of the repository: their answers are read from a record of
    [services], and every call may fail.  Console output is left out, and so
    is [websiteId], which only selects the rows the table answers with.

    The source tree holds two revisions of the handler.  The later one adds
    the database mode and is embedded first; of the earlier one, its
    web-search branch with other model names, the functions that differ
    follow in [Earlier]. *)

From Stdlib Require Import ZArith List String Ascii Floats Lia Bool.
From Stdlib Require Import Permutation Sorted.
Import ListNotations.

Set Warnings "-inexact-float,-register-all".

(* ================================================================== *)
(** * Part I: the program *)
(* ================================================================== *)

(** ** JavaScript built-ins used by the handler *)

Module Js.

Definition number := float.

(** Reading an array past its end gives [undefined]; arithmetic converts
    [undefined] to [NaN]. *)
Definition to_number (v : option number) : number :=
  match v with
  | Some x => x
  | None => nan
  end.

(** [Array.prototype.reduce((acc, x, idx) => ..., init)]. *)
Fixpoint reduce_from {A B : Type} (f : B -> A -> nat -> B) (idx : nat)
  (l : list A) (acc : B) : B :=
  match l with
  | [] => acc
  | x :: l' => reduce_from f (S idx) l' (f acc x idx)
  end.

Definition reduce {A B : Type} (f : B -> A -> nat -> B) (l : list A) (init : B) : B :=
  reduce_from f 0 l init.

(** [Array.prototype.slice(0, n)]. *)
Definition slice0 {A : Type} (n : nat) (l : list A) : list A := firstn n l.

(** [Array.prototype.sort(compare)].  The language fixes the result only for
    a consistent comparator, where every conforming engine returns the one
    stable ordering; otherwise the order is left to the engine.  The model is
    the stable insertion sort.  A comparator result [v] moves [x] behind [y]
    only when [v > 0]; [NaN] counts as [+0].  With the comparator of the
    handler this is the result of every engine when all scores are numbers,
    and the array as it stood when all scores are [NaN]; where a score of
    [NaN] stands among numbers the order is the engine's own, which module
    [V8] below gives for the engine of Node. *)
Section Sort.
Context {A : Type} (compare : A -> A -> number).

Definition sorts_after (x y : A) : bool := PrimFloat.ltb zero (compare x y).

Fixpoint insert (x : A) (l : list A) : list A :=
  match l with
  | [] => [x]
  | y :: l' => if sorts_after x y then y :: insert x l' else x :: y :: l'
  end.

Definition sort (l : list A) : list A := fold_right insert [] l.

End Sort.

(** [Array.prototype.join(sep)] on an array of strings. *)
Definition join (sep : string) (l : list string) : string := String.concat sep l.

(** [String.prototype.includes(sub)]. *)
Fixpoint includes (sub s : string) : bool :=
  if String.prefix sub s then true
  else match s with
       | EmptyString => false
       | String _ s' => includes sub s'
       end.

(** [String.prototype.split(sep)] for a one-character separator. *)
Fixpoint split_from (sep : ascii) (cur : string) (s : string) : list string :=
  match s with
  | EmptyString => [cur]
  | String c s' =>
      if Ascii.eqb c sep then cur :: split_from sep EmptyString s'
      else split_from sep (cur ++ String c EmptyString) s'
  end.

Definition split (sep : ascii) (s : string) : list string :=
  split_from sep EmptyString s.

(** [s.replace(/[{}]/g, '')]. *)
Fixpoint remove_braces (s : string) : string :=
  match s with
  | EmptyString => EmptyString
  | String c s' =>
      if (Ascii.eqb c "{" || Ascii.eqb c "}")%bool then remove_braces s'
      else String c (remove_braces s')
  end.

(** The white space of [\s] and of [String.prototype.trim], among the code
    units a [string] of this development can hold (0 to 255): tab, line
    feed, vertical tab, form feed, carriage return, space and no-break
    space. *)
Definition is_white_space (c : ascii) : bool :=
  let n := nat_of_ascii c in
  ((9 <=? n) && (n <=? 13) || (n =? 32) || (n =? 160))%nat%bool.

(** [s.replace(/\s+/g, ' ')]: each maximal run of white space becomes one
    space.  [in_run] tells that the previous character belonged to a run
    whose replacement has been written already. *)
Fixpoint replace_runs (in_run : bool) (s : string) : string :=
  match s with
  | EmptyString => EmptyString
  | String c s' =>
      if is_white_space c
      then (if in_run then replace_runs true s' else String " " (replace_runs true s'))
      else String c (replace_runs false s')
  end.

Definition collapse_white_space (s : string) : string := replace_runs false s.

Fixpoint trim_start (s : string) : string :=
  match s with
  | EmptyString => EmptyString
  | String c s' => if is_white_space c then trim_start s' else s
  end.

(** [trim_end] keeps a character when it is not white space or when
    something is left behind it. *)
Fixpoint trim_end (s : string) : string :=
  match s with
  | EmptyString => EmptyString
  | String c s' =>
      match trim_end s' with
      | EmptyString => if is_white_space c then EmptyString else String c EmptyString
      | rest => String c rest
      end
  end.

Definition trim (s : string) : string := trim_end (trim_start s).

End Js.

(** ** The document tree cheerio works on *)

Module Html.

Inductive node :=
| Text (data : string)
| Comment (data : string)
| Element (name : string) (children : list node).

Definition document := list node.

(** A selector that is a comma-separated list of tag names. *)
Definition matches (names : list string) (n : node) : bool :=
  match n with
  | Element name _ => existsb (String.eqb name) names
  | _ => false
  end.

(** [$(names).remove()]: every matching element leaves the tree, with all
    that is below it. *)
Fixpoint remove_node (names : list string) (n : node) : node :=
  match n with
  | Element name children =>
      Element name
        (flat_map (fun c => if matches names c then [] else [remove_node names c])
           children)
  | _ => n
  end.

Definition remove (names : list string) (d : document) : document :=
  flat_map (fun c => if matches names c then [] else [remove_node names c]) d.

(** [$(name)]: the elements of that name, in document order. *)
Fixpoint select_node (name : string) (n : node) : list node :=
  match n with
  | Element nm children =>
      (if String.eqb nm name then [n] else []) ++ flat_map (select_node name) children
  | _ => []
  end.

Definition select (name : string) (d : document) : list node :=
  flat_map (select_node name) d.

(** [.text()]: the text nodes below each selected element, concatenated;
    comments contribute nothing. *)
Fixpoint text_of (n : node) : string :=
  match n with
  | Text data => data
  | Comment _ => EmptyString
  | Element _ children => fold_right (fun c acc => (text_of c ++ acc)%string) EmptyString children
  end.

Definition text (selection : list node) : string :=
  fold_right (fun n acc => (text_of n ++ acc)%string) EmptyString selection.

Definition non_content : list string :=
  ["script"; "style"; "head"; "nav"; "footer"; "iframe"; "img"]%string.

(** [extractMainContent(html)]; [load] is [cheerio.load]. *)
Definition extractMainContent (load : string -> document) (html : string) : string :=
  let dom := load html in
  let dom := remove non_content dom in
  Js.trim (Js.collapse_white_space (text (select "body" dom))).

End Html.

(** ** Scoring and ranking *)

Module Similarity.
Import Js.

Local Open Scope float_scope.

(** [cosineSimilarity(vecA, vecB)]. *)
Definition cosineSimilarity (vecA vecB : list number) : number :=
  let dotProduct :=
    reduce (fun sum a idx => sum + a * to_number (nth_error vecB idx)) vecA 0 in
  let magnitudeA := sqrt (reduce (fun sum val _ => sum + val * val) vecA 0) in
  let magnitudeB := sqrt (reduce (fun sum val _ => sum + val * val) vecB 0) in
  dotProduct / (magnitudeA * magnitudeB).

(** A row of the table of webpage embeddings, as far as the handler reads it.
    The driver hands the vector over as an array or as its text. *)
Inductive embedding_value :=
| EmbeddingText (s : string)
| EmbeddingArray (v : list number).

Record row := {
  row_embedding : embedding_value;
  row_content : string;
  row_url : string
}.

Record document := {
  embedding : list number;
  content : string;
  url : string
}.

Record scored := {
  scored_content : string;
  scored_url : string;
  similarity : number
}.

(** [embeddingsData.map(row => ...)]; [Number] is the conversion of a string
    to a number. *)
Definition documents (Number : string -> number) (embeddingsData : list row) : list document :=
  map (fun r =>
         let embeddingArray :=
           match row_embedding r with
           | EmbeddingText s => map Number (split "," (remove_braces s))
           | EmbeddingArray v => v
           end in
         {| embedding := embeddingArray; content := row_content r; url := row_url r |})
      embeddingsData.

(** [documents.map(doc => ...)], before sorting. *)
Definition score (queryEmbedding : list number) (docs : list document) : list scored :=
  map (fun doc =>
         {| scored_content := content doc;
            scored_url := url doc;
            similarity := cosineSimilarity queryEmbedding (embedding doc) |})
      docs.

(** [similarities.sort((a, b) => b.similarity - a.similarity)]. *)
Definition by_similarity (a b : scored) : number := similarity b - similarity a.

Definition similarities (queryEmbedding : list number) (docs : list document) : list scored :=
  sort by_similarity (score queryEmbedding docs).

Definition topDocuments (queryEmbedding : list number) (docs : list document) : list scored :=
  slice0 4 (similarities queryEmbedding docs).

Definition contextText (queryEmbedding : list number) (docs : list document) : string :=
  join (String "010" (String "010" EmptyString))
       (map scored_content (topDocuments queryEmbedding docs)).

End Similarity.

(** ** The handler *)

Module Pipeline.
Import Js.

(** A thrown [Error], by its message. *)
Definition exception := string.
Bind Scope string_scope with exception.

Inductive result (A : Type) :=
| Ok (value : A)
| Throw (e : exception).
Arguments Ok {A} value.
Arguments Throw {A} e.

(** *** What is persisted and what is observed *)

Record source := { title : string; link : string }.

Inductive payload_content :=
| Words (s : string)
| SourceList (l : list source).

Record payload := { type : string; content : payload_content }.

(** The writes to the table [message_history] and the requests to the
    language model, in the order they are issued. *)
Inductive event :=
| Inserted (id : Z) (p : payload)
| Updated (id : Z) (p : payload)
| StreamOpened (model system user : string)
| Completed (model system user : string).

(** The state the handler runs in: the table, the identifier the table gives
    to its next row, the number of requests Supabase has served, the local
    counter [vectorCount] of the web-search branch, and the log of events. *)
Record world := {
  message_history : list (Z * payload);
  next_id : Z;
  supabase_calls : nat;
  vectorCount : nat;
  trace : list event
}.

(** *** The services *)

Inductive chunk :=
| Part (delta_content : option string)
| Broken (e : exception).

(** A page fetch settles after [elapsed] milliseconds. *)
Record fetched := { elapsed : Z; outcome : result string }.

(** An object of the search provider's answer; either property may be
    missing. *)
Record search_hit := { hit_title : option string; hit_link : option string }.

Record vector_store := { texts : list string; annotationPosition : string }.

Record found := { pageContent : string; metadata : string }.

Record services := {
  (** whether the n-th request to Supabase comes back with an error *)
  supabase_fails : nat -> option exception;
  openai_embedding : string -> result (list number);
  openai_stream : string -> string -> string -> result (list chunk);
  openai_chat : string -> string -> string -> result string;
  select_embeddings : result (list Similarity.row);
  Number : string -> number;
  brave_search : string -> result string;
  JSON_parse : string -> result (list search_hit);
  JSON_stringify : list (list found) -> string;
  fetch : string -> fetched;
  cheerio_load : string -> Html.document;
  splitText : string -> result (list string);
  fromTexts : list string -> string -> result vector_store;
  similaritySearch : vector_store -> string -> result (list found)
}.

(** *** State and exceptions *)

Definition M (A : Type) : Type := world -> result A * world.

Definition ret {A : Type} (a : A) : M A := fun w => (Ok a, w).

Definition throw {A : Type} (e : exception) : M A := fun w => (Throw e, w).

Definition bind {A B : Type} (c : M A) (k : A -> M B) : M B :=
  fun w =>
    match c w with
    | (Ok a, w') => k a w'
    | (Throw e, w') => (Throw e, w')
    end.

Definition try_catch {A : Type} (c : M A) (handler : exception -> M A) : M A :=
  fun w =>
    match c w with
    | (Ok a, w') => (Ok a, w')
    | (Throw e, w') => handler e w'
    end.

Definition lift {A : Type} (r : result A) : M A := fun w => (r, w).

Notation "x <- c ;; k" := (bind c (fun x => k))
  (at level 61, c at next level, right associativity).
Notation "c ;; k" := (bind c (fun _ => k))
  (at level 61, right associativity).

(** [Promise.all(l)]; the promises of the handler share nothing but
    [vectorCount], so they are run one after the other. *)
Fixpoint all {A : Type} (l : list (M A)) : M (list A) :=
  match l with
  | [] => ret []
  | c :: l' => (a <- c ;; rest <- all l' ;; ret (a :: rest))
  end.

Definition log (e : event) : M unit :=
  fun w =>
    (Ok tt,
     {| message_history := message_history w; next_id := next_id w;
        supabase_calls := supabase_calls w; vectorCount := vectorCount w;
        trace := trace w ++ [e] |}).

Definition set_vectorCount (f : nat -> nat) : M unit :=
  fun w =>
    (Ok tt,
     {| message_history := message_history w; next_id := next_id w;
        supabase_calls := supabase_calls w; vectorCount := f (vectorCount w);
        trace := trace w |}).

(** *** Supabase *)

(** What a query resolves to: [{ data, error }]. *)
Record reply := { data : option (list Z); error : option exception }.

Definition served (w : world) (rows : list (Z * payload)) (next : Z) (evs : list event) : world :=
  {| message_history := rows; next_id := next;
     supabase_calls := S (supabase_calls w); vectorCount := vectorCount w;
     trace := trace w ++ evs |}.

Section Handler.
Context (env : services).

(** [supabase.from('message_history').insert([{ payload }]).select('id')]. *)
Definition insert_row (p : payload) : M reply :=
  fun w =>
    match supabase_fails env (supabase_calls w) with
    | Some e =>
        (Ok {| data := None; error := Some e |},
         served w (message_history w) (next_id w) [])
    | None =>
        let id := next_id w in
        (Ok {| data := Some [id]; error := None |},
         served w (message_history w ++ [(id, p)]) (id + 1)%Z [Inserted id p])
    end.

(** [supabase.from('message_history').update({ payload }).eq('id', rowId).select('id')]. *)
Definition update_row (rowId : Z) (p : payload) : M reply :=
  fun w =>
    match supabase_fails env (supabase_calls w) with
    | Some e =>
        (Ok {| data := None; error := Some e |},
         served w (message_history w) (next_id w) [])
    | None =>
        let hit (r : Z * payload) := (fst r =? rowId)%Z in
        (Ok {| data := Some (map fst (filter hit (message_history w))); error := None |},
         served w
           (map (fun r => if hit r then (fst r, p) else r) (message_history w))
           (next_id w) [Updated rowId p])
    end.

(** [data[0].id]. *)
Definition first_id (d : option (list Z)) : M Z :=
  match d with
  | Some (id :: _) => ret id
  | _ => throw "TypeError: Cannot read properties of undefined (reading 'id')"
  end.

Definition sendPayload (content : payload) : M Z :=
  try_catch
    (r <- insert_row content ;;
     match error r with
     | Some e => throw e
     | None => first_id (data r)
     end)
    (fun e => throw e).

Definition createRowForGPTResponse : M (option Z) :=
  r <- insert_row {| type := "GPT"; content := Words "" |} ;;
  match error r with
  | Some e => throw e
  | None =>
      match data r with
      | Some d => (id <- first_id (Some d) ;; ret (Some id))
      | None => ret None
      end
  end.

(** [!rowId]. *)
Definition falsy (rowId : option Z) : bool :=
  match rowId with
  | Some id => (id =? 0)%Z
  | None => true
  end.

Definition updateRowWithGPTResponse (rowId : option Z) (content : string) : M (option Z) :=
  match rowId with
  | Some id =>
      if falsy rowId then ret None
      else
        try_catch
          (r <- update_row id {| type := "GPT"; content := Words content |} ;;
           match error r with
           | Some e => throw e
           | None =>
               match data r with
               | Some d => (id' <- first_id (Some d) ;; ret (Some id'))
               | None => ret None
               end
           end)
          (fun e => throw e)
  | None => ret None
  end.

(** *** OpenAI *)

Definition open_stream (model system user : string) : M (list chunk) :=
  log (StreamOpened model system user) ;;
  lift (openai_stream env model system user).

Definition complete (model system user : string) : M string :=
  log (Completed model system user) ;;
  lift (openai_chat env model system user).

Definition rephrase_system : string :=
  "You are a rephraser and always respond with a rephrased version of the input that is given to a search engine API. Always be succinct and use the same words as the input.".

Definition rephraseInput (inputString : string) : M string :=
  complete "gpt-4o" rephrase_system inputString.

Definition answer_system : string :=
  "You are an assistant that provides answers to user queries based EXCLUSIVELY on the provided context. You are STRICTLY FORBIDDEN from using any information from your training data or external knowledge. Use ONLY the given context to generate accurate and helpful responses. If the context does not contain sufficient information to answer the query, state that you cannot provide an answer based on the given context.".

(** A string is truthy when it is not empty. *)
Definition truthy (s : string) : bool := negb (String.eqb s "").

(** The body of [for await (const part of stream)]. *)
Fixpoint consume (rowId : option Z) (stream : list chunk) (accumulatedContent : string)
  : M unit :=
  match stream with
  | [] => ret tt
  | Broken e :: _ => throw e
  | Part (Some delta) :: rest =>
      if truthy delta then
        let accumulatedContent := (accumulatedContent ++ delta)%string in
        updateRowWithGPTResponse rowId accumulatedContent ;;
        consume rowId rest accumulatedContent
      else consume rowId rest accumulatedContent
  | Part None :: rest => consume rowId rest accumulatedContent
  end.

Definition getGPTResults (inputString : string) : M unit :=
  let accumulatedContent := ""%string in
  stream <- open_stream "gpt-4o" answer_system inputString ;;
  rowId <- createRowForGPTResponse ;;
  sendPayload {| type := "Heading"; content := Words "Answer" |} ;;
  consume rowId stream accumulatedContent.

Definition quote : string := String "034" EmptyString.

Definition followup_system (message : string) : string :=
  ("You are a follow up answer generator and always respond with 4 follow up questions based on this input "
   ++ quote ++ message ++ quote ++ " in JSON format. i.e. { "
   ++ quote ++ "follow_up" ++ quote ++ ": ["
   ++ quote ++ "QUESTION_GOES_HERE" ++ quote ++ ", "
   ++ quote ++ "QUESTION_GOES_HERE" ++ quote ++ ", "
   ++ quote ++ "QUESTION_GOES_HERE" ++ quote ++ ", "
   ++ quote ++ "QUESTION_GOES_HERE" ++ quote ++ "] }")%string.

Definition followup_user (message : string) : string :=
  ("Generate 4 follow up questions based on this input " ++ quote ++ message ++ quote)%string.

Definition generateFollowup (message : string) : M string :=
  complete "gpt-4" (followup_system message) (followup_user message).

(** *** Responses *)

Record response := { status : Z; json : list (string * string) }.

(** [NextResponse.json(body)] answers with status 200 unless told otherwise. *)
Definition processing : response :=
  {| status := 200; json := [("message", "Processing request")]%string |}.

Definition failed : response :=
  {| status := 500;
     json := [("error", "An error occurred while processing the request")]%string |}.

Definition triggerLLMAndFollowup (inputString : string) : M response :=
  getGPTResults inputString ;;
  followUpResult <- generateFollowup inputString ;;
  sendPayload {| type := "FollowUp"; content := Words followUpResult |} ;;
  ret processing.

(** *** Web search *)

Definition present (v : option string) : bool :=
  match v with
  | Some s => truthy s
  | None => false
  end.

Definition text_of_field (v : option string) : string :=
  match v with
  | Some s => s
  | None => ""
  end.

Definition keeps (doc : search_hit) : bool :=
  present (hit_title doc) && present (hit_link doc)
  && negb (includes "brave.com" (text_of_field (hit_link doc))).

Definition normalizeData (docs : string) : result (list source) :=
  match JSON_parse env docs with
  | Ok parsed =>
      Ok (map (fun doc => {| title := text_of_field (hit_title doc);
                             link := text_of_field (hit_link doc) |})
              (slice0 4 (filter keeps parsed)))
  | Throw e => Throw e
  end.

Definition fetchPageContent (link : string) : fetched :=
  let f := fetch env link in
  {| elapsed := elapsed f;
     outcome :=
       match outcome f with
       | Ok html => Ok (Html.extractMainContent (cheerio_load env) html)
       | Throw e => Throw e
       end |}.

(** [Promise.race([timer, fetchPromise])] with a timer of [ms]
    milliseconds: the fetch wins when it settles before the timer fires. *)
Definition race (ms : Z) (f : fetched) : result string :=
  if (elapsed f <? ms)%Z then outcome f else Throw "Timeout".

Definition fetchAndProcess (message : string) (item : source) : M (option (list found)) :=
  try_catch
    (htmlContent <- lift (race 5000 (fetchPageContent (link item))) ;;
     if (String.length htmlContent <? 250)%nat then ret None
     else
       splitText <- lift (splitText env htmlContent) ;;
       vectorStore <- lift (fromTexts env splitText (link item)) ;;
       set_vectorCount S ;;
       docs <- lift (similaritySearch env vectorStore message) ;;
       ret (Some docs))
    (fun e => set_vectorCount S ;; ret None).

(** [while (vectorCount < 4) vectorCount++]. *)
Definition at_least_four (n : nat) : nat := Nat.iter (4 - n) S n.

(** [results.filter(result => result !== null)]. *)
Definition successful (results : list (option (list found))) : list (list found) :=
  flat_map (fun r => match r with Some docs => [docs] | None => [] end) results.

Definition topResult (successfulResults : list (list found)) : list (list found) :=
  if (4 <? List.length successfulResults)%nat then slice0 4 successfulResults
  else successfulResults.

(** *** Gathering sources *)

Definition line_break : string := String "010" EmptyString.

Definition database_prompt (contextText message : string) : string :=
  ("Context: " ++ contextText ++ line_break ++ line_break ++ "Query: " ++ message)%string.

Definition searchEngineForSources (message embeddingSource : string) : M response :=
  if String.eqb embeddingSource "database" then
    queryEmbedding <- lift (openai_embedding env message) ;;
    embeddingsData <- lift (select_embeddings env) ;;
    let documents := Similarity.documents (Number env) embeddingsData in
    let topDocuments := Similarity.topDocuments queryEmbedding documents in
    let contextText := Similarity.contextText queryEmbedding documents in
    let sourcesPayload :=
      map (fun doc => {| title := Similarity.scored_content doc;
                         link := Similarity.scored_url doc |}) topDocuments in
    sendPayload {| type := "Sources"; content := SourceList sourcesPayload |} ;;
    sendPayload {| type := "VectorCreation";
                   content := Words "Finished Retrieving Embeddings from Database." |} ;;
    triggerLLMAndFollowup (database_prompt contextText message)
  else
    rephrasedMessage <- rephraseInput message ;;
    docs <- lift (brave_search env rephrasedMessage) ;;
    normalizedData <- lift (normalizeData docs) ;;
    sendPayload {| type := "Sources"; content := SourceList normalizedData |} ;;
    set_vectorCount (fun _ => 0%nat) ;;
    results <- all (map (fetchAndProcess message) normalizedData) ;;
    set_vectorCount at_least_four ;;
    let successfulResults := successful results in
    sendPayload {| type := "VectorCreation"; content := Words "Finished Scanning Sources." |} ;;
    triggerLLMAndFollowup
      ("Query: " ++ message ++ ", Top Results: "
       ++ JSON_stringify env (topResult successfulResults))%string.

(** *** The endpoint *)

Record body := { message : string; embeddingSource : string }.

(** A request, by what [req.json()] resolves to. *)
Record request := { req_json : result body }.

Definition POST (req : request) : M response :=
  try_catch
    (b <- lift (req_json req) ;;
     sendPayload {| type := "Query"; content := Words (message b) |} ;;
     searchEngineForSources (message b) (embeddingSource b) ;;
     ret processing)
    (fun e => ret failed).

End Handler.

(** The table before the first request. *)
Definition fresh : world :=
  {| message_history := []; next_id := 1; supabase_calls := 0;
     vectorCount := 0; trace := [] |}.

End Pipeline.

(** ** The time a search result takes

    [fetchAndProcess] once more, with the time after which every awaited
    promise settles.  The timer of [Promise.race] runs against the page
    fetch; the calls that split, embed and search are awaited behind the
    race, one after the other. *)

Module Timing.
Import Js Pipeline.

(** How long the awaited calls of the processing take, in milliseconds. *)
Record latency := {
  splitText_ms : string -> Z;
  fromTexts_ms : list string -> string -> Z;
  similaritySearch_ms : vector_store -> string -> Z
}.

(** A computation, and the milliseconds after which it settles. *)
Definition T (A : Type) : Type := world -> (result A * world) * Z.

Definition at_once {A : Type} (c : M A) : T A := fun w => (c w, 0%Z).

Definition after {A : Type} (ms : Z) (c : M A) : T A := fun w => (c w, ms).

(** [await c] and go on with [k]: the times add up. *)
Definition bind {A B : Type} (c : T A) (k : A -> T B) : T B :=
  fun w =>
    match c w with
    | ((Ok a, w'), t) => let '(r, t') := k a w' in (r, (t + t')%Z)
    | ((Throw e, w'), t) => ((Throw e, w'), t)
    end.

Definition try_catch {A : Type} (c : T A) (handler : exception -> T A) : T A :=
  fun w =>
    match c w with
    | ((Ok a, w'), t) => ((Ok a, w'), t)
    | ((Throw e, w'), t) => let '(r, t') := handler e w' in (r, (t + t')%Z)
    end.

(** [Promise.race([timer, fetchPromise])] settles when the first of the two
    does. *)
Definition race (ms : Z) (f : fetched) : T string :=
  after (Z.min (elapsed f) ms) (lift (Pipeline.race ms f)).

Section Handler.
Context (env : services) (lat : latency).

Definition fetchAndProcess (message : string) (item : source) : T (option (list found)) :=
  try_catch
    (bind (race 5000 (fetchPageContent env (link item))) (fun htmlContent =>
     if (String.length htmlContent <? 250)%nat then at_once (ret None)
     else
       bind (after (splitText_ms lat htmlContent) (lift (splitText env htmlContent)))
         (fun splitText =>
       bind (after (fromTexts_ms lat splitText (link item))
               (lift (fromTexts env splitText (link item))))
         (fun vectorStore =>
       bind (at_once (set_vectorCount S)) (fun _ =>
       bind (after (similaritySearch_ms lat vectorStore message)
               (lift (similaritySearch env vectorStore message)))
         (fun docs =>
       at_once (ret (Some docs))))))))
    (fun e => bind (at_once (set_vectorCount S)) (fun _ => at_once (ret None))).

End Handler.

End Timing.

(** ** The sort of the engine

    [Array.prototype.sort] as V8, the engine of Node, computes it for an
    array of fewer than 64 elements: the run the array starts with is
    counted, and reversed if it descends; the elements behind it are
    inserted one by one, each at the place a binary search finds.  (A longer
    array is cut into such runs, which are merged.)  Where the comparator is
    consistent this is the stable ordering [Js.sort] gives; where it is not,
    as with a score of [NaN] among numbers, the two may differ, and this is
    what Node does. *)

Module V8.
Import Js.

Section Sort.
Context {A : Type} (compare : A -> A -> number).

(** [order < 0], for [order] the result of the comparator; [NaN] counts as
    [+0]. *)
Definition precedes (x y : A) : bool := PrimFloat.ltb (compare x y) zero.

(** [CountAndMakeRun], its loop: how far the run goes on behind the first
    two elements. *)
Fixpoint run_tail (descending : bool) (previous : A) (l : list A) : nat :=
  match l with
  | [] => 0
  | current :: l' =>
      if Bool.eqb (precedes current previous) descending
      then S (run_tail descending current l')
      else 0
  end.

(** [CountAndMakeRun]: the run, made ascending, and what is behind it. *)
Definition make_run (l : list A) : list A * list A :=
  match l with
  | first :: second :: l' =>
      let descending := precedes second first in
      let runLength := 2 + run_tail descending second l' in
      ((if descending then rev (firstn runLength l) else firstn runLength l),
       skipn runLength l)
  | _ => (l, [])
  end.

(** The binary search of [BinaryInsertionSort]: where [pivot] belongs among
    the sorted elements, between [left] and [right]. *)
Fixpoint search (steps : nat) (pivot : A) (sorted : list A) (left right : nat) : nat :=
  match steps with
  | O => left
  | S steps' =>
      if (left <? right)%nat then
        let mid := (left + (right - left) / 2)%nat in
        match nth_error sorted mid with
        | Some x =>
            if precedes pivot x then search steps' pivot sorted left mid
            else search steps' pivot sorted (S mid) right
        | None => left
        end
      else left
  end.

Definition insert (sorted : list A) (pivot : A) : list A :=
  let left := search (List.length sorted) pivot sorted 0 (List.length sorted) in
  firstn left sorted ++ pivot :: skipn left sorted.

Definition sort (l : list A) : list A :=
  let (run, rest) := make_run l in
  fold_left insert rest run.

End Sort.

End V8.

(** ** The handler before the database mode

    The earlier revision of the route searches the web for every request,
    asks the model [gpt-3.5-turbo] to rephrase and to answer, and gives the
    answering model another system prompt.  Its [sendPayload],
    [updateRowWithGPTResponse], [generateFollowup], [fetchPageContent] and
    [extractMainContent], and the inner functions [normalizeData] and
    [fetchAndProcess], read as those of the later revision and are taken from
    there; the functions that differ, and those that call them, follow. *)

Module Earlier.
Import Js Pipeline.

Section Handler.
Context (env : services).

(** [generateUniqueStreamId()] reads the clock and the random source. *)
Context (generateUniqueStreamId : unit -> string).

Definition rephraseInput (inputString : string) : M string :=
  complete env "gpt-3.5-turbo" rephrase_system inputString.

Definition answer_system : string :=
  "You are an answer generator, you will receive top results of similarity search, they are optional to use depending on how well they help answer the query.".

Definition createRowForGPTResponse : M (option Z) :=
  let streamId := generateUniqueStreamId tt in
  r <- insert_row env {| type := "GPT"; content := Words "" |} ;;
  match error r with
  | Some e => throw e
  | None =>
      match data r with
      | Some d => (id <- first_id (Some d) ;; ret (Some id))
      | None => ret None
      end
  end.

Definition getGPTResults (inputString : string) : M unit :=
  let accumulatedContent := ""%string in
  stream <- open_stream env "gpt-3.5-turbo" answer_system inputString ;;
  rowId <- createRowForGPTResponse ;;
  sendPayload env {| type := "Heading"; content := Words "Answer" |} ;;
  consume env rowId stream accumulatedContent.

Definition triggerLLMAndFollowup (inputString : string) : M response :=
  getGPTResults inputString ;;
  followUpResult <- generateFollowup env inputString ;;
  sendPayload env {| type := "FollowUp"; content := Words followUpResult |} ;;
  ret processing.

Definition searchEngineForSources (message : string) : M response :=
  rephrasedMessage <- rephraseInput message ;;
  docs <- lift (brave_search env rephrasedMessage) ;;
  normalizedData <- lift (normalizeData env docs) ;;
  sendPayload env {| type := "Sources"; content := SourceList normalizedData |} ;;
  set_vectorCount (fun _ => 0%nat) ;;
  results <- all (map (fetchAndProcess env message) normalizedData) ;;
  set_vectorCount at_least_four ;;
  let successfulResults := successful results in
  sendPayload env {| type := "VectorCreation"; content := Words "Finished Scanning Sources." |} ;;
  triggerLLMAndFollowup
    ("Query: " ++ message ++ ", Top Results: "
     ++ JSON_stringify env (topResult successfulResults))%string.

(** Of what [req.json()] resolves to, only [message] is read. *)
Definition POST (req : request) : M response :=
  try_catch
    (b <- lift (req_json req) ;;
     sendPayload env {| type := "Query"; content := Words (message b) |} ;;
     searchEngineForSources (message b) ;;
     ret processing)
    (fun e => ret failed).

End Handler.

End Earlier.

(* ================================================================== *)
(** * Part II: the notions the statements use *)
(* ================================================================== *)

(** ** Binary64 values, through their specification *)

Module Float.

Definition SFis_nan (x : spec_float) : bool :=
  match x with
  | S754_nan => true
  | _ => false
  end.

Definition SFis_zero (x : spec_float) : bool :=
  match x with
  | S754_zero _ => true
  | _ => false
  end.

Definition SFis_infinity (x : spec_float) : bool :=
  match x with
  | S754_infinity _ => true
  | _ => false
  end.

(** Neither zero nor [NaN], and of sign [s]. *)
Definition signed (s : bool) (r : spec_float) : Prop :=
  match r with
  | S754_finite s' _ _ | S754_infinity s' => s' = s
  | _ => False
  end.

(** A key whose lexicographic order is the order of the values. *)
Definition SFrank (x : spec_float) : Z * (Z * Z) :=
  match x with
  | S754_nan => (0, (0, 0))
  | S754_zero _ => (0, (0, 0))
  | S754_infinity true => (-2, (0, 0))
  | S754_infinity false => (2, (0, 0))
  | S754_finite true m e => (-1, (- e, - Z.pos m))
  | S754_finite false m e => (1, (e, Z.pos m))
  end%Z.

Definition lex_lt (a b : Z * (Z * Z)) : Prop :=
  (fst a < fst b
   \/ fst a = fst b
      /\ (fst (snd a) < fst (snd b)
          \/ fst (snd a) = fst (snd b) /\ snd (snd a) < snd (snd b)))%Z.

Definition lex_le (a b : Z * (Z * Z)) : Prop :=
  (fst a < fst b
   \/ fst a = fst b
      /\ (fst (snd a) < fst (snd b)
          \/ fst (snd a) = fst (snd b) /\ snd (snd a) <= snd (snd b)))%Z.

Definition lex_eq (a b : Z * (Z * Z)) : Prop :=
  (fst a = fst b /\ fst (snd a) = fst (snd b) /\ snd (snd a) = snd (snd b))%Z.

Definition rank (x : float) : Z * (Z * Z) := SFrank (Prim2SF x).

(** A number that is zero or [NaN]: what sums and products of zeros are. *)
Definition zero_or_nan (x : float) : bool := (is_zero x || is_nan x)%bool.

End Float.

(** ** Cosine similarity, as the glossary words it *)

Module Cosine.
Import Js.
Local Open Scope float_scope.

Definition dot (a b : list number) : number :=
  fold_left (fun sum p => sum + fst p * snd p) (combine a b) 0.

(** The Euclidean magnitude. *)
Definition magnitude (a : list number) : number :=
  sqrt (fold_left (fun sum x => sum + x * x) a 0).

(** The three local constants of [cosineSimilarity]. *)
Definition dotProduct (vecA vecB : list number) : number :=
  reduce (fun sum a idx => sum + a * to_number (nth_error vecB idx)) vecA 0.

Definition magnitudeOf (vec : list number) : number :=
  sqrt (reduce (fun sum val _ => sum + val * val) vec 0).

Definition divisor (vecA vecB : list number) : number :=
  magnitudeOf vecA * magnitudeOf vecB.

Definition all_zero (v : list number) : Prop := Forall (fun x => is_zero x = true) v.

(** A ranking in descending order of similarity. *)
Definition descending (l : list Similarity.scored) : Prop :=
  StronglySorted
    (fun a b => (Similarity.similarity b <=? Similarity.similarity a) = true) l.

Definition numeric (l : list Similarity.scored) : Prop :=
  Forall (fun a => is_nan (Similarity.similarity a) = false) l.

(** The entries that score [v]. *)
Definition tied (v : number) (a : Similarity.scored) : bool :=
  Similarity.similarity a =? v.

(** [l'] ranks [l] in descending order and keeps entries of equal score in
    the order they have in [l]: what a stable sort returns. *)
Definition stable_ranking (l l' : list Similarity.scored) : Prop :=
  Permutation l' l /\ descending l' /\ forall v, filter (tied v) l' = filter (tied v) l.

(** A query and three documents, the second with a zero embedding. *)
Definition sample_query : list number := [1; 0].

Definition sample_documents : list Similarity.document :=
  [ {| Similarity.embedding := [1; 1]; Similarity.content := "A"; Similarity.url := "a" |};
    {| Similarity.embedding := [0; 0]; Similarity.content := "Z"; Similarity.url := "z" |};
    {| Similarity.embedding := [1; 0]; Similarity.content := "B"; Similarity.url := "b" |} ].

End Cosine.

(** ** Page text, as the specification words it *)

Module Page.
Import Js Html.
Local Open Scope string_scope.

(** The elements that hold no content: scripts, style sheets, the head,
    navigation bars, footers, frames and images. *)
Definition skipped (name : string) : bool :=
  String.eqb name "script" || String.eqb name "style" || String.eqb name "head"
  || String.eqb name "nav" || String.eqb name "footer" || String.eqb name "iframe"
  || String.eqb name "img".

(** The text below a node, with the skipped elements left out. *)
Fixpoint visible (n : node) : string :=
  match n with
  | Text data => data
  | Comment _ => ""
  | Element name children =>
      if skipped name then ""
      else fold_right (fun c acc => visible c ++ acc) "" children
  end.

(** The visible text of every [body] element at or below a node, in document
    order. *)
Fixpoint body_text (n : node) : string :=
  match n with
  | Element name children =>
      if skipped name then ""
      else (if String.eqb name "body" then visible n else "")
           ++ fold_right (fun c acc => body_text c ++ acc) "" children
  | _ => ""
  end.

Definition main_text (d : document) : string :=
  fold_right (fun n acc => body_text n ++ acc) "" d.

(** Induction on a node, with the property at hand for its children. *)
Section NodeInduction.
Context (P : node -> Prop).
Context (HText : forall data, P (Text data)).
Context (HComment : forall data, P (Comment data)).
Context (HElement : forall name children, Forall P children -> P (Element name children)).

Fixpoint node_induction (n : node) : P n :=
  match n with
  | Text data => HText data
  | Comment data => HComment data
  | Element name children =>
      HElement name children
        ((fix all (l : list node) : Forall P l :=
            match l with
            | [] => Forall_nil P
            | c :: l' => Forall_cons c (node_induction c) (all l')
            end) children)
  end.

End NodeInduction.

(** A page with a head, a script inside the body and a navigation bar. *)
Definition sample_page : document :=
  [ Element "html"
      [ Element "head" [ Element "title" [ Text "Title" ] ];
        Element "body"
          [ Text "  Hello ";
            Element "script" [ Text "track()" ];
            Comment "banner";
            Element "nav" [ Element "a" [ Text "Home" ] ];
            Element "p" [ Text (String "009" "big" ++ String "010" " world ") ] ] ] ].

(** A page with every kind of skipped element, inside and outside the body. *)
Definition busy_page : document :=
  [ Element "html"
      [ Element "head" [ Element "title" [ Text "Title" ]; Element "style" [ Text "p {}" ] ];
        Element "body"
          [ Element "nav" [ Element "a" [ Text "Home" ] ];
            Text (String "010" "  Hello ");
            Element "script" [ Text "track()" ];
            Element "style" [ Text "a {}" ];
            Element "div"
              [ Element "img" [ Text "alt" ];
                Text (String "009" "big" ++ String "160" "");
                Element "iframe" [ Text "frame" ];
                Element "head" [ Text "stray" ] ];
            Element "p" [ Text (String "013" (String "010" "world ")) ];
            Element "footer" [ Text "Imprint" ] ] ] ].

(** The white space of the specification: tab, line feed, vertical tab, form
    feed, carriage return, space and no-break space. *)
Definition white_space : list ascii :=
  ["009"; "010"; "011"; "012"; "013"; " "; "160"]%char.

Definition blank (c : ascii) : bool := existsb (Ascii.eqb c) white_space.

(** Scanning a string, for a given notion [ws] of white space. *)
Section Scanning.
Context (ws : ascii -> bool).

(** The maximal runs of characters that are not white space. *)
Fixpoint words_by (cur : string) (s : string) : list string :=
  match s with
  | "" => match cur with "" => [] | _ => [cur] end
  | String c s' =>
      if ws c
      then match cur with
           | "" => words_by "" s'
           | _ => cur :: words_by "" s'
           end
      else words_by (cur ++ String c "") s'
  end.

Definition starts_by (s : string) : bool :=
  match s with
  | String c _ => ws c
  | "" => false
  end.

Fixpoint ends_by (s : string) : bool :=
  match s with
  | "" => false
  | String c "" => ws c
  | String _ s' => ends_by s'
  end.

(** Two white-space characters side by side, somewhere in the string. *)
Fixpoint adjacent_by (s : string) : bool :=
  match s with
  | "" => false
  | String c s' => ws c && starts_by s' || adjacent_by s'
  end.

(** No white space at all. *)
Fixpoint solid_by (s : string) : bool :=
  match s with
  | "" => true
  | String c s' => negb (ws c) && solid_by s'
  end.

End Scanning.

(** The words of a string and where it has white space, for the white space
    of the specification. *)
Definition words (s : string) : list string := words_by blank "" s.

Definition starts_with_white_space (s : string) : bool := starts_by blank s.

Definition ends_with_white_space (s : string) : bool := ends_by blank s.

Definition adjacent_white_space (s : string) : bool := adjacent_by blank s.

End Page.

(** ** Runs of the handler *)

Module Run.
Import Js Pipeline.
Local Open Scope string_scope.

(** The payload of the row that holds the answer. *)
Definition answer (text : string) : payload := {| type := "GPT"; content := Words text |}.

(** The first row of the table with a given identifier. *)
Definition stored (w : world) (id : Z) : option payload :=
  option_map snd (find (fun r => (fst r =? id)%Z) (message_history w)).

(** The table never hands out an identifier twice. *)
Definition unused_next_id (w : world) : Prop :=
  forall r, In r (message_history w) -> fst r <> next_id w.

(** The contents the stream carries: a part counts when its delta content is
    a non-empty string. *)
Definition delta (c : chunk) : list string :=
  match c with
  | Part (Some d) => if truthy d then [d] else []
  | _ => []
  end.

Definition deltas (stream : list chunk) : list string := flat_map delta stream.

(** Concatenation in stream order. *)
Definition total (ds : list string) : string := fold_right append "" ds.

(** The writes among the events. *)
Definition is_write (e : event) : bool :=
  match e with
  | Inserted _ _ | Updated _ _ => true
  | _ => false
  end.

Definition writes (evs : list event) : list event := filter is_write evs.

(** The prompts of the streams opened among the events. *)
Definition streams (evs : list event) : list string :=
  flat_map (fun e => match e with StreamOpened _ _ user => [user] | _ => [] end) evs.

(** The [try] block of [POST]. *)
Definition attempt (env : services) (req : request) : M response :=
  b <- lift (req_json req) ;;
  sendPayload env {| type := "Query"; content := Words (message b) |} ;;
  searchEngineForSources env (message b) (embeddingSource b) ;;
  ret processing.

(** The [try] block of [fetchAndProcess]. *)
Definition process (env : services) (message : string) (item : source)
  : M (option (list found)) :=
  htmlContent <- lift (race 5000 (fetchPageContent env (link item))) ;;
  if (String.length htmlContent <? 250)%nat then ret None
  else
    splitText <- lift (splitText env htmlContent) ;;
    vectorStore <- lift (fromTexts env splitText (link item)) ;;
    set_vectorCount S ;;
    docs <- lift (similaritySearch env vectorStore message) ;;
    ret (Some docs).

(** What an item contributes to the results, whatever the state. *)
Definition yield (env : services) (message : string) (item : source)
  : option (list found) :=
  match fst (process env message item fresh) with
  | Ok r => r
  | Throw _ => None
  end.

(** The state with [vectorCount] replaced. *)
Definition counting (n : nat) (w : world) : world :=
  {| message_history := message_history w; next_id := next_id w;
     supabase_calls := supabase_calls w; vectorCount := n; trace := trace w |}.

(** The state with one more event in its log. *)
Definition logged (w : world) (e : event) : world :=
  {| message_history := message_history w; next_id := next_id w;
     supabase_calls := supabase_calls w; vectorCount := vectorCount w;
     trace := trace w ++ [e] |}.

(** The table after an update of the rows with identifier [rowId]. *)
Definition replaced (rowId : Z) (p : payload) (rows : list (Z * payload)) : list (Z * payload) :=
  map (fun r => if (fst r =? rowId)%Z then (fst r, p) else r) rows.

Definition heading : payload := {| type := "Heading"; content := Words "Answer" |}.

(** Services that all answer: three embedded pages, a stream of four parts,
    one search hit whose page is too short to be used. *)
Definition sample_stream : list chunk :=
  [Part (Some "Hel"); Part None; Part (Some ""); Part (Some "lo")].

Definition sample_rows : list Similarity.row :=
  [ {| Similarity.row_embedding := Similarity.EmbeddingArray [0; 1]%float;
       Similarity.row_content := "A"; Similarity.row_url := "a" |};
    {| Similarity.row_embedding := Similarity.EmbeddingArray [1; 1]%float;
       Similarity.row_content := "B"; Similarity.row_url := "b" |};
    {| Similarity.row_embedding := Similarity.EmbeddingArray [1; 0]%float;
       Similarity.row_content := "C"; Similarity.row_url := "c" |} ].

Definition sample_services : services :=
  {| supabase_fails := fun _ => None;
     openai_embedding := fun _ => Ok [1; 0]%float;
     openai_stream := fun _ _ _ => Ok sample_stream;
     openai_chat := fun _ _ _ => Ok "I cannot help with that.";
     select_embeddings := Ok sample_rows;
     Number := fun _ => 0%float;
     brave_search := fun _ => Ok "[]";
     JSON_parse := fun _ => Ok [ {| hit_title := Some "t"; hit_link := Some "http://x" |} ];
     JSON_stringify := fun _ => "[]";
     fetch := fun _ => {| elapsed := 10; outcome := Ok "<html>" |};
     cheerio_load := fun _ => [];
     splitText := fun _ => Ok [];
     fromTexts := fun t l => Ok {| texts := t; annotationPosition := l |};
     similaritySearch := fun _ _ => Ok [] |}.

Definition followUp (text : string) : payload :=
  {| type := "FollowUp"; content := Words text |}.

(** What a successful run of [triggerLLMAndFollowup] logs, when the table
    hands out [id] next: the stream is opened, the empty row of the answer
    and the heading are inserted, the row is updated with [texts], and the
    follow-up is requested and inserted. *)
Definition answering (id : Z) (input : string) (texts : list string) (reply : string)
  : list event :=
  [StreamOpened "gpt-4o" answer_system input;
   Inserted id (answer "");
   Inserted (id + 1) heading]
  ++ map (fun t => Updated id (answer t)) texts
  ++ [Completed "gpt-4" (followup_system input) (followup_user input);
      Inserted (id + 2) (followUp reply)].

(** A computation that opens no stream. *)
Definition quiet {A : Type} (c : M A) : Prop :=
  forall w, streams (trace (snd (c w))) = streams (trace w).

(** The sample services over a table whose second row has a zero embedding. *)
Definition zero_row : list Similarity.row :=
  [ {| Similarity.row_embedding := Similarity.EmbeddingArray [1; 1]%float;
       Similarity.row_content := "A"; Similarity.row_url := "a" |};
    {| Similarity.row_embedding := Similarity.EmbeddingArray [0; 0]%float;
       Similarity.row_content := "Z"; Similarity.row_url := "z" |};
    {| Similarity.row_embedding := Similarity.EmbeddingArray [1; 0]%float;
       Similarity.row_content := "B"; Similarity.row_url := "b" |} ].

Definition zero_row_services : services :=
  {| supabase_fails := supabase_fails sample_services;
     openai_embedding := fun _ => Ok Cosine.sample_query;
     openai_stream := openai_stream sample_services;
     openai_chat := openai_chat sample_services;
     select_embeddings := Ok zero_row;
     Number := Number sample_services;
     brave_search := brave_search sample_services;
     JSON_parse := JSON_parse sample_services;
     JSON_stringify := JSON_stringify sample_services;
     fetch := fetch sample_services;
     cheerio_load := cheerio_load sample_services;
     splitText := splitText sample_services;
     fromTexts := fromTexts sample_services;
     similaritySearch := similaritySearch sample_services |}.

(** Services whose [n]-th request to Supabase fails. *)
Definition flaky (n : nat) (env : services) : services :=
  {| supabase_fails := fun k => if (k =? n)%nat then Some "503" else supabase_fails env k;
     openai_embedding := openai_embedding env;
     openai_stream := openai_stream env;
     openai_chat := openai_chat env;
     select_embeddings := select_embeddings env;
     Number := Number env;
     brave_search := brave_search env;
     JSON_parse := JSON_parse env;
     JSON_stringify := JSON_stringify env;
     fetch := fetch env;
     cheerio_load := cheerio_load env;
     splitText := splitText env;
     fromTexts := fromTexts env;
     similaritySearch := similaritySearch env |}.

(** A table that hands out the identifier 0 next. *)
Definition from_zero : world :=
  {| message_history := []; next_id := 0; supabase_calls := 0;
     vectorCount := 0; trace := [] |}.

(** The sample services with a stream that breaks after its first part. *)
Definition broken_stream_services : services :=
  {| supabase_fails := supabase_fails sample_services;
     openai_embedding := openai_embedding sample_services;
     openai_stream := fun _ _ _ => Ok [Part (Some "Hel"); Broken "socket hang up"; Part (Some "lo")];
     openai_chat := openai_chat sample_services;
     select_embeddings := select_embeddings sample_services;
     Number := Number sample_services;
     brave_search := brave_search sample_services;
     JSON_parse := JSON_parse sample_services;
     JSON_stringify := JSON_stringify sample_services;
     fetch := fetch sample_services;
     cheerio_load := cheerio_load sample_services;
     splitText := splitText sample_services;
     fromTexts := fromTexts sample_services;
     similaritySearch := similaritySearch sample_services |}.

(** Seven search hits, one of the provider itself and one without a title, all
    leading to a page of 300 characters. *)
Fixpoint filler (n : nat) : string :=
  match n with
  | O => ""
  | S n' => String "a" (filler n')
  end.

Definition hit (t l : string) : search_hit := {| hit_title := Some t; hit_link := Some l |}.

Definition seven_hits : list search_hit :=
  [ hit "one" "http://one";
    hit "brave" "https://search.brave.com/help";
    {| hit_title := None; hit_link := Some "http://untitled" |};
    hit "two" "http://two";
    hit "three" "http://three";
    hit "four" "http://four";
    hit "five" "http://five" ].

Definition seven_hits_services : services :=
  {| supabase_fails := supabase_fails sample_services;
     openai_embedding := openai_embedding sample_services;
     openai_stream := openai_stream sample_services;
     openai_chat := openai_chat sample_services;
     select_embeddings := select_embeddings sample_services;
     Number := Number sample_services;
     brave_search := brave_search sample_services;
     JSON_parse := fun _ => Ok seven_hits;
     JSON_stringify := JSON_stringify sample_services;
     fetch := fetch sample_services;
     cheerio_load := fun _ => [ Html.Element "body" [ Html.Text (filler 300) ] ];
     splitText := fun s => Ok [s];
     fromTexts := fromTexts sample_services;
     similaritySearch :=
       fun store _ => Ok [ {| pageContent := "a"; metadata := annotationPosition store |} ] |}.

Definition sample_request (source : string) : request :=
  {| req_json := Ok {| message := "q"; embeddingSource := source |} |}.

(** The reply format the follow-up prompt asks for. *)
Definition quoted (s : string) : string := quote ++ s ++ quote.

Definition follow_up_json (questions : list string) : string :=
  "{ " ++ quoted "follow_up" ++ ": [" ++ String.concat ", " (map quoted questions) ++ "] }".

End Run.

(** ** The protocol of a request *)

Module Protocol.
Import Pipeline.
Local Open Scope string_scope.

(** What the handler is about to do, as the table and the language model
    see it.  From the insertion of the answer row on, the stage knows the
    identifier the table gave to that row. *)
Inductive stage :=
| AwaitQuery
| AwaitSources
| Rephrased
| AwaitVectorCreation
| AwaitStream
| AwaitAnswerRow
| AwaitHeading (row : Z)
| Streaming (row : Z)
| AwaitFollowUp
| Done.

(** The protocol of a request for [message], in database mode or in web
    mode. *)
Section Request.
Context (database : bool) (message : string).

Definition note : string :=
  if database then "Finished Retrieving Embeddings from Database."
  else "Finished Scanning Sources.".

(** The events a stage admits, and the stage each leads to:
    - the query is inserted first, with the message as its content;
    - in web mode, and only there, [gpt-4o] is asked to rephrase the message
      before the sources are inserted;
    - the progress note follows the sources;
    - the answer stream is opened with [gpt-4o], then the answer row is
      inserted, empty, then the heading [Answer];
    - updates are updates of the answer row;
    - [gpt-4] is asked for follow-up questions, and its reply is inserted. *)
Definition step (s : stage) (e : event) : option stage :=
  match s, e with
  | AwaitQuery, Inserted _ {| type := kind; content := Words text |} =>
      if String.eqb kind "Query" && String.eqb text message then Some AwaitSources
      else None
  | AwaitSources, Completed model _ user =>
      if negb database && String.eqb model "gpt-4o" && String.eqb user message
      then Some Rephrased else None
  | AwaitSources, Inserted _ {| type := kind; content := SourceList _ |} =>
      if database && String.eqb kind "Sources" then Some AwaitVectorCreation else None
  | Rephrased, Inserted _ {| type := kind; content := SourceList _ |} =>
      if String.eqb kind "Sources" then Some AwaitVectorCreation else None
  | AwaitVectorCreation, Inserted _ {| type := kind; content := Words text |} =>
      if String.eqb kind "VectorCreation" && String.eqb text note then Some AwaitStream
      else None
  | AwaitStream, StreamOpened model _ _ =>
      if String.eqb model "gpt-4o" then Some AwaitAnswerRow else None
  | AwaitAnswerRow, Inserted row {| type := kind; content := Words text |} =>
      if String.eqb kind "GPT" && String.eqb text "" then Some (AwaitHeading row)
      else None
  | AwaitHeading row, Inserted _ {| type := kind; content := Words text |} =>
      if String.eqb kind "Heading" && String.eqb text "Answer" then Some (Streaming row)
      else None
  | Streaming row, Updated id {| type := kind; content := Words _ |} =>
      if Z.eqb id row && String.eqb kind "GPT" then Some (Streaming row) else None
  | Streaming _, Completed model _ _ =>
      if String.eqb model "gpt-4" then Some AwaitFollowUp else None
  | AwaitFollowUp, Inserted _ {| type := kind; content := Words _ |} =>
      if String.eqb kind "FollowUp" then Some Done else None
  | _, _ => None
  end.

(** The stage a sequence of events leads to, if every event is admitted. *)
Fixpoint walk (s : stage) (evs : list event) : option stage :=
  match evs with
  | [] => Some s
  | e :: evs' =>
      match step s e with
      | Some s' => walk s' evs'
      | None => None
      end
  end.

(** A computation that only adds events to the log, takes the protocol from
    [s] to a stage that [Q] holds of when it returns, and leaves it short of
    [Done] when it throws. *)
Definition moves {A : Type} (s : stage) (c : M A) (Q : A -> stage -> Prop) : Prop :=
  forall w,
    exists evs,
      trace (snd (c w)) = (trace w ++ evs)%list
      /\ match fst (c w) with
         | Ok a => exists s', walk s evs = Some s' /\ Q a s'
         | Throw _ => exists s'', walk s evs = Some s'' /\ s'' <> Done
         end.

(** Whatever is returned, the stage is [s']. *)
Definition to {A : Type} (s' : stage) : A -> stage -> Prop := fun _ s => s = s'.

End Request.

(** The mode and the message of a request; a request that cannot be read has
    neither, and causes no event. *)
Definition mode_of (req : request) : bool :=
  match req_json req with
  | Ok b => String.eqb (embeddingSource b) "database"
  | Throw _ => false
  end.

Definition message_of (req : request) : string :=
  match req_json req with
  | Ok b => message b
  | Throw _ => ""
  end.

End Protocol.

(** ** The table across a request *)

Module Ledger.
Import Pipeline Run.

(** From [w] to [w'] identifiers are only handed out, and the rows with an
    identifier below [base] are left as they are. *)
Definition extends (base : Z) (w w' : world) : Prop :=
  (next_id w <= next_id w')%Z
  /\ (forall id, (id < base)%Z -> stored w' id = stored w id).

(** The texts the answer row goes through: after each content the stream
    carries, all that has arrived so far. *)
Fixpoint running (text : string) (ds : list string) : list string :=
  match ds with
  | [] => []
  | d :: ds' => (text ++ d)%string :: running (text ++ d)%string ds'
  end.

End Ledger.

(** ** Strings, as the statements need them *)

Module Text.
Import Js.
Local Open Scope string_scope.

(** [sub] occurs in [s]. *)
Definition occurs (sub s : string) : Prop := exists pre post, s = pre ++ sub ++ post.

(** No character of [s] is one of the [bad] ones. *)
Fixpoint free_of (bad : ascii -> bool) (s : string) : bool :=
  match s with
  | "" => true
  | String c s' => negb (bad c) && free_of bad s'
  end.

Definition is_comma (c : ascii) : bool := Ascii.eqb c ",".

Definition is_brace (c : ascii) : bool := Ascii.eqb c "{" || Ascii.eqb c "}".

(** A string without the characters the text of a vector is made of besides
    its numbers: the comma and the two braces. *)
Definition plain (s : string) : bool := free_of (fun c => is_comma c || is_brace c) s.

(** The text of a vector in the notation of Postgres arrays. *)
Definition braced (tokens : list string) : string := "{" ++ join "," tokens ++ "}".

(** A search hit with a title and a link that are not empty, the link not
    one of the search provider's own. *)
Definition qualifies (doc : Pipeline.search_hit) : Prop :=
  exists t l,
    Pipeline.hit_title doc = Some t /\ Pipeline.hit_link doc = Some l
    /\ t <> "" /\ l <> "" /\ ~ occurs "brave.com" l.

End Text.

(** ** The two revisions side by side *)

Module Revision.
Import Pipeline.
Local Open Scope string_scope.

(** A request to the model as the later revision makes it. *)
Definition upgrade (e : event) : event :=
  match e with
  | StreamOpened model system user =>
      if String.eqb model "gpt-3.5-turbo" then StreamOpened "gpt-4o" answer_system user
      else e
  | Completed model system user =>
      if String.eqb model "gpt-3.5-turbo" then Completed "gpt-4o" system user else e
  | _ => e
  end.

(** Two states with the same table and counters, whose logs hold behind
    [t1] and [t2] the same events, up to the upgrade. *)
Definition alike (t1 t2 : list event) (w1 w2 : world) : Prop :=
  message_history w1 = message_history w2
  /\ next_id w1 = next_id w2
  /\ supabase_calls w1 = supabase_calls w2
  /\ vectorCount w1 = vectorCount w2
  /\ exists evs, trace w1 = (t1 ++ evs)%list /\ trace w2 = (t2 ++ map upgrade evs)%list.

(** Two computations that return the same from states that are alike, and
    leave states that are alike. *)
Definition sim (t1 t2 : list event) {A : Type} (c1 c2 : M A) : Prop :=
  forall w1 w2,
    alike t1 t2 w1 w2 ->
    fst (c1 w1) = fst (c2 w2) /\ alike t1 t2 (snd (c1 w1)) (snd (c2 w2)).

End Revision.

(** ** Services for the web search *)

Module Web.
Import Pipeline Run.
Local Open Scope string_scope.

(** A similarity search that takes a minute; splitting and embedding take no
    time. *)
Definition slow_search : Timing.latency :=
  {| Timing.splitText_ms := fun _ => 0%Z;
     Timing.fromTexts_ms := fun _ _ => 0%Z;
     Timing.similaritySearch_ms := fun _ _ => 60000%Z |}.

(** The services of [seven_hits_services] with pages that differ: every
    page comes back as its own link, and shows 250 characters, but for the
    page of the second hit, which shows 249. *)
Definition one_short_page : services :=
  {| supabase_fails := supabase_fails seven_hits_services;
     openai_embedding := openai_embedding seven_hits_services;
     openai_stream := openai_stream seven_hits_services;
     openai_chat := openai_chat seven_hits_services;
     select_embeddings := select_embeddings seven_hits_services;
     Number := Number seven_hits_services;
     brave_search := brave_search seven_hits_services;
     JSON_parse := JSON_parse seven_hits_services;
     JSON_stringify := JSON_stringify seven_hits_services;
     fetch := fun link => {| elapsed := 10; outcome := Ok link |};
     cheerio_load :=
       fun html =>
         [ Html.Element "body"
             [ Html.Text (filler (if String.eqb html "http://two" then 249 else 250)) ] ];
     splitText := splitText seven_hits_services;
     fromTexts := fromTexts seven_hits_services;
     similaritySearch := similaritySearch seven_hits_services |}.

Definition four_sources : list source :=
  [ {| title := "one"; link := "http://one" |};
    {| title := "two"; link := "http://two" |};
    {| title := "three"; link := "http://three" |};
    {| title := "four"; link := "http://four" |} ].

End Web.

(** ** A table with a zero embedding *)

Module Ranking.
Import Pipeline Run.
Local Open Scope string_scope.

Definition embedded (v : list Js.number) (text : string) : Similarity.row :=
  {| Similarity.row_embedding := Similarity.EmbeddingArray v;
     Similarity.row_content := text; Similarity.row_url := text |}.

(** Five rows: one at 45 degrees to the query [[1; 0]], one embedded as the
    zero vector, three along the query. *)
Definition five_rows : list Similarity.row :=
  [ embedded [1; 1]%float "A"; embedded [0; 0]%float "Z"; embedded [1; 0]%float "B1";
    embedded [1; 0]%float "B2"; embedded [1; 0]%float "B3" ].

Definition five_row_services : services :=
  {| supabase_fails := supabase_fails sample_services;
     openai_embedding := fun _ => Ok [1; 0]%float;
     openai_stream := openai_stream sample_services;
     openai_chat := openai_chat sample_services;
     select_embeddings := Ok five_rows;
     Number := Number sample_services;
     brave_search := brave_search sample_services;
     JSON_parse := JSON_parse sample_services;
     JSON_stringify := JSON_stringify sample_services;
     fetch := fetch sample_services;
     cheerio_load := cheerio_load sample_services;
     splitText := splitText sample_services;
     fromTexts := fromTexts sample_services;
     similaritySearch := similaritySearch sample_services |}.

(** Four rows, the zero embedding in third place. *)
Definition four_rows : list Similarity.row :=
  [ embedded [1; 1]%float "A0"; embedded [1; 0]%float "B1"; embedded [0; 0]%float "Z2";
    embedded [1; 0]%float "B3" ].

End Ranking.

(* ================================================================== *)
(** * Part III: what the program does *)
(* ================================================================== *)

(** ** Binary64 arithmetic *)

Module Binary64.
Import Float.
Local Open Scope Z_scope.

Lemma digits2_pos_bounds (m : positive) :
  2 ^ (Z.pos (digits2_pos m) - 1) <= Z.pos m < 2 ^ Z.pos (digits2_pos m).
Proof.
  induction m as [p IH | p IH | ]; cbn [digits2_pos].
  - rewrite Pos2Z.inj_succ.
    replace (Z.succ (Z.pos (digits2_pos p)) - 1) with (Z.succ (Z.pos (digits2_pos p) - 1)) by lia.
    rewrite !Z.pow_succ_r by lia. lia.
  - rewrite Pos2Z.inj_succ.
    replace (Z.succ (Z.pos (digits2_pos p)) - 1) with (Z.succ (Z.pos (digits2_pos p) - 1)) by lia.
    rewrite !Z.pow_succ_r by lia. lia.
  - cbn. lia.
Qed.

Lemma shr_1_m (mrs : shr_record) :
  0 <= shr_m mrs -> shr_m (shr_1 mrs) = shr_m mrs / 2.
Proof.
  destruct mrs as [m r s]; cbn [shr_m]; intros Hm.
  rewrite <- Z.div2_div.
  destruct m as [ | [p | p | ] | p ]; try reflexivity; lia.
Qed.

Lemma iter_pos_shr_m (p : positive) :
  forall mrs, 0 <= shr_m mrs ->
    shr_m (iter_pos shr_1 p mrs) = shr_m mrs / 2 ^ Z.pos p.
Proof.
  induction p as [p IH | p IH | ]; intros mrs Hm; cbn [iter_pos].
  - assert (H1 : 0 <= shr_m (shr_1 mrs)) by (rewrite shr_1_m by lia; apply Z.div_pos; lia).
    assert (H2 : 0 <= shr_m (iter_pos shr_1 p (shr_1 mrs)))
      by (rewrite IH by lia; apply Z.div_pos; [lia | apply Z.pow_pos_nonneg; lia]).
    rewrite IH, IH, shr_1_m by lia.
    assert (Hp : 0 < 2 ^ Z.pos p) by (apply Z.pow_pos_nonneg; lia).
    rewrite !Z.div_div by lia.
    f_equal. rewrite <- Z.pow_add_r, <- Z.pow_succ_r by lia. f_equal. lia.
  - assert (H2 : 0 <= shr_m (iter_pos shr_1 p mrs))
      by (rewrite IH by lia; apply Z.div_pos; [lia | apply Z.pow_pos_nonneg; lia]).
    rewrite IH, IH by lia.
    assert (Hp : 0 < 2 ^ Z.pos p) by (apply Z.pow_pos_nonneg; lia).
    rewrite !Z.div_div by lia.
    f_equal. rewrite <- Z.pow_add_r by lia. f_equal. lia.
  - rewrite shr_1_m by lia. reflexivity.
Qed.

Lemma shr_record_of_loc_m m l : shr_m (shr_record_of_loc m l) = m.
Proof. destruct l as [ | [ | | ] ]; reflexivity. Qed.

(** Shifting a mantissa into the format never makes it negative. *)
Lemma shr_fexp_nonneg m e l :
  0 <= m -> 0 <= shr_m (fst (shr_fexp prec emax m e l)).
Proof.
  intros Hm. unfold shr_fexp, shr.
  destruct (fexp prec emax (Zdigits2 m + e) - e) as [ | n | n ]; cbn [fst];
    rewrite ?iter_pos_shr_m; rewrite ?shr_record_of_loc_m; try lia.
  apply Z.div_pos; [ lia | apply Z.pow_pos_nonneg; lia ].
Qed.

(** Nor does it lose a positive mantissa entirely, as long as the exponent
    is at least [emin]. *)
Lemma shr_fexp_pos m e l :
  0 < m -> emin <= e ->
  0 < shr_m (fst (shr_fexp prec emax m e l)) /\ emin <= snd (shr_fexp prec emax m e l).
Proof.
  intros Hm He. unfold shr_fexp, shr.
  destruct m as [ | p | p ]; try lia. cbn [Zdigits2].
  pose proof (digits2_pos_bounds p) as [Hlo _].
  set (d := Z.pos (digits2_pos p)) in *.
  destruct (fexp prec emax (d + e) - e) as [ | n | n ] eqn:Hn; cbn [fst snd];
    rewrite ?shr_record_of_loc_m; try (split; lia).
  unfold fexp, SpecFloat.emin, prec, emax in *.
  rewrite iter_pos_shr_m by (rewrite shr_record_of_loc_m; lia).
  rewrite shr_record_of_loc_m. split; [ | lia ].
  apply Z.div_str_pos. split; [ apply Z.pow_pos_nonneg; lia | ].
  apply Z.le_trans with (2 := Hlo). apply Z.pow_le_mono_r; lia.
Qed.

Lemma round_nearest_even_pos m l : 0 < m -> 0 < round_nearest_even m l.
Proof.
  intros Hm. destruct l as [ | [ | | ] ]; cbn; try lia.
  destruct (Z.even m); lia.
Qed.

Lemma round_nearest_even_nonneg m l : 0 <= m -> 0 <= round_nearest_even m l.
Proof.
  intros Hm. destruct l as [ | [ | | ] ]; cbn; try lia.
  destruct (Z.even m); lia.
Qed.

Lemma binary_round_aux_not_nan s m e l :
  0 <= m -> SFis_nan (binary_round_aux prec emax s m e l) = false.
Proof.
  intros Hm. unfold binary_round_aux.
  pose proof (shr_fexp_nonneg m e l Hm) as H1.
  destruct (shr_fexp prec emax m e l) as [mrs' e']; cbn [fst] in H1.
  pose proof (round_nearest_even_nonneg _ (loc_of_shr_record mrs') H1) as H2.
  pose proof (shr_fexp_nonneg _ e' loc_Exact H2) as H3.
  destruct (shr_fexp prec emax _ e' loc_Exact) as [mrs'' e'']; cbn [fst] in H3.
  destruct (shr_m mrs'') as [ | q | q ]; try lia; try reflexivity.
  destruct (e'' <=? emax - prec); reflexivity.
Qed.

Lemma binary_round_aux_signed s m e l :
  0 < m -> emin <= e -> signed s (binary_round_aux prec emax s m e l).
Proof.
  intros Hm He. unfold binary_round_aux.
  destruct (shr_fexp_pos m e l Hm He) as [H1 H1'].
  destruct (shr_fexp prec emax m e l) as [mrs' e']; cbn [fst snd] in *.
  pose proof (round_nearest_even_pos _ (loc_of_shr_record mrs') H1) as H2.
  destruct (shr_fexp_pos _ e' loc_Exact H2 H1') as [H3 _].
  destruct (shr_fexp prec emax _ e' loc_Exact) as [mrs'' e'']; cbn [fst snd] in *.
  destruct (shr_m mrs'') as [ | q | q ]; try lia.
  destruct (e'' <=? emax - prec); reflexivity.
Qed.

Lemma fexp_ge_emin k : emin <= fexp prec emax k.
Proof. unfold fexp. lia. Qed.

Lemma binary_round_signed s m e :
  emin <= e -> signed s (binary_round prec emax s m e).
Proof.
  intros He. unfold binary_round, shl_align.
  pose proof (fexp_ge_emin (Z.pos (digits2_pos m) + e)).
  destruct (fexp prec emax (Z.pos (digits2_pos m) + e) - e) eqn:Hd;
    apply binary_round_aux_signed; lia.
Qed.

Lemma binary_normalize_positive M e :
  emin <= e ->
  SFltb (S754_zero false) (binary_normalize prec emax M e false) = (0 <? M).
Proof.
  intros He. destruct M as [ | p | p ]; cbn [binary_normalize]; try reflexivity.
  - pose proof (binary_round_signed false p e He) as H.
    destruct (binary_round prec emax false p e) as [ | [ | ] | | [ | ] ? ? ]; cbn in H; try easy.
  - pose proof (binary_round_signed true p e He) as H.
    destruct (binary_round prec emax true p e) as [ | [ | ] | | [ | ] ? ? ]; cbn in H; try easy.
Qed.

Lemma shl_align_fst mx ex ez :
  ez <= ex -> Z.pos (fst (shl_align mx ex ez)) = Z.pos mx * 2 ^ (ex - ez).
Proof.
  intros Hle. unfold shl_align.
  destruct (ez - ex) as [ | d | d ] eqn:Hd; cbn [fst]; try lia.
  - replace (ex - ez) with 0 by lia. lia.
  - replace (ex - ez) with (Z.pos d) by lia.
    rewrite <- Z.shiftl_mul_pow2 by lia. cbn [Z.shiftl].
    apply (Pos.iter_swap_gen _ _ Z.pos xO (Z.mul 2)). reflexivity.
Qed.

(** What validity says of a finite value: its mantissa has at most 53 bits,
    and exactly 53 unless the exponent is the least one. *)
Lemma bounded_inv m e :
  bounded prec emax m e = true ->
  emin <= e /\ Z.pos m < 2 ^ 53 /\ (emin < e -> 2 ^ 52 <= Z.pos m).
Proof.
  unfold bounded, canonical_mantissa, fexp. intros H.
  apply andb_prop in H as [H _]. apply Z.eqb_eq in H.
  pose proof (digits2_pos_bounds m) as [Hlo Hhi].
  set (d := Z.pos (digits2_pos m)) in *.
  unfold SpecFloat.emin, prec, emax in *.
  assert (Hd : d <= 53) by lia.
  split; [ lia | split ].
  - apply Z.lt_le_trans with (1 := Hhi). apply Z.pow_le_mono_r; lia.
  - intros He. assert (Hd' : d = 53) by lia. rewrite Hd' in Hlo. exact Hlo.
Qed.

(** On valid values the lexicographic order on (exponent, mantissa) is the
    order of the magnitudes. *)
Lemma aligned_compare mx ex my ey :
  bounded prec emax mx ex = true -> bounded prec emax my ey = true ->
  let ez := Z.min ex ey in
  (Z.pos mx * 2 ^ (ex - ez) ?= Z.pos my * 2 ^ (ey - ez)) =
  match ex ?= ey with
  | Lt => Lt
  | Gt => Gt
  | Eq => Pos.compare_cont Eq mx my
  end.
Proof.
  intros Hx Hy ez.
  apply bounded_inv in Hx as (Hex & Hmx & Hnx), Hy as (Hey & Hmy & Hny).
  destruct (Z.compare_spec ex ey) as [Heq | Hlt | Hgt].
  - subst ey ez. rewrite Z.min_id, Z.sub_diag. cbn [Z.pow]. rewrite !Z.mul_1_r.
    rewrite Pos.compare_cont_spec. cbn [Z.compare].
    destruct (mx ?= my)%positive; reflexivity.
  - subst ez. rewrite Z.min_l, Z.sub_diag by lia. cbn [Z.pow]. rewrite Z.mul_1_r.
    apply Z.compare_lt_iff.
    assert (2 ^ 1 <= 2 ^ (ey - ex)) by (apply Z.pow_le_mono_r; lia).
    assert (2 ^ 52 <= Z.pos my) by (apply Hny; lia).
    change (2 ^ 1) with 2 in *. nia.
  - subst ez. rewrite Z.min_r, Z.sub_diag by lia. cbn [Z.pow]. rewrite Z.mul_1_r.
    apply Z.compare_gt_iff.
    assert (2 ^ 1 <= 2 ^ (ex - ey)) by (apply Z.pow_le_mono_r; lia).
    assert (2 ^ 52 <= Z.pos mx) by (apply Hnx; lia).
    change (2 ^ 1) with 2 in *. nia.
Qed.

(** The sign of a difference decides the comparison. *)
Lemma SFsub_positive x y :
  valid_binary x = true -> valid_binary y = true ->
  SFis_nan x = false -> SFis_nan y = false ->
  SFltb (S754_zero false) (SF64sub y x) = SFltb x y.
Proof.
  intros Vx Vy Nx Ny.
  destruct x as [sx | sx | | sx mx ex]; try discriminate;
  destruct y as [sy | sy | | sy my ey]; try discriminate;
    try (destruct sx, sy; reflexivity).
  cbn [valid_binary] in Vx, Vy.
  unfold SF64sub, SFsub.
  pose proof (bounded_inv _ _ Vx) as (Hex & _). pose proof (bounded_inv _ _ Vy) as (Hey & _).
  rewrite binary_normalize_positive by lia.
  rewrite !shl_align_fst by lia.
  pose proof (aligned_compare mx ex my ey Vx Vy) as Hc. cbn zeta in Hc.
  replace (Z.min ey ex) with (Z.min ex ey) by lia.
  set (vx := Z.pos mx * 2 ^ (ex - Z.min ex ey)) in *.
  set (vy := Z.pos my * 2 ^ (ey - Z.min ex ey)) in *.
  assert (0 < vx) by (apply Z.mul_pos_pos; [lia | apply Z.pow_pos_nonneg; lia]).
  assert (0 < vy) by (apply Z.mul_pos_pos; [lia | apply Z.pow_pos_nonneg; lia]).
  unfold SFltb, SFcompare.
  pose proof (Z.compare_spec vx vy) as Hs. rewrite Hc in Hs.
  destruct sx, sy; cbn [cond_Zopp];
    destruct (ex ?= ey); try destruct (Pos.compare_cont Eq mx my); cbn [CompOpp];
    inversion Hs; first [ apply Z.ltb_lt; lia | apply Z.ltb_ge; lia ].
Qed.

(** *** The order *)

Lemma SFltb_rank x y :
  SFis_nan x = false -> SFis_nan y = false ->
  SFltb x y = true <-> lex_lt (SFrank x) (SFrank y).
Proof.
  intros Nx Ny. unfold SFltb, lex_lt.
  destruct x as [sx | sx | | sx mx ex]; try discriminate;
  destruct y as [sy | sy | | sy my ey]; try discriminate;
    try destruct sx; try destruct sy; cbn;
    try (split; [ intros; try discriminate; lia | intros; try reflexivity; lia ]).
  - destruct (Z.compare_spec ex ey); rewrite ?Pos.compare_cont_spec;
      try destruct (Pos.compare_spec mx my); cbn;
      (split; [ intros; try discriminate; lia | intros; try reflexivity; lia ]).
  - destruct (Z.compare_spec ex ey); rewrite ?Pos.compare_cont_spec;
      try destruct (Pos.compare_spec mx my); cbn;
      (split; [ intros; try discriminate; lia | intros; try reflexivity; lia ]).
Qed.

Lemma SFleb_rank x y :
  SFis_nan x = false -> SFis_nan y = false ->
  SFleb x y = true <-> lex_le (SFrank x) (SFrank y).
Proof.
  intros Nx Ny. unfold SFleb, lex_le.
  destruct x as [sx | sx | | sx mx ex]; try discriminate;
  destruct y as [sy | sy | | sy my ey]; try discriminate;
    try destruct sx; try destruct sy; cbn;
    try (split; [ intros; try discriminate; lia | intros; try reflexivity; lia ]).
  - destruct (Z.compare_spec ex ey); rewrite ?Pos.compare_cont_spec;
      try destruct (Pos.compare_spec mx my); cbn;
      (split; [ intros; try discriminate; lia | intros; try reflexivity; lia ]).
  - destruct (Z.compare_spec ex ey); rewrite ?Pos.compare_cont_spec;
      try destruct (Pos.compare_spec mx my); cbn;
      (split; [ intros; try discriminate; lia | intros; try reflexivity; lia ]).
Qed.

Lemma SFeqb_rank x y :
  SFis_nan x = false -> SFis_nan y = false ->
  SFeqb x y = true <-> lex_eq (SFrank x) (SFrank y).
Proof.
  intros Nx Ny. unfold SFeqb, lex_eq.
  destruct x as [sx | sx | | sx mx ex]; try discriminate;
  destruct y as [sy | sy | | sy my ey]; try discriminate;
    try destruct sx; try destruct sy; cbn;
    try (split; [ intros; try discriminate; lia | intros; try reflexivity; lia ]).
  - destruct (Z.compare_spec ex ey); rewrite ?Pos.compare_cont_spec;
      try destruct (Pos.compare_spec mx my); cbn;
      (split; [ intros; try discriminate; lia | intros; try reflexivity; lia ]).
  - destruct (Z.compare_spec ex ey); rewrite ?Pos.compare_cont_spec;
      try destruct (Pos.compare_spec mx my); cbn;
      (split; [ intros; try discriminate; lia | intros; try reflexivity; lia ]).
Qed.

Lemma SFeqb_not_nan x y : SFeqb x y = true -> SFis_nan x = false /\ SFis_nan y = false.
Proof.
  unfold SFeqb. destruct x, y; cbn; intros H; try discriminate; split; reflexivity.
Qed.

Lemma SFleb_not_nan x y : SFleb x y = true -> SFis_nan x = false /\ SFis_nan y = false.
Proof.
  unfold SFleb. destruct x, y; cbn; intros H; try discriminate; split; reflexivity.
Qed.

Lemma SFltb_not_nan x y : SFltb x y = true -> SFis_nan x = false /\ SFis_nan y = false.
Proof.
  unfold SFltb. destruct x, y; cbn; intros H; try discriminate; split; reflexivity.
Qed.

(** *** Division, products and sums *)

Lemma SFdiv_core_nonneg mx ex my ey :
  0 <= fst (fst (SFdiv_core_binary prec emax (Z.pos mx) ex (Z.pos my) ey)).
Proof.
  unfold SFdiv_core_binary.
  set (s := _ - _ - _).
  set (m' := match s with 0 => Z.pos mx | Z.pos _ => Z.shiftl (Z.pos mx) s | Z.neg _ => 0 end).
  assert (Hm : 0 <= m').
  { subst m'. destruct s; try lia. apply Z.shiftl_nonneg. lia. }
  destruct (Z.div_eucl m' (Z.pos my)) as [q r] eqn:E. cbn [fst].
  assert (Hq : q = m' / Z.pos my) by (unfold Z.div; rewrite E; reflexivity).
  subst q. apply Z.div_pos; lia.
Qed.

(** A quotient is [NaN] exactly when an operand is, or both are zero, or
    both are infinite. *)
Lemma SFdiv_is_nan x y :
  SFis_nan (SF64div x y) =
  (SFis_nan x || SFis_nan y || SFis_zero x && SFis_zero y
   || SFis_infinity x && SFis_infinity y)%bool.
Proof.
  destruct x as [sx | sx | | sx mx ex], y as [sy | sy | | sy my ey]; try reflexivity.
  unfold SF64div, SFdiv.
  pose proof (SFdiv_core_nonneg mx ex my ey) as H.
  destruct (SFdiv_core_binary prec emax (Z.pos mx) ex (Z.pos my) ey) as [[mz ez] lz].
  cbn [fst] in H. rewrite binary_round_aux_not_nan by exact H. reflexivity.
Qed.

Lemma SFdiv_by_zero_or_nan x y :
  (SFis_zero y || SFis_nan y)%bool = true ->
  (SFis_nan (SF64div x y) || SFis_infinity (SF64div x y))%bool = true.
Proof. destruct x, y; cbn; intros H; try discriminate; reflexivity. Qed.

Lemma SFmul_zero_l x y :
  SFis_zero x = true -> (SFis_zero (SF64mul x y) || SFis_nan (SF64mul x y))%bool = true.
Proof. destruct x, y; cbn; intros H; try discriminate; reflexivity. Qed.

Lemma SFmul_zero_r x y :
  SFis_zero y = true -> (SFis_zero (SF64mul x y) || SFis_nan (SF64mul x y))%bool = true.
Proof. destruct x, y; cbn; intros H; try discriminate; reflexivity. Qed.

Lemma SFmul_zero_or_nan_l x y :
  (SFis_zero x || SFis_nan x)%bool = true ->
  (SFis_zero (SF64mul x y) || SFis_nan (SF64mul x y))%bool = true.
Proof. destruct x, y; cbn; intros H; try discriminate; reflexivity. Qed.

Lemma SFmul_zero_or_nan_r x y :
  (SFis_zero y || SFis_nan y)%bool = true ->
  (SFis_zero (SF64mul x y) || SFis_nan (SF64mul x y))%bool = true.
Proof. destruct x, y; cbn; intros H; try discriminate; reflexivity. Qed.

Lemma SFadd_zero_or_nan x y :
  (SFis_zero x || SFis_nan x)%bool = true ->
  (SFis_zero y || SFis_nan y)%bool = true ->
  (SFis_zero (SF64add x y) || SFis_nan (SF64add x y))%bool = true.
Proof.
  destruct x as [[ | ] | | | ], y as [[ | ] | | | ]; cbn; intros H1 H2;
    try discriminate; reflexivity.
Qed.

Lemma SFdiv_zero_or_nan x y :
  (SFis_zero x || SFis_nan x)%bool = true ->
  (SFis_zero y || SFis_nan y)%bool = true ->
  SFis_nan (SF64div x y) = true.
Proof. destruct x, y; cbn; intros H1 H2; try discriminate; reflexivity. Qed.

(** *** The same facts on primitive floats *)

Local Open Scope float_scope.

Lemma SFcompare_refl x : SFis_nan x = false -> SFcompare x x = Some Eq.
Proof.
  destruct x as [s | s | | s m e]; cbn; intros H; try discriminate;
    try (destruct s; reflexivity).
  rewrite Z.compare_refl, Pos.compare_cont_refl. destruct s; reflexivity.
Qed.

Lemma is_nan_spec x : is_nan x = SFis_nan (Prim2SF x).
Proof.
  unfold is_nan. rewrite FloatAxioms.eqb_spec. unfold SFeqb.
  destruct (SFis_nan (Prim2SF x)) eqn:E.
  - destruct (Prim2SF x); try discriminate. reflexivity.
  - rewrite SFcompare_refl by exact E. reflexivity.
Qed.

Lemma is_zero_spec x : is_zero x = SFis_zero (Prim2SF x).
Proof.
  unfold is_zero. rewrite FloatAxioms.eqb_spec. change (Prim2SF zero) with (S754_zero false).
  unfold SFeqb. destruct (Prim2SF x) as [s | s | | s m e]; cbn; try reflexivity;
    destruct s; reflexivity.
Qed.

Lemma is_infinity_spec x : is_infinity x = SFis_infinity (Prim2SF x).
Proof.
  unfold is_infinity. rewrite FloatAxioms.eqb_spec, abs_spec.
  change (Prim2SF infinity) with (S754_infinity false).
  unfold SFeqb. destruct (Prim2SF x) as [s | s | | s m e]; cbn; reflexivity.
Qed.

Lemma zero_or_nan_spec x :
  zero_or_nan x = (SFis_zero (Prim2SF x) || SFis_nan (Prim2SF x))%bool.
Proof. unfold zero_or_nan. rewrite is_zero_spec, is_nan_spec. reflexivity. Qed.

(** The comparator [b - a] is positive exactly when [a < b]. *)
Lemma sub_positive a b :
  is_nan a = false -> is_nan b = false -> (0 <? b - a) = (a <? b).
Proof.
  rewrite !is_nan_spec. intros Na Nb.
  rewrite !FloatAxioms.ltb_spec, sub_spec. change (Prim2SF 0) with (S754_zero false).
  apply SFsub_positive; auto using Prim2SF_valid.
Qed.

Lemma ltb_rank a b :
  is_nan a = false -> is_nan b = false -> (a <? b) = true <-> lex_lt (rank a) (rank b).
Proof. rewrite !is_nan_spec, FloatAxioms.ltb_spec. apply SFltb_rank. Qed.

Lemma leb_rank a b :
  is_nan a = false -> is_nan b = false -> (a <=? b) = true <-> lex_le (rank a) (rank b).
Proof. rewrite !is_nan_spec, FloatAxioms.leb_spec. apply SFleb_rank. Qed.

Lemma leb_not_nan a b : (a <=? b) = true -> is_nan a = false /\ is_nan b = false.
Proof. rewrite !is_nan_spec, FloatAxioms.leb_spec. apply SFleb_not_nan. Qed.

Lemma leb_trans a b c : (a <=? b) = true -> (b <=? c) = true -> (a <=? c) = true.
Proof.
  intros Hab Hbc.
  destruct (leb_not_nan _ _ Hab) as [Na Nb], (leb_not_nan _ _ Hbc) as [_ Nc].
  apply leb_rank in Hab, Hbc; trivial. apply leb_rank; trivial.
  unfold lex_le in *. lia.
Qed.

Lemma not_ltb_leb a b :
  is_nan a = false -> is_nan b = false -> (a <? b) = false -> (b <=? a) = true.
Proof.
  intros Na Nb H. apply leb_rank; trivial.
  assert (Hn : ~ lex_lt (rank a) (rank b)).
  { intros Hlt. apply ltb_rank in Hlt; trivial. congruence. }
  unfold lex_le, lex_lt in *. lia.
Qed.

Lemma ltb_leb a b : (a <? b) = true -> (a <=? b) = true.
Proof.
  intros H. assert (Hn : is_nan a = false /\ is_nan b = false).
  { rewrite !is_nan_spec. rewrite FloatAxioms.ltb_spec in H. apply SFltb_not_nan. exact H. }
  destruct Hn as [Na Nb]. apply ltb_rank in H; trivial. apply leb_rank; trivial.
  unfold lex_le, lex_lt in *. lia.
Qed.

Lemma eqb_not_nan a b : (a =? b) = true -> is_nan a = false /\ is_nan b = false.
Proof. rewrite !is_nan_spec, FloatAxioms.eqb_spec. apply SFeqb_not_nan. Qed.

Lemma eqb_rank a b :
  is_nan a = false -> is_nan b = false -> (a =? b) = true <-> lex_eq (rank a) (rank b).
Proof. rewrite !is_nan_spec, FloatAxioms.eqb_spec. apply SFeqb_rank. Qed.

Lemma eqb_refl a : is_nan a = false -> (a =? a) = true.
Proof. intros Na. apply eqb_rank; trivial. unfold lex_eq. lia. Qed.

Lemma eqb_sym a b : (a =? b) = (b =? a).
Proof.
  destruct (a =? b) eqn:E, (b =? a) eqn:E'; trivial.
  - destruct (eqb_not_nan _ _ E) as [Na Nb]. apply eqb_rank in E; trivial.
    assert (H : (b =? a) = true) by (apply eqb_rank; trivial; unfold lex_eq in *; lia).
    congruence.
  - destruct (eqb_not_nan _ _ E') as [Nb Na]. apply eqb_rank in E'; trivial.
    assert (H : (a =? b) = true) by (apply eqb_rank; trivial; unfold lex_eq in *; lia).
    congruence.
Qed.

Lemma leb_antisym a b : (a <=? b) = true -> (b <=? a) = true -> (a =? b) = true.
Proof.
  intros Hab Hba. destruct (leb_not_nan _ _ Hab) as [Na Nb].
  apply leb_rank in Hab, Hba; trivial. apply eqb_rank; trivial.
  unfold lex_le, lex_eq in *. lia.
Qed.

(** Two numbers, one below the other, are not both equal to a third. *)
Lemma ltb_not_tied a b v : (a <? b) = true -> (a =? v) = true -> (b =? v) = true -> False.
Proof.
  intros Hlt Ha Hb.
  destruct (eqb_not_nan _ _ Ha) as [Na Nv], (eqb_not_nan _ _ Hb) as [Nb _].
  apply ltb_rank in Hlt; trivial. apply eqb_rank in Ha, Hb; trivial.
  unfold lex_lt, lex_eq in *. lia.
Qed.

Lemma div_is_nan x y :
  is_nan (x / y) =
  (is_nan x || is_nan y || is_zero x && is_zero y || is_infinity x && is_infinity y)%bool.
Proof.
  rewrite !is_nan_spec, !is_zero_spec, !is_infinity_spec, div_spec.
  apply SFdiv_is_nan.
Qed.

Lemma div_not_finite x y : zero_or_nan y = true -> is_finite (x / y) = false.
Proof.
  rewrite zero_or_nan_spec. intros H. unfold is_finite.
  rewrite is_nan_spec, is_infinity_spec, div_spec.
  rewrite SFdiv_by_zero_or_nan by exact H. reflexivity.
Qed.

Lemma div_zero_or_nan x y :
  zero_or_nan x = true -> zero_or_nan y = true -> is_nan (x / y) = true.
Proof.
  rewrite !zero_or_nan_spec, is_nan_spec, div_spec. apply SFdiv_zero_or_nan.
Qed.

Lemma mul_zero_or_nan_l x y : zero_or_nan x = true -> zero_or_nan (x * y) = true.
Proof. rewrite !zero_or_nan_spec, mul_spec. apply SFmul_zero_or_nan_l. Qed.

Lemma mul_zero_or_nan_r x y : zero_or_nan y = true -> zero_or_nan (x * y) = true.
Proof. rewrite !zero_or_nan_spec, mul_spec. apply SFmul_zero_or_nan_r. Qed.

Lemma add_zero_or_nan x y :
  zero_or_nan x = true -> zero_or_nan y = true -> zero_or_nan (x + y) = true.
Proof. rewrite !zero_or_nan_spec, add_spec. apply SFadd_zero_or_nan. Qed.

Lemma is_zero_zero_or_nan x : is_zero x = true -> zero_or_nan x = true.
Proof. unfold zero_or_nan. intros ->. reflexivity. Qed.

(** A sum of squares of zeros, started at [+0], is [+0]. *)
Lemma add_square_zero s x : s = 0 -> is_zero x = true -> s + x * x = 0.
Proof.
  intros -> Hx. apply Prim2SF_inj. rewrite add_spec, mul_spec.
  rewrite is_zero_spec in Hx. change (Prim2SF 0) with (S754_zero false).
  destruct (Prim2SF x) as [[ | ] | | | ]; try discriminate; reflexivity.
Qed.

End Binary64.

(** ** Scoring *)

Module CosineFacts.
Import Js Similarity Cosine Float.
Local Open Scope float_scope.

Lemma reduce_from_fold {A B : Type} (g : B -> A -> B) (l : list A) :
  forall idx acc, reduce_from (fun sum x _ => g sum x) idx l acc = fold_left g l acc.
Proof. induction l as [ | x l IH]; intros idx acc; cbn; [ reflexivity | apply IH ]. Qed.

Lemma nth_error_skipn {A : Type} (l : list A) :
  forall i y, nth_error l i = Some y -> skipn i l = y :: skipn (S i) l.
Proof.
  induction l as [ | x l IH]; intros [ | i] y H; cbn in *; try discriminate.
  - injection H as ->. reflexivity.
  - apply IH. exact H.
Qed.

(** Reading [vecB] by index, the reducer walks the two vectors in step. *)
Lemma dotProduct_from (vecB : list number) (vecA : list number) :
  forall idx acc,
    (idx + List.length vecA <= List.length vecB)%nat ->
    reduce_from (fun sum a i => sum + a * to_number (nth_error vecB i)) idx vecA acc =
    fold_left (fun sum p => sum + fst p * snd p) (combine vecA (skipn idx vecB)) acc.
Proof.
  induction vecA as [ | a vecA IH]; intros idx acc Hlen; cbn [reduce_from].
  - reflexivity.
  - cbn [List.length] in Hlen.
    destruct (nth_error vecB idx) as [y | ] eqn:Hy.
    + rewrite (nth_error_skipn _ _ _ Hy). cbn [combine fold_left fst snd to_number].
      apply IH. lia.
    + apply nth_error_None in Hy. lia.
Qed.

Lemma cosineSimilarity_unfold (vecA vecB : list number) :
  cosineSimilarity vecA vecB = dotProduct vecA vecB / divisor vecA vecB.
Proof. reflexivity. Qed.

Lemma magnitudeOf_magnitude (v : list number) : magnitudeOf v = magnitude v.
Proof. unfold magnitudeOf, magnitude, reduce. rewrite reduce_from_fold. reflexivity. Qed.

(** C2.  On vectors of equal length, [cosineSimilarity] is the dot product
    divided by the product of the two Euclidean magnitudes, each computed in
    binary64 from left to right. *)
Theorem cosineSimilarity_formula (a b : list number) :
  List.length a = List.length b ->
  cosineSimilarity a b = dot a b / (magnitude a * magnitude b).
Proof.
  intros Hlen. rewrite cosineSimilarity_unfold. unfold divisor.
  rewrite !magnitudeOf_magnitude. f_equal.
  unfold dotProduct, reduce, dot.
  rewrite dotProduct_from by (cbn; lia). reflexivity.
Qed.

Lemma cosineSimilarity_formula_witness :
  List.length [1; 2; 3] = List.length [4; 5; 6] /\
  cosineSimilarity [1; 2; 3] [4; 5; 6] =
  dot [1; 2; 3] [4; 5; 6] / (magnitude [1; 2; 3] * magnitude [4; 5; 6]).
Proof. split; [ reflexivity | apply (cosineSimilarity_formula [1; 2; 3] [4; 5; 6]); reflexivity ]. Defined.

(** Without the equal lengths the formula fails: a missing component of
    [vecB] reads as [undefined]. *)
Example cosineSimilarity_short_vecB :
  is_nan (cosineSimilarity [1; 2] [1]) = true /\ is_nan (dot [1; 2] [1] / (magnitude [1; 2] * magnitude [1])) = false.
Proof. split; reflexivity. Qed.

(** *** Zero vectors *)

Lemma dotProduct_zero_l (vecB vecA : list number) :
  all_zero vecA ->
  forall idx acc, zero_or_nan acc = true ->
    zero_or_nan
      (reduce_from (fun sum a i => sum + a * to_number (nth_error vecB i)) idx vecA acc) = true.
Proof.
  induction 1 as [ | a vecA Ha _ IH]; intros idx acc Hacc; cbn [reduce_from].
  - exact Hacc.
  - apply IH. apply Binary64.add_zero_or_nan; [ exact Hacc | ].
    apply Binary64.mul_zero_or_nan_l, Binary64.is_zero_zero_or_nan, Ha.
Qed.

Lemma to_number_zero (vecB : list number) (i : nat) :
  all_zero vecB -> zero_or_nan (to_number (nth_error vecB i)) = true.
Proof.
  intros HB. destruct (nth_error vecB i) as [y | ] eqn:Hy; cbn [to_number].
  - apply Binary64.is_zero_zero_or_nan.
    unfold all_zero in HB. rewrite Forall_forall in HB.
    apply HB. eapply nth_error_In. exact Hy.
  - reflexivity.
Qed.

Lemma dotProduct_zero_r (vecB vecA : list number) :
  all_zero vecB ->
  forall idx acc, zero_or_nan acc = true ->
    zero_or_nan
      (reduce_from (fun sum a i => sum + a * to_number (nth_error vecB i)) idx vecA acc) = true.
Proof.
  intros HB. induction vecA as [ | a vecA IH]; intros idx acc Hacc; cbn [reduce_from].
  - exact Hacc.
  - apply IH. apply Binary64.add_zero_or_nan; [ exact Hacc | ].
    apply Binary64.mul_zero_or_nan_r, to_number_zero, HB.
Qed.

Lemma magnitudeOf_zero (v : list number) : all_zero v -> magnitudeOf v = 0.
Proof.
  intros Hv. unfold magnitudeOf, reduce.
  assert (H : forall idx, reduce_from (fun sum val (_ : nat) => sum + val * val) idx v 0 = 0).
  { induction Hv as [ | x v Hx _ IH]; intros idx; cbn [reduce_from].
    - reflexivity.
    - rewrite (Binary64.add_square_zero 0 x eq_refl Hx). apply IH. }
  rewrite H. reflexivity.
Qed.

Lemma divisor_zero_magnitude (a b : list number) :
  is_zero (magnitudeOf a) = true \/ is_zero (magnitudeOf b) = true ->
  zero_or_nan (divisor a b) = true.
Proof.
  unfold divisor. intros [H | H].
  - apply Binary64.mul_zero_or_nan_l, Binary64.is_zero_zero_or_nan, H.
  - apply Binary64.mul_zero_or_nan_r, Binary64.is_zero_zero_or_nan, H.
Qed.

(** C8, as amended.  The division is not guarded.  Its result is [NaN]
    exactly when the dot product or the divisor is [NaN], or both are zero,
    or both are infinite.  When either magnitude is zero the divisor is zero
    or [NaN] and the result is never a finite number; when every component of
    either vector is zero, the result is [NaN]. *)
Theorem cosineSimilarity_division (a b : list number) :
  is_nan (cosineSimilarity a b) =
    (is_nan (dotProduct a b) || is_nan (divisor a b)
     || is_zero (dotProduct a b) && is_zero (divisor a b)
     || is_infinity (dotProduct a b) && is_infinity (divisor a b))%bool
  /\ (is_zero (magnitudeOf a) = true \/ is_zero (magnitudeOf b) = true ->
      zero_or_nan (divisor a b) = true /\ is_finite (cosineSimilarity a b) = false)
  /\ (all_zero a \/ all_zero b -> is_nan (cosineSimilarity a b) = true).
Proof.
  rewrite cosineSimilarity_unfold. split; [ apply Binary64.div_is_nan | split ].
  - intros H. pose proof (divisor_zero_magnitude a b H) as Hd.
    split; [ exact Hd | apply Binary64.div_not_finite, Hd ].
  - intros H. apply Binary64.div_zero_or_nan.
    + unfold dotProduct, reduce.
      destruct H as [H | H];
        [ apply dotProduct_zero_l | apply dotProduct_zero_r ]; trivial.
    + apply divisor_zero_magnitude.
      destruct H as [H | H]; [ left | right ];
        rewrite (magnitudeOf_zero _ H); reflexivity.
Qed.

(** The magnitudes alone do not decide the outcome.  The vector [[1e-200]]
    is not zero, yet its magnitude underflows to zero: against [[1]] the
    divisor is zero, the dot product is not, and the result is [Infinity],
    neither [NaN] nor a finite number. *)
Lemma cosineSimilarity_zero_magnitude_counterexample :
  is_zero 1e-200 = false
  /\ is_zero (magnitudeOf [1e-200]) = true
  /\ is_zero (magnitudeOf [1]) = false
  /\ is_zero (divisor [1e-200] [1]) = true
  /\ cosineSimilarity [1e-200] [1] = infinity
  /\ is_nan (cosineSimilarity [1e-200] [1]) = false
  /\ is_finite (cosineSimilarity [1e-200] [1]) = false.
Proof. repeat split; reflexivity. Qed.

(** So neither half of the rule "non-zero magnitudes give a finite number,
    a zero magnitude gives [NaN]" holds of every pair of vectors. *)
Lemma cosineSimilarity_magnitude_rule_fails :
  ~ (forall a b : list number,
       List.length a = List.length b ->
       (is_zero (magnitudeOf a) = false /\ is_zero (magnitudeOf b) = false ->
        is_finite (cosineSimilarity a b) = true)
       /\ (is_zero (magnitudeOf a) = true \/ is_zero (magnitudeOf b) = true ->
           is_nan (cosineSimilarity a b) = true)).
Proof.
  intros H. destruct (H [1e-200] [1] eq_refl) as [_ Hz].
  specialize (Hz (or_introl eq_refl)). vm_compute in Hz. discriminate.
Qed.

(** Magnitudes that overflow are not zero either, and give [NaN]. *)
Example cosineSimilarity_overflow :
  magnitudeOf [1e200] = infinity /\ is_nan (cosineSimilarity [1e200] [1e200]) = true.
Proof. split; reflexivity. Qed.

Example cosineSimilarity_zero_vector :
  is_nan (cosineSimilarity [0; 0] [1; 0]) = true.
Proof. reflexivity. Qed.

(** *** Ranking *)

Lemma sorts_after_by_similarity (x y : scored) :
  is_nan (similarity x) = false -> is_nan (similarity y) = false ->
  sorts_after by_similarity x y = (similarity x <? similarity y).
Proof. intros Nx Ny. unfold sorts_after, by_similarity. apply Binary64.sub_positive; assumption. Qed.

Lemma insert_permutation {A : Type} (compare : A -> A -> number) (x : A) (l : list A) :
  Permutation (insert compare x l) (x :: l).
Proof.
  induction l as [ | y l IH]; cbn [insert].
  - apply Permutation_refl.
  - destruct (sorts_after compare x y).
    + apply perm_trans with (y :: x :: l); [ apply perm_skip, IH | apply perm_swap ].
    + apply Permutation_refl.
Qed.

Lemma sort_permutation {A : Type} (compare : A -> A -> number) (l : list A) :
  Permutation (sort compare l) l.
Proof.
  induction l as [ | x l IH]; cbn [sort fold_right].
  - apply perm_nil.
  - apply perm_trans with (x :: sort compare l);
      [ apply insert_permutation | apply perm_skip, IH ].
Qed.

Lemma numeric_permutation (l l' : list scored) :
  Permutation l l' -> numeric l -> numeric l'.
Proof. intros HP. unfold numeric. apply Permutation_Forall. exact HP. Qed.

Lemma insert_descending (x : scored) (l : list scored) :
  is_nan (similarity x) = false -> numeric l -> descending l ->
  descending (insert by_similarity x l).
Proof.
  intros Nx. unfold descending.
  induction l as [ | y l IH]; intros Hnum Hsorted; cbn [insert].
  - constructor; constructor.
  - apply Forall_cons_iff in Hnum as [Ny Hnum].
    apply StronglySorted_inv in Hsorted as [Hl Hy].
    rewrite sorts_after_by_similarity by assumption.
    destruct (similarity x <? similarity y) eqn:Hlt.
    + constructor; [ apply IH; assumption | ].
      apply (Permutation_Forall (Permutation_sym (insert_permutation by_similarity x l))).
      constructor; [ apply Binary64.ltb_leb, Hlt | exact Hy ].
    + assert (Hyx : (similarity y <=? similarity x) = true)
        by (apply Binary64.not_ltb_leb; assumption).
      constructor; [ constructor; assumption | ].
      constructor; [ exact Hyx | ].
      eapply Forall_impl; [ | exact Hy ].
      intros z Hz. cbn in Hz. eapply Binary64.leb_trans; eassumption.
Qed.

Lemma sort_descending (l : list scored) :
  numeric l -> descending (sort by_similarity l).
Proof.
  induction l as [ | x l IH]; intros Hnum; cbn [sort fold_right].
  - constructor.
  - apply Forall_cons_iff in Hnum as [Nx Hnum].
    apply insert_descending; [ exact Nx | | apply IH, Hnum ].
    apply (numeric_permutation l); [ apply Permutation_sym, sort_permutation | exact Hnum ].
Qed.

(** When every score is a number, the documents are ranked in descending
    order of similarity, the first four are selected, and the context joins
    their contents with blank lines. *)
Lemma ranking_descending (queryEmbedding : list number) (docs : list document) :
  numeric (score queryEmbedding docs) ->
  let ranked := similarities queryEmbedding docs in
  Permutation ranked (score queryEmbedding docs)
  /\ descending ranked
  /\ topDocuments queryEmbedding docs = firstn 4 ranked
  /\ contextText queryEmbedding docs =
     String.concat (String "010" (String "010" EmptyString))
       (map scored_content (firstn 4 ranked)).
Proof.
  intros Hnum ranked. subst ranked. unfold similarities.
  split; [ apply sort_permutation | ].
  split; [ apply sort_descending, Hnum | ].
  split; reflexivity.
Qed.

Lemma in_skipn {A : Type} (l : list A) :
  forall n x, In x (skipn n l) -> In x l.
Proof.
  induction l as [ | y l IH]; intros [ | n] x H; cbn in *; auto.
  right. eapply IH. exact H.
Qed.

(** In a descending ranking nothing behind the first [n] entries scores
    higher than one of them. *)
Lemma descending_firstn (l : list scored) (n : nat) :
  descending l ->
  forall a b, In a (firstn n l) -> In b (skipn n l) ->
    (similarity b <=? similarity a) = true.
Proof.
  unfold descending. intros Hs. revert n.
  induction Hs as [ | x l Hl IH Hx]; intros n a b Ha Hb.
  - destruct n; cbn in Ha; contradiction.
  - destruct n as [ | n]; cbn [firstn skipn] in Ha, Hb; [ contradiction | ].
    destruct Ha as [<- | Ha].
    + rewrite Forall_forall in Hx. apply Hx.
      apply (in_skipn _ n). exact Hb.
    + eapply IH; eassumption.
Qed.

(** *** The ranking does not depend on the sorting algorithm *)

Lemma insert_stable (x : scored) (l : list scored) (v : number) :
  numeric (x :: l) ->
  filter (tied v) (insert by_similarity x l) = filter (tied v) (x :: l).
Proof.
  unfold numeric. intros Hnum. apply Forall_cons_iff in Hnum as [Nx Hnum].
  induction l as [ | y l IH]; cbn [insert]; [ reflexivity | ].
  apply Forall_cons_iff in Hnum as [Ny Hnum].
  rewrite sorts_after_by_similarity by assumption.
  destruct (similarity x <? similarity y) eqn:Hlt; [ | reflexivity ].
  cbn [filter]. rewrite (IH Hnum). cbn [filter].
  destruct (tied v x) eqn:Hx, (tied v y) eqn:Hy; try reflexivity.
  destruct (Binary64.ltb_not_tied _ _ _ Hlt Hx Hy).
Qed.

Lemma sort_stable (l : list scored) (v : number) :
  numeric l -> filter (tied v) (sort by_similarity l) = filter (tied v) l.
Proof.
  induction l as [ | x l IH]; intros Hnum; [ reflexivity | ].
  change (sort by_similarity (x :: l)) with (insert by_similarity x (sort by_similarity l)).
  rewrite insert_stable.
  - cbn [filter]. apply Forall_cons_iff in Hnum as [_ Hnum]. rewrite (IH Hnum). reflexivity.
  - apply Forall_cons_iff in Hnum as [Nx Hnum]. constructor; [ exact Nx | ].
    apply (numeric_permutation l); [ apply Permutation_sym, sort_permutation | exact Hnum ].
Qed.

Lemma tied_self (x : scored) : is_nan (similarity x) = false -> tied (similarity x) x = true.
Proof. apply Binary64.eqb_refl. Qed.

Lemma filter_head_in {A : Type} (f : A -> bool) (l l' : list A) (x : A) :
  filter f l = x :: l' -> In x l.
Proof.
  intros H. assert (Hin : In x (filter f l)) by (rewrite H; left; reflexivity).
  apply filter_In in Hin. apply Hin.
Qed.

(** Two descending arrangements that agree on the order within every score
    are the same list. *)
Lemma descending_unique (l1 : list scored) :
  forall l2,
    numeric l1 -> numeric l2 -> descending l1 -> descending l2 ->
    (forall v, filter (tied v) l1 = filter (tied v) l2) ->
    l1 = l2.
Proof.
  unfold numeric, descending.
  induction l1 as [ | x l1 IH]; intros [ | y l2] N1 N2 D1 D2 Hf.
  - reflexivity.
  - apply Forall_cons_iff in N2 as [Ny _].
    specialize (Hf (similarity y)). cbn [filter] in Hf.
    rewrite (tied_self y Ny) in Hf. discriminate Hf.
  - apply Forall_cons_iff in N1 as [Nx _].
    specialize (Hf (similarity x)). cbn [filter] in Hf.
    rewrite (tied_self x Nx) in Hf. discriminate Hf.
  - apply Forall_cons_iff in N1 as [Nx N1]. apply Forall_cons_iff in N2 as [Ny N2].
    apply StronglySorted_inv in D1 as [D1 Hx]. apply StronglySorted_inv in D2 as [D2 Hy].
    assert (Hxy : x = y).
    { pose proof (Hf (similarity x)) as Hfx. cbn [filter] in Hfx.
      rewrite (tied_self x Nx) in Hfx.
      destruct (tied (similarity x) y) eqn:Hty; [ injection Hfx as Hfx _; exact Hfx | ].
      exfalso.
      assert (Hx2 : In x l2) by (eapply filter_head_in; symmetry; exact Hfx).
      pose proof (Hf (similarity y)) as Hfy. cbn [filter] in Hfy.
      rewrite (tied_self y Ny) in Hfy.
      assert (Htx : tied (similarity y) x = false).
      { unfold tied in *. rewrite Binary64.eqb_sym. exact Hty. }
      rewrite Htx in Hfy.
      assert (Hy1 : In y l1) by (eapply filter_head_in; exact Hfy).
      rewrite Forall_forall in Hx, Hy.
      pose proof (Hx y Hy1) as Hle1. pose proof (Hy x Hx2) as Hle2. cbn in Hle1, Hle2.
      pose proof (Binary64.leb_antisym _ _ Hle1 Hle2) as Heq.
      unfold tied in Hty. congruence. }
    subst y. f_equal. apply IH; trivial.
    intros v. specialize (Hf v). cbn [filter] in Hf.
    destruct (tied v x); [ injection Hf as Hf | ]; exact Hf.
Qed.

(** Every stable descending arrangement of numeric scores is the ranking the
    model computes: with a consistent comparator the engine's choice of
    sorting algorithm does not show. *)
Lemma ranking_unique (l l' : list scored) :
  numeric l -> stable_ranking l l' -> l' = sort by_similarity l.
Proof.
  intros Hnum (Hperm & Hdesc & Hstable).
  apply descending_unique.
  - apply (numeric_permutation l); [ apply Permutation_sym, Hperm | exact Hnum ].
  - apply (numeric_permutation l); [ apply Permutation_sym, sort_permutation | exact Hnum ].
  - exact Hdesc.
  - apply sort_descending, Hnum.
  - intros v. rewrite Hstable, sort_stable by exact Hnum. reflexivity.
Qed.

Lemma sort_is_stable_ranking (l : list scored) :
  numeric l -> stable_ranking l (sort by_similarity l).
Proof.
  intros Hnum. split; [ apply sort_permutation | ].
  split; [ apply sort_descending, Hnum | ].
  intros v. apply sort_stable, Hnum.
Qed.

Example sample_scores :
  map similarity (score sample_query sample_documents)
  = [cosineSimilarity [1; 0] [1; 1]; nan; 1].
Proof. reflexivity. Qed.

End CosineFacts.

(** ** Strings *)

Module Strings.
Local Open Scope string_scope.

Lemma append_nil_r (s : string) : s ++ "" = s.
Proof. induction s as [ | c s IH]; cbn; [ reflexivity | rewrite IH; reflexivity ]. Qed.

Lemma append_assoc (s t u : string) : (s ++ t) ++ u = s ++ (t ++ u).
Proof. induction s as [ | c s IH]; cbn; [ reflexivity | rewrite IH; reflexivity ]. Qed.

Lemma prefix_append (s t : string) : String.prefix s (s ++ t) = true.
Proof.
  induction s as [ | c s IH]; cbn.
  - destruct t; reflexivity.
  - destruct (ascii_dec c c) as [_ | Hne]; [ exact IH | contradiction ].
Qed.

End Strings.

(** ** Page text *)

Module PageFacts.
Import Js Html Page.
Local Open Scope string_scope.

(** *** Collapsing and trimming *)

Lemma replace_runs_true_trimmed (s : string) :
  trim_start (replace_runs true s) = replace_runs true s.
Proof.
  induction s as [ | c s IH]; cbn [replace_runs]; [ reflexivity | ].
  destruct (is_white_space c) eqn:Hc; [ exact IH | ].
  cbn [trim_start]. rewrite Hc. reflexivity.
Qed.

Lemma trim_start_collapse (s : string) :
  trim_start (collapse_white_space s) = replace_runs true s.
Proof.
  unfold collapse_white_space. destruct s as [ | c s]; cbn [replace_runs]; [ reflexivity | ].
  destruct (is_white_space c) eqn:Hc; cbn [trim_start].
  - change (is_white_space " ") with true. cbn iota. apply replace_runs_true_trimmed.
  - rewrite Hc. reflexivity.
Qed.

Lemma trim_end_solid (s : string) : solid_by is_white_space s = true -> trim_end s = s.
Proof.
  induction s as [ | c s IH]; cbn [solid_by trim_end]; [ reflexivity | ].
  intros H. apply andb_prop in H as [Hc Hs]. rewrite (IH Hs).
  destruct s; [ | reflexivity ].
  apply negb_true_iff in Hc. rewrite Hc. reflexivity.
Qed.

Lemma trim_end_append_blank (p x : string) :
  trim_end x = "" -> trim_end (p ++ x) = trim_end p.
Proof.
  intros Hx. induction p as [ | c p IH]; cbn [append trim_end].
  - exact Hx.
  - rewrite IH. reflexivity.
Qed.

Lemma trim_end_append (p x : string) :
  trim_end x <> "" -> trim_end (p ++ x) = p ++ trim_end x.
Proof.
  intros Hx. induction p as [ | c p IH]; cbn [append trim_end].
  - reflexivity.
  - rewrite IH. destruct (p ++ trim_end x) eqn:E; [ | reflexivity ].
    destruct p; cbn in E; [ contradiction | discriminate ].
Qed.

Lemma trim_end_starts_solid (c : ascii) (x : string) :
  is_white_space c = false -> trim_end (String c x) <> "".
Proof.
  intros Hc. cbn [trim_end]. destruct (trim_end x); [ rewrite Hc | ]; discriminate.
Qed.

Lemma solid_append (s t : string) :
  solid_by is_white_space (s ++ t)
  = (solid_by is_white_space s && solid_by is_white_space t)%bool.
Proof.
  induction s as [ | c s IH]; cbn [append solid_by]; [ reflexivity | ].
  rewrite IH, andb_assoc. reflexivity.
Qed.

Lemma words_from_nonempty (s : string) :
  forall cur, cur <> "" -> words_by is_white_space cur s <> [].
Proof.
  induction s as [ | c s IH]; intros cur Hcur; cbn [words_by].
  - destruct cur; [ contradiction | discriminate ].
  - destruct (is_white_space c).
    + destruct cur; [ contradiction | discriminate ].
    + apply IH. destruct cur; discriminate.
Qed.

Lemma concat_cons (sep w : string) (l : list string) :
  l <> [] -> String.concat sep (w :: l) = w ++ sep ++ String.concat sep l.
Proof. destruct l; [ contradiction | reflexivity ]. Qed.

(** The scanner in its three states: inside a word [cur], behind a word with
    the separating space written, and before the first word. *)
Lemma trim_end_replace_runs (s : string) :
  (forall cur, cur <> "" -> solid_by is_white_space cur = true ->
     trim_end (cur ++ replace_runs false s)
     = String.concat " " (words_by is_white_space cur s))
  /\ (forall cur, cur <> "" -> solid_by is_white_space cur = true ->
        trim_end (cur ++ " " ++ replace_runs true s)
        = String.concat " " (cur :: words_by is_white_space "" s))
  /\ trim_end (replace_runs true s) = String.concat " " (words_by is_white_space "" s).
Proof.
  induction s as [ | c s (IH1 & IH2 & IH3)].
  - split; [ | split ].
    + intros cur Hne Hs. cbn [replace_runs words_by].
      rewrite Strings.append_nil_r, trim_end_solid by exact Hs.
      destruct cur; [ contradiction | reflexivity ].
    + intros cur Hne Hs. cbn [replace_runs words_by].
      rewrite trim_end_append_blank by reflexivity. apply trim_end_solid, Hs.
    + reflexivity.
  - cbn [replace_runs words_by]. destruct (is_white_space c) eqn:Hc.
    + split; [ | split ].
      * intros cur Hne Hs. rewrite IH2 by assumption.
        destruct cur; [ contradiction | reflexivity ].
      * exact IH2.
      * exact IH3.
    + assert (Hone : solid_by is_white_space (String c "") = true)
        by (cbn; rewrite Hc; reflexivity).
      split; [ | split ].
      * intros cur Hne Hs.
        change (String c (replace_runs false s)) with (String c "" ++ replace_runs false s).
        rewrite <- Strings.append_assoc. apply IH1.
        -- destruct cur; discriminate.
        -- rewrite solid_append, Hs, Hone. reflexivity.
      * intros cur Hne Hs. cbn [append].
        change (String c "") with ("" ++ String c "").
        assert (Hw : trim_end (String c (replace_runs false s))
                     = String.concat " " (words_by is_white_space (String c "") s)).
        { apply (IH1 (String c "")); [ discriminate | exact Hone ]. }
        rewrite concat_cons by (apply words_from_nonempty; discriminate).
        cbn [append]. rewrite <- Hw.
        change (String " " (String c (replace_runs false s)))
          with (" " ++ String c (replace_runs false s)).
        rewrite <- Strings.append_assoc, trim_end_append
          by (apply trim_end_starts_solid, Hc).
        apply Strings.append_assoc.
      * apply (IH1 (String c "")); [ discriminate | exact Hone ].
Qed.

(** Collapsing the runs and trimming leaves the words, one space apart. *)
Lemma trim_collapse_words (s : string) :
  trim (collapse_white_space s) = String.concat " " (words_by is_white_space "" s).
Proof.
  unfold trim. rewrite trim_start_collapse. apply trim_end_replace_runs.
Qed.

(** *** What is left of the white space *)

Lemma trim_start_starts (s : string) : starts_by is_white_space (trim_start s) = false.
Proof.
  induction s as [ | c s IH]; cbn [trim_start]; [ reflexivity | ].
  destruct (is_white_space c) eqn:Hc; [ exact IH | exact Hc ].
Qed.

Lemma trim_end_starts (s : string) :
  starts_by is_white_space s = false -> starts_by is_white_space (trim_end s) = false.
Proof.
  destruct s as [ | c s]; cbn [trim_end starts_by]; [ reflexivity | ].
  intros Hc. destruct (trim_end s); [ rewrite Hc | ]; cbn; auto.
Qed.

Lemma trim_end_ends (s : string) : ends_by is_white_space (trim_end s) = false.
Proof.
  induction s as [ | c s IH]; cbn [trim_end]; [ reflexivity | ].
  destruct (trim_end s) as [ | c' r].
  - destruct (is_white_space c) eqn:Hc; cbn; auto.
  - exact IH.
Qed.

Lemma replace_runs_adjacent (s : string) :
  forall in_run,
    adjacent_by is_white_space (replace_runs in_run s) = false
    /\ (in_run = true -> starts_by is_white_space (replace_runs in_run s) = false).
Proof.
  induction s as [ | c s IH]; intros in_run; cbn [replace_runs].
  - split; reflexivity.
  - destruct (is_white_space c) eqn:Hc.
    + destruct in_run; [ apply IH | ].
      destruct (IH true) as [Ha Hs]. split; [ | discriminate ].
      cbn [adjacent_by]. rewrite Ha, (Hs eq_refl), andb_false_r. reflexivity.
    + destruct (IH false) as [Ha _]. split.
      * cbn [adjacent_by]. rewrite Hc, Ha. reflexivity.
      * intros _. exact Hc.
Qed.

Lemma trim_start_adjacent (s : string) :
  adjacent_by is_white_space s = false -> adjacent_by is_white_space (trim_start s) = false.
Proof.
  induction s as [ | c s IH]; cbn [trim_start]; [ reflexivity | ].
  intros H. destruct (is_white_space c); [ | exact H ].
  apply IH. cbn [adjacent_by] in H. apply orb_false_iff in H. apply H.
Qed.

Lemma trim_end_adjacent (s : string) :
  adjacent_by is_white_space s = false -> adjacent_by is_white_space (trim_end s) = false.
Proof.
  induction s as [ | c s IH]; cbn [trim_end]; [ reflexivity | ].
  intros H. cbn [adjacent_by] in H. apply orb_false_iff in H as [Hc Hs].
  specialize (IH Hs).
  destruct (trim_end s) as [ | c' r] eqn:E.
  - destruct (is_white_space c) eqn:Hw; [ reflexivity | cbn; rewrite Hw; reflexivity ].
  - cbn [adjacent_by] in *. rewrite IH, orb_false_r.
    destruct (is_white_space c); [ | reflexivity ].
    cbn in Hc. pose proof (trim_end_starts s Hc) as Hst. rewrite E in Hst. exact Hst.
Qed.

(** *** Removing, selecting and reading the tree *)

Lemma text_app (l1 l2 : list node) : text (l1 ++ l2) = text l1 ++ text l2.
Proof.
  induction l1 as [ | n l1 IH]; cbn; [ reflexivity | ].
  unfold text in *. rewrite IH. symmetry. apply Strings.append_assoc.
Qed.

Lemma matches_skipped (name : string) (children : list node) :
  matches non_content (Element name children) = skipped name.
Proof.
  unfold matches, non_content, skipped. cbn [existsb].
  rewrite orb_false_r, !orb_assoc. reflexivity.
Qed.

Lemma matched_visible (n : node) : matches non_content n = true -> visible n = "".
Proof.
  destruct n; intros H; try discriminate.
  rewrite matches_skipped in H. cbn [visible]. rewrite H. reflexivity.
Qed.

Lemma matched_body_text (n : node) : matches non_content n = true -> body_text n = "".
Proof.
  destruct n; intros H; try discriminate.
  rewrite matches_skipped in H. cbn [body_text]. rewrite H. reflexivity.
Qed.

Lemma remove_node_visible (n : node) :
  matches non_content n = false -> text_of (remove_node non_content n) = visible n.
Proof.
  induction n as [data | data | name children IH] using node_induction;
    intros Hm; try reflexivity.
  rewrite matches_skipped in Hm. cbn [remove_node text_of visible]. rewrite Hm.
  clear Hm. induction IH as [ | c l Hc _ IHl]; cbn [flat_map fold_right]; [ reflexivity | ].
  destruct (matches non_content c) eqn:Hmc.
  - rewrite (matched_visible c Hmc). cbn [app append]. exact IHl.
  - cbn [app fold_right]. rewrite (Hc eq_refl), IHl. reflexivity.
Qed.

Lemma remove_node_body_text (n : node) :
  matches non_content n = false ->
  text (select_node "body" (remove_node non_content n)) = body_text n.
Proof.
  induction n as [data | data | name children IH] using node_induction;
    intros Hm; try reflexivity.
  pose proof (remove_node_visible (Element name children) Hm) as Hv.
  rewrite matches_skipped in Hm. cbn [remove_node select_node body_text] in *. rewrite Hm.
  rewrite text_app. f_equal.
  - destruct (String.eqb name "body"); [ | reflexivity ].
    cbn [text fold_right]. rewrite Strings.append_nil_r. exact Hv.
  - clear Hm Hv. induction IH as [ | c l Hc _ IHl]; cbn [flat_map fold_right]; [ reflexivity | ].
    destruct (matches non_content c) eqn:Hmc.
    + rewrite (matched_body_text c Hmc). cbn [app append]. exact IHl.
    + cbn [app flat_map]. rewrite ?app_nil_r, text_app, (Hc eq_refl), IHl. reflexivity.
Qed.

(** Removing the non-content elements and reading the [body] elements that
    are left gives the visible text of the bodies of the page. *)
Lemma select_remove_text (d : document) :
  text (select "body" (remove non_content d)) = main_text d.
Proof.
  unfold select, remove, main_text.
  induction d as [ | c d IH]; cbn [flat_map fold_right]; [ reflexivity | ].
  destruct (matches non_content c) eqn:Hmc.
  - rewrite (matched_body_text c Hmc). cbn [app append]. exact IH.
  - cbn [app flat_map]. rewrite ?app_nil_r, text_app, (remove_node_body_text c Hmc), IH.
    reflexivity.
Qed.

(** *** The white space and the words of the specification *)

Lemma is_white_space_blank (c : ascii) : is_white_space c = blank c.
Proof. destruct c as [[] [] [] [] [] [] [] []]; reflexivity. Qed.

Section Agreement.
Context (p q : ascii -> bool) (Hpq : forall c, p c = q c).

Lemma words_by_agree (s : string) : forall cur, words_by p cur s = words_by q cur s.
Proof.
  induction s as [ | c s IH]; intros cur; cbn [words_by]; [ reflexivity | ].
  rewrite Hpq, !IH. reflexivity.
Qed.

Lemma starts_by_agree (s : string) : starts_by p s = starts_by q s.
Proof. destruct s; cbn [starts_by]; [ reflexivity | apply Hpq ]. Qed.

Lemma ends_by_agree (s : string) : ends_by p s = ends_by q s.
Proof.
  induction s as [ | c s IH]; cbn [ends_by]; [ reflexivity | ].
  rewrite Hpq, IH. reflexivity.
Qed.

Lemma adjacent_by_agree (s : string) : adjacent_by p s = adjacent_by q s.
Proof.
  induction s as [ | c s IH]; cbn [adjacent_by]; [ reflexivity | ].
  rewrite Hpq, IH, starts_by_agree. reflexivity.
Qed.

End Agreement.

(** C6.  [extractMainContent] returns the text of the page body with the
    [script], [style], [head], [nav], [footer], [iframe] and [img] elements
    left out, as its words one space apart: no white space leads or trails,
    and no two white-space characters are side by side.  The elements left
    out and the characters that count as white space are those the
    specification names, in [skipped] and [white_space]. *)
Theorem extractMainContent_normalized (load : string -> document) (html : string) :
  let result := extractMainContent load html in
  result = String.concat " " (words (main_text (load html)))
  /\ starts_with_white_space result = false
  /\ ends_with_white_space result = false
  /\ adjacent_white_space result = false.
Proof.
  cbv zeta. unfold words, starts_with_white_space, ends_with_white_space,
    adjacent_white_space.
  rewrite <- (words_by_agree _ _ is_white_space_blank),
    <- (starts_by_agree _ _ is_white_space_blank),
    <- (ends_by_agree _ _ is_white_space_blank),
    <- (adjacent_by_agree _ _ is_white_space_blank).
  unfold extractMainContent. split; [ | split; [ | split ] ].
  - rewrite trim_collapse_words, select_remove_text. reflexivity.
  - unfold trim. apply trim_end_starts, trim_start_starts.
  - unfold trim. apply trim_end_ends.
  - unfold trim. apply trim_end_adjacent, trim_start_adjacent.
    apply (replace_runs_adjacent _ false).
Qed.

(** A page with every kind of skipped element: what is left is the text
    beside them, its words one space apart. *)
Lemma extractMainContent_normalized_witness :
  extractMainContent (fun _ => busy_page) "<html>" = "Hello big world"
  /\ main_text busy_page
     = String "010" "  Hello " ++ String "009" "big" ++ String "160" ""
       ++ String "013" (String "010" "world ").
Proof.
  destruct (extractMainContent_normalized (fun _ => busy_page) "<html>") as (H & _).
  split; [ exact H | reflexivity ].
Defined.

Example extractMainContent_sample :
  extractMainContent (fun _ => sample_page) "<html>" = "Hello big world".
Proof. reflexivity. Qed.

Example collapse_then_trim :
  trim (collapse_white_space (String "010" "  a" ++ String "009" (String "160" "b  ")))
  = "a b".
Proof. reflexivity. Qed.

End PageFacts.

(** ** Runs of the handler *)

Module RunFacts.
Import Js Pipeline Run.
Local Open Scope string_scope.

(** *** Sequencing *)

Lemma bind_ok {A B : Type} (c : M A) (k : A -> M B) (w w' : world) (b : B) :
  bind c k w = (Ok b, w') ->
  exists a w1, c w = (Ok a, w1) /\ k a w1 = (Ok b, w').
Proof.
  unfold bind. destruct (c w) as [[a | e] w1]; intros H; [ | discriminate ].
  exists a, w1. split; [ reflexivity | exact H ].
Qed.

Lemma lift_ok {A : Type} (r : result A) (w w' : world) (a : A) :
  lift r w = (Ok a, w') -> r = Ok a /\ w' = w.
Proof. unfold lift. intros H. injection H as -> ->. split; reflexivity. Qed.

Lemma ret_ok {A : Type} (a a' : A) (w w' : world) :
  ret a w = (Ok a', w') -> a' = a /\ w' = w.
Proof. unfold ret. intros H. injection H as -> ->. split; reflexivity. Qed.

Lemma try_catch_rethrow {A : Type} (c : M A) (w : world) :
  try_catch c (fun e => throw e) w = c w.
Proof. unfold try_catch, throw. destruct (c w) as [[a | e] w1]; reflexivity. Qed.

(** Takes a successful run of a sequence apart, step by step. *)
Tactic Notation "step" hyp(H) "as" simple_intropattern(a) simple_intropattern(w)
  simple_intropattern(Hc) :=
  apply bind_ok in H as (a & w & Hc & H).

(** *** Supabase *)

Lemma sendPayload_run (env : services) (p : payload) (w : world) :
  sendPayload env p w =
  match supabase_fails env (supabase_calls w) with
  | Some e => (Throw e, served w (message_history w) (next_id w) [])
  | None =>
      (Ok (next_id w),
       served w (message_history w ++ [(next_id w, p)]) (next_id w + 1)%Z
         [Inserted (next_id w) p])
  end.
Proof.
  unfold sendPayload. rewrite try_catch_rethrow. unfold bind, insert_row.
  destruct (supabase_fails env (supabase_calls w)); reflexivity.
Qed.

Lemma sendPayload_ok (env : services) (p : payload) (w w' : world) (id : Z) :
  sendPayload env p w = (Ok id, w') ->
  id = next_id w
  /\ w' = served w (message_history w ++ [(id, p)]) (id + 1)%Z [Inserted id p].
Proof.
  rewrite sendPayload_run. destruct (supabase_fails env (supabase_calls w)); intros H.
  - discriminate.
  - injection H as <- <-. split; reflexivity.
Qed.

Lemma createRow_run (env : services) (w : world) :
  createRowForGPTResponse env w =
  match supabase_fails env (supabase_calls w) with
  | Some e => (Throw e, served w (message_history w) (next_id w) [])
  | None =>
      (Ok (Some (next_id w)),
       served w (message_history w ++ [(next_id w, answer "")]) (next_id w + 1)%Z
         [Inserted (next_id w) (answer "")])
  end.
Proof.
  unfold createRowForGPTResponse, bind, insert_row.
  destruct (supabase_fails env (supabase_calls w)); reflexivity.
Qed.

Lemma createRow_ok (env : services) (w w' : world) (rowId : option Z) :
  createRowForGPTResponse env w = (Ok rowId, w') ->
  rowId = Some (next_id w)
  /\ w' = served w (message_history w ++ [(next_id w, answer "")]) (next_id w + 1)%Z
            [Inserted (next_id w) (answer "")].
Proof.
  rewrite createRow_run. destruct (supabase_fails env (supabase_calls w)); intros H.
  - discriminate.
  - injection H as <- <-. split; reflexivity.
Qed.

Lemma update_run (env : services) (rowId : Z) (text : string) (w : world) :
  rowId <> 0%Z ->
  updateRowWithGPTResponse env (Some rowId) text w =
  match supabase_fails env (supabase_calls w) with
  | Some e => (Throw e, served w (message_history w) (next_id w) [])
  | None =>
      let w' := served w (replaced rowId (answer text) (message_history w)) (next_id w)
                  [Updated rowId (answer text)] in
      match filter (fun r => (fst r =? rowId)%Z) (message_history w) with
      | r :: _ => (Ok (Some (fst r)), w')
      | [] => (Throw "TypeError: Cannot read properties of undefined (reading 'id')", w')
      end
  end.
Proof.
  intros Hid. unfold updateRowWithGPTResponse, falsy.
  apply Z.eqb_neq in Hid. rewrite Hid. rewrite try_catch_rethrow.
  unfold bind, update_row.
  destruct (supabase_fails env (supabase_calls w)); [ reflexivity | ].
  cbn [error data]. cbv zeta.
  destruct (filter (fun r => (fst r =? rowId)%Z) (message_history w)); reflexivity.
Qed.

Lemma find_replaced (rowId : Z) (p : payload) (rows : list (Z * payload)) :
  find (fun r => (fst r =? rowId)%Z) (replaced rowId p rows)
  = option_map (fun r => (fst r, p)) (find (fun r => (fst r =? rowId)%Z) rows).
Proof.
  induction rows as [ | r rows IH]; cbn [replaced map find]; [ reflexivity | ].
  destruct (fst r =? rowId)%Z eqn:E; cbn [fst]; rewrite E; [ reflexivity | exact IH ].
Qed.

Lemma filter_find {A : Type} (f : A -> bool) (l : list A) (x : A) (rest : list A) :
  filter f l = x :: rest -> find f l = Some x.
Proof.
  induction l as [ | y l IH]; cbn [filter find]; [ discriminate | ].
  destruct (f y); [ intros H; injection H as -> _; reflexivity | exact IH ].
Qed.

Lemma update_ok (env : services) (rowId : Z) (text : string) (w w' : world) (r : option Z) :
  rowId <> 0%Z ->
  updateRowWithGPTResponse env (Some rowId) text w = (Ok r, w') ->
  stored w' rowId = Some (answer text)
  /\ trace w' = (trace w ++ [Updated rowId (answer text)])%list
  /\ next_id w' = next_id w.
Proof.
  intros Hid. rewrite update_run by exact Hid.
  destruct (supabase_fails env (supabase_calls w)); [ discriminate | ]. cbv zeta.
  destruct (filter _ (message_history w)) as [ | r0 rest] eqn:Hf; [ discriminate | ].
  intros H. injection H as _ <-.
  split; [ | split; reflexivity ].
  unfold stored, served. cbn [message_history].
  rewrite find_replaced, (filter_find _ _ _ _ Hf). reflexivity.
Qed.

(** An update leaves the state alone when the identifier is falsy. *)
Lemma update_falsy (env : services) (rowId : option Z) (text : string) (w : world) :
  falsy rowId = true -> updateRowWithGPTResponse env rowId text w = (Ok None, w).
Proof.
  unfold updateRowWithGPTResponse. destruct rowId as [id | ]; [ | reflexivity ].
  intros ->. reflexivity.
Qed.

(** *** The loop over the stream *)

Lemma total_app (ds ds' : list string) : total (ds ++ ds') = total ds ++ total ds'.
Proof.
  induction ds as [ | d ds IH]; cbn; [ reflexivity | ].
  unfold total in IH. rewrite IH. symmetry. apply Strings.append_assoc.
Qed.

Lemma deltas_app (p s : list chunk) : deltas (p ++ s) = (deltas p ++ deltas s)%list.
Proof. apply flat_map_app. Qed.

(** The loop over a stream is the loop over a first part of it, followed by
    the loop over the rest with what has been accumulated. *)
Lemma consume_app (env : services) (rowId : option Z) (p s : list chunk) :
  forall text w,
    consume env rowId (p ++ s) text w =
    match consume env rowId p text w with
    | (Ok _, w1) => consume env rowId s (text ++ total (deltas p)) w1
    | (Throw e, w1) => (Throw e, w1)
    end.
Proof.
  induction p as [ | c p IH]; intros text w.
  - cbn. rewrite Strings.append_nil_r. reflexivity.
  - destruct c as [[d | ] | e]; cbn [app consume].
    + unfold deltas. cbn [flat_map delta]. destruct (truthy d) eqn:Hd.
      * unfold bind.
        destruct (updateRowWithGPTResponse env rowId (text ++ d) w) as [[r | e] w1];
          [ | reflexivity ].
        rewrite IH. cbn [app]. fold (deltas p).
        change (total (d :: deltas p)) with (d ++ total (deltas p)).
        rewrite Strings.append_assoc. reflexivity.
      * rewrite IH. reflexivity.
    + rewrite IH. reflexivity.
    + reflexivity.
Qed.

Lemma consume_stored (env : services) (id : Z) (p : list chunk) :
  id <> 0%Z ->
  forall text w w1,
    consume env (Some id) p text w = (Ok tt, w1) ->
    stored w id = Some (answer text) ->
    stored w1 id = Some (answer (text ++ total (deltas p))).
Proof.
  intros Hid. induction p as [ | c p IH]; intros text w w1 Hrun Hst.
  - cbn in Hrun. injection Hrun as <-. cbn. rewrite Strings.append_nil_r. exact Hst.
  - destruct c as [[d | ] | e]; cbn [consume] in Hrun.
    + unfold deltas. cbn [flat_map delta]. destruct (truthy d) eqn:Hd.
      * step Hrun as r w2 Hc. apply update_ok in Hc as (Hst' & _); [ | exact Hid ].
        cbn [app]. fold (deltas p).
        change (total (d :: deltas p)) with (d ++ total (deltas p)).
        rewrite <- Strings.append_assoc. eapply IH; eassumption.
      * eapply IH; eassumption.
    + eapply IH; eassumption.
    + discriminate.
Qed.

Lemma consume_trace (env : services) (id : Z) (p : list chunk) :
  forall text w w1,
    consume env (Some id) p text w = (Ok tt, w1) ->
    next_id w1 = next_id w
    /\ exists texts,
         trace w1 = (trace w ++ map (fun t => Updated id (answer t)) texts)%list.
Proof.
  induction p as [ | c p IH]; intros text w w1 Hrun.
  - cbn in Hrun. injection Hrun as <-. split; [ reflexivity | ].
    exists []. cbn. rewrite app_nil_r. reflexivity.
  - destruct c as [[d | ] | e]; cbn [consume] in Hrun; try (eapply IH; eassumption);
      [ | discriminate ].
    destruct (truthy d); [ | eapply IH; eassumption ].
    step Hrun as r w2 Hc. apply IH in Hrun as (Hn & texts & Ht).
    destruct (Z.eq_dec id 0) as [-> | Hid].
    + rewrite update_falsy in Hc by reflexivity. injection Hc as _ <-.
      split; [ exact Hn | exists texts; exact Ht ].
    + apply update_ok in Hc as (_ & Ht' & Hn'); [ | exact Hid ].
      split; [ congruence | ].
      exists ((text ++ d) :: texts). rewrite Ht, Ht', <- app_assoc. reflexivity.
Qed.

(** *** The answer streamer *)

Lemma log_run (e : event) (w : world) : log e w = (Ok tt, logged w e).
Proof. reflexivity. Qed.

Lemma open_stream_ok (env : services) (model system user : string) (w w' : world)
  (stream : list chunk) :
  open_stream env model system user w = (Ok stream, w') ->
  openai_stream env model system user = Ok stream
  /\ w' = logged w (StreamOpened model system user).
Proof.
  unfold open_stream, bind. rewrite log_run. intros H. apply lift_ok in H. exact H.
Qed.

Lemma complete_ok (env : services) (model system user : string) (w w' : world)
  (reply : string) :
  complete env model system user w = (Ok reply, w') ->
  openai_chat env model system user = Ok reply
  /\ w' = logged w (Completed model system user).
Proof.
  unfold complete, bind. rewrite log_run. intros H. apply lift_ok in H. exact H.
Qed.

Lemma find_app_none {A : Type} (f : A -> bool) (l l' : list A) :
  (forall x, In x l -> f x = false) -> find f (l ++ l') = find f l'.
Proof.
  induction l as [ | y l IH]; intros H; cbn [app find]; [ reflexivity | ].
  rewrite (H y) by (left; reflexivity). apply IH. intros x Hx. apply H. right. exact Hx.
Qed.

(** The state in which the loop starts. *)
Lemma getGPTResults_ok (env : services) (input : string) (w w' : world) :
  getGPTResults env input w = (Ok tt, w') ->
  exists stream w0,
    openai_stream env "gpt-4o" answer_system input = Ok stream
    /\ trace w0 = (trace w ++ [StreamOpened "gpt-4o" answer_system input;
                               Inserted (next_id w) (answer "");
                               Inserted (next_id w + 1) heading])%list
    /\ message_history w0 =
       (message_history w ++ [(next_id w, answer ""); ((next_id w + 1)%Z, heading)])%list
    /\ next_id w0 = (next_id w + 2)%Z
    /\ consume env (Some (next_id w)) stream "" w0 = (Ok tt, w').
Proof.
  unfold getGPTResults. intros H. cbv zeta in H.
  step H as stream w1 Hc1. apply open_stream_ok in Hc1 as (Hs & ->).
  step H as rowId w2 Hc2. apply createRow_ok in Hc2 as (-> & ->).
  step H as hid w3 Hc3. apply sendPayload_ok in Hc3 as (-> & ->).
  match type of H with consume _ _ _ _ ?w0 = _ => exists stream, w0 end.
  split; [ exact Hs | ].
  split; [ | split; [ | split; [ | exact H ] ] ];
    cbn [trace message_history next_id served logged];
    rewrite <- ?app_assoc; cbn [app]; try reflexivity; lia.
Qed.

(** C3.  When the stream opens and the row of the answer and the heading are
    written, [getGPTResults] is the loop over the stream, started on a row
    with empty content.  Whenever the loop has processed a first part [p] of
    the stream, the row holds the concatenation of the delta contents of [p]:
    each persisted value extends the earlier ones, and after the whole stream
    the row holds the concatenation of all deltas in stream order. *)
Theorem getGPTResults_persists (env : services) (input : string) (stream : list chunk)
  (w : world) :
  next_id w <> 0%Z ->
  unused_next_id w ->
  openai_stream env "gpt-4o" answer_system input = Ok stream ->
  supabase_fails env (supabase_calls w) = None ->
  supabase_fails env (S (supabase_calls w)) = None ->
  let id := next_id w in
  exists w0,
    getGPTResults env input w = consume env (Some id) stream "" w0
    /\ stored w0 id = Some (answer "")
    /\ forall p s w1,
         stream = (p ++ s)%list ->
         consume env (Some id) p "" w0 = (Ok tt, w1) ->
         stored w1 id = Some (answer (total (deltas p)))
         /\ consume env (Some id) stream "" w0
            = consume env (Some id) s (total (deltas p)) w1
         /\ forall q r, s = (q ++ r)%list ->
              String.prefix (total (deltas p)) (total (deltas (p ++ q))) = true.
Proof.
  intros Hid Hfresh Hstream Hs1 Hs2 id. subst id.
  exists (served
            (served (logged w (StreamOpened "gpt-4o" answer_system input))
               (message_history w ++ [(next_id w, answer "")]) (next_id w + 1)
               [Inserted (next_id w) (answer "")])
            ((message_history w ++ [(next_id w, answer "")])
             ++ [((next_id w + 1)%Z, heading)])
            (next_id w + 1 + 1) [Inserted (next_id w + 1)%Z heading]).
  split; [ | split ].
  - unfold getGPTResults, open_stream, bind. rewrite log_run. unfold lift.
    rewrite Hstream, createRow_run. cbn [supabase_calls logged]. rewrite Hs1.
    rewrite sendPayload_run. cbn [supabase_calls served logged next_id message_history].
    rewrite Hs2. reflexivity.
  - unfold stored. cbn [message_history served]. rewrite <- app_assoc, find_app_none.
    + cbn [find fst app]. rewrite Z.eqb_refl. reflexivity.
    + intros r Hr. apply Z.eqb_neq. apply Hfresh. exact Hr.
  - intros p s w1 -> Hp.
    split; [ | split ].
    + apply (consume_stored env _ p Hid "" _ w1 Hp).
      unfold stored. cbn [message_history served]. rewrite <- app_assoc, find_app_none.
      * cbn [find fst app]. rewrite Z.eqb_refl. reflexivity.
      * intros r Hr. apply Z.eqb_neq. apply Hfresh. exact Hr.
    + rewrite consume_app, Hp. reflexivity.
    + intros q r _. rewrite deltas_app, total_app. apply Strings.prefix_append.
Qed.

Lemma getGPTResults_persists_witness :
  stored (snd (getGPTResults sample_services "q" fresh)) 1 = Some (answer "Hello").
Proof.
  destruct (getGPTResults_persists sample_services "q" sample_stream fresh)
    as (w0 & Hrun & _ & Hall).
  - discriminate.
  - intros r Hr. destruct Hr.
  - reflexivity.
  - reflexivity.
  - reflexivity.
  - destruct (Hall sample_stream [] (snd (getGPTResults sample_services "q" fresh)))
      as (Hst & _).
    + reflexivity.
    + rewrite <- Hrun. reflexivity.
    + exact Hst.
Defined.

(** The guard [!rowId] is what the first hypothesis is about: were the row
    given the identifier 0, no update would reach it. *)
Example answer_not_persisted_under_zero :
  fst (getGPTResults sample_services "q" from_zero) = Ok tt
  /\ stored (snd (getGPTResults sample_services "q" from_zero)) 0 = Some (answer "").
Proof. split; reflexivity. Qed.

(** A stream that breaks leaves the concatenation of what came before. *)
Example answer_of_broken_stream :
  fst (getGPTResults broken_stream_services "q" fresh) = Throw "socket hang up"
  /\ stored (snd (getGPTResults broken_stream_services "q" fresh)) 1 = Some (answer "Hel").
Proof. split; reflexivity. Qed.

(** *** The fan-out over the search results *)

Lemma counting_same (w : world) : counting (vectorCount w) w = w.
Proof. destruct w; reflexivity. Qed.

Lemma counting_counting (n m : nat) (w : world) : counting n (counting m w) = counting n w.
Proof. reflexivity. Qed.

Lemma set_vectorCount_run (f : nat -> nat) (w : world) :
  set_vectorCount f w = (Ok tt, counting (f (vectorCount w)) w).
Proof. reflexivity. Qed.

(** The [try] block reads the state nowhere and writes [vectorCount] only. *)
Lemma process_run (env : services) (message : string) (item : source) (w : world) :
  exists n,
    process env message item w
    = (fst (process env message item fresh), counting n w).
Proof.
  unfold process, bind, lift.
  destruct (race 5000 (fetchPageContent env (link item))) as [html | e]; cbn [fst];
    [ | exists (vectorCount w); rewrite counting_same; reflexivity ].
  destruct (String.length html <? 250)%nat;
    [ exists (vectorCount w); rewrite counting_same; reflexivity | ].
  destruct (splitText env html) as [chunks | e]; cbn [fst];
    [ | exists (vectorCount w); rewrite counting_same; reflexivity ].
  destruct (fromTexts env chunks (link item)) as [store | e]; cbn [fst];
    [ | exists (vectorCount w); rewrite counting_same; reflexivity ].
  rewrite !set_vectorCount_run.
  destruct (similaritySearch env store message) as [docs | e]; cbn [fst];
    exists (S (vectorCount w)); reflexivity.
Qed.

Lemma fetchAndProcess_unfold (env : services) (message : string) (item : source) :
  fetchAndProcess env message item
  = try_catch (process env message item) (fun e => set_vectorCount S ;; ret None).
Proof. reflexivity. Qed.

Lemma fetchAndProcess_run (env : services) (message : string) (item : source) (w : world) :
  exists n,
    fetchAndProcess env message item w = (Ok (yield env message item), counting n w).
Proof.
  rewrite fetchAndProcess_unfold. unfold try_catch, yield.
  destruct (process_run env message item w) as (n & ->).
  destruct (fst (process env message item fresh)) as [r | e].
  - exists n. reflexivity.
  - exists (S n). reflexivity.
Qed.

Lemma all_fetchAndProcess (env : services) (message : string) (items : list source) :
  forall w, exists n,
    all (map (fetchAndProcess env message) items) w
    = (Ok (map (yield env message) items), counting n w).
Proof.
  induction items as [ | item items IH]; intros w; cbn [map all].
  - exists (vectorCount w). rewrite counting_same. reflexivity.
  - unfold bind. destruct (fetchAndProcess_run env message item w) as (n & ->).
    destruct (IH (counting n w)) as (m & ->).
    exists m. reflexivity.
Qed.

Lemma yield_timeout (env : services) (message : string) (item : source) :
  (5000 <= elapsed (fetch env (link item)))%Z -> yield env message item = None.
Proof.
  intros H. unfold yield, process, bind, lift, race, fetchPageContent. cbn [elapsed].
  apply Z.ltb_ge in H. rewrite H. reflexivity.
Qed.

Lemma yield_fetch_throws (env : services) (message : string) (item : source) (e : exception) :
  outcome (fetch env (link item)) = Throw e -> yield env message item = None.
Proof.
  intros H. unfold yield, process, bind, lift, race, fetchPageContent. cbn [elapsed outcome].
  rewrite H. destruct (_ <? _)%Z; reflexivity.
Qed.

Lemma yield_short (env : services) (message : string) (item : source) (html : string) :
  race 5000 (fetchPageContent env (link item)) = Ok html ->
  (String.length html < 250)%nat ->
  yield env message item = None.
Proof.
  intros H Hlen. unfold yield, process, bind, lift. rewrite H.
  apply Nat.ltb_lt in Hlen. rewrite Hlen. reflexivity.
Qed.

Lemma fan_out_results (env : services) (message : string) (items : list source) :
  Forall2 (fun item r => forall w, fst (fetchAndProcess env message item w) = Ok r)
    items (map (yield env message) items).
Proof.
  induction items as [ | item items IH]; cbn [map]; constructor; [ | exact IH ].
  intros w. destruct (fetchAndProcess_run env message item w) as (n & ->). reflexivity.
Qed.

(** Leaving the times out of the timed [fetchAndProcess] gives
    [fetchAndProcess]. *)
Lemma timed_fetchAndProcess (env : services) (lat : Timing.latency) (message : string)
  (item : source) (w : world) :
  fst (Timing.fetchAndProcess env lat message item w) = fetchAndProcess env message item w.
Proof.
  unfold Timing.fetchAndProcess, fetchAndProcess, Timing.try_catch, try_catch, Timing.bind,
    bind, Timing.race, Timing.after, Timing.at_once, lift.
  destruct (race 5000 (fetchPageContent env (link item))) as [html | e]; [ | reflexivity ].
  destruct (String.length html <? 250)%nat; [ reflexivity | ].
  destruct (splitText env html) as [chunks | e]; [ | reflexivity ].
  destruct (fromTexts env chunks (link item)) as [store | e]; [ | reflexivity ].
  cbn [set_vectorCount].
  destruct (similaritySearch env store message) as [docs | e]; reflexivity.
Qed.

(** C4, as amended.  [fetchAndProcess] never rejects.  The timer of 5000
    milliseconds runs against the page fetch: when the fetch has not settled
    by then the item yields [null], after those 5000 milliseconds.  When the
    fetch throws, and when splitting, embedding or searching throws, the item
    yields [null] as well.  A page that arrives in time and is processed
    yields what the search finds, after the time of the fetch and of the
    three calls together, which no timer bounds.  So the fan-out over the
    items always resolves, with the result of every item. *)
Theorem fetchAndProcess_never_rejects (env : services) (lat : Timing.latency)
  (message : string) :
  (forall item w,
     exists r w' t,
       Timing.fetchAndProcess env lat message item w = ((Ok r, w'), t)
       /\ fetchAndProcess env message item w = (Ok r, w')
       /\ ((5000 <= elapsed (fetch env (link item)))%Z -> r = None /\ t = 5000%Z)
       /\ (forall e, outcome (fetch env (link item)) = Throw e -> r = None)
       /\ (forall page,
             (elapsed (fetch env (link item)) < 5000)%Z ->
             outcome (fetch env (link item)) = Ok page ->
             let text := Html.extractMainContent (cheerio_load env) page in
             (250 <= String.length text)%nat ->
             match splitText env text with
             | Throw _ => r = None
             | Ok chunks =>
                 match fromTexts env chunks (link item) with
                 | Throw _ => r = None
                 | Ok store =>
                     match similaritySearch env store message with
                     | Throw _ => r = None
                     | Ok docs =>
                         r = Some docs
                         /\ t = (elapsed (fetch env (link item))
                                 + Timing.splitText_ms lat text
                                 + Timing.fromTexts_ms lat chunks (link item)
                                 + Timing.similaritySearch_ms lat store message)%Z
                     end
                 end
             end))
  /\ (forall items w,
        exists results w',
          all (map (fetchAndProcess env message) items) w = (Ok results, w')
          /\ Forall2 (fun item r => forall w0, fst (fetchAndProcess env message item w0) = Ok r)
               items results).
Proof.
  split.
  - intros item w.
    pose proof (timed_fetchAndProcess env lat message item w) as Huntimed.
    destruct (Timing.fetchAndProcess env lat message item w) as [[r0 w'] t] eqn:Hrun.
    cbn [fst] in Huntimed.
    destruct (fetchAndProcess_run env message item w) as (n & Hn).
    rewrite Hn in Huntimed. injection Huntimed as -> ->.
    exists (yield env message item), (counting n w), t.
    split; [ reflexivity | ]. split; [ exact Hn | ].
    unfold Timing.fetchAndProcess, Timing.try_catch, Timing.bind, Timing.race,
      Timing.after, Timing.at_once, lift, race, fetchPageContent in Hrun.
    cbn [elapsed outcome] in Hrun.
    split; [ | split ].
    + intros Hslow. split; [ apply yield_timeout, Hslow | ].
      apply Z.ltb_ge in Hslow. rewrite Hslow in Hrun. cbn in Hrun.
      injection Hrun as _ _ <-. apply Z.ltb_ge in Hslow. lia.
    + apply yield_fetch_throws.
    + intros page Hfast Hpage text Hlong. subst text.
      apply Z.ltb_lt in Hfast. rewrite Hfast, Hpage in Hrun.
      apply Nat.ltb_ge in Hlong. rewrite Hlong in Hrun. apply Z.ltb_lt in Hfast.
      unfold yield, process, bind, lift, race, fetchPageContent. cbn [elapsed outcome].
      apply Z.ltb_lt in Hfast. rewrite Hfast, Hpage, Hlong.
      destruct (splitText env _) as [chunks | e]; [ | reflexivity ].
      destruct (fromTexts env chunks (link item)) as [store | e]; [ | reflexivity ].
      cbn [set_vectorCount] in *.
      destruct (similaritySearch env store message) as [docs | e]; [ | reflexivity ].
      split; [ reflexivity | ].
      cbn in Hrun. injection Hrun as _ _ <-. apply Z.ltb_lt in Hfast. lia.
  - intros items w. destruct (all_fetchAndProcess env message items w) as (n & Hrun).
    exists (map (yield env message) items), (counting n w).
    split; [ exact Hrun | apply fan_out_results ].
Qed.

(** The timer does not run against the processing: a page that arrives
    after 10 milliseconds and whose similarity search takes a minute is not
    given up when the timer fires; the item yields what the search finds,
    after 60010 milliseconds. *)
Lemma fetchAndProcess_timer_counterexample :
  let item := {| title := "one"; link := "http://one" |} in
  let run := Timing.fetchAndProcess seven_hits_services Web.slow_search "q" item fresh in
  snd run = 60010%Z
  /\ fst (fst run) = Ok (Some [ {| pageContent := "a"; metadata := "http://one" |} ])
  /\ fst (fetchAndProcess seven_hits_services "q" item fresh)
     = Ok (Some [ {| pageContent := "a"; metadata := "http://one" |} ]).
Proof. repeat split. Qed.

(** Three items: one whose page arrives too late, one whose fetch fails and
    one whose page is too short; the fan-out resolves with three nulls. *)
Example fan_out_survives :
  let env :=
    {| supabase_fails := supabase_fails sample_services;
       openai_embedding := openai_embedding sample_services;
       openai_stream := openai_stream sample_services;
       openai_chat := openai_chat sample_services;
       select_embeddings := select_embeddings sample_services;
       Number := Number sample_services;
       brave_search := brave_search sample_services;
       JSON_parse := JSON_parse sample_services;
       JSON_stringify := JSON_stringify sample_services;
       fetch := fun link =>
                  if String.eqb link "slow" then {| elapsed := 5000; outcome := Ok "late" |}
                  else if String.eqb link "down" then {| elapsed := 3; outcome := Throw "ECONNREFUSED" |}
                  else {| elapsed := 10; outcome := Ok "<html>" |};
       cheerio_load := cheerio_load sample_services;
       splitText := splitText sample_services;
       fromTexts := fromTexts sample_services;
       similaritySearch := similaritySearch sample_services |} in
  fst (all (map (fetchAndProcess env "q")
              [ {| title := "a"; link := "slow" |};
                {| title := "b"; link := "down" |};
                {| title := "c"; link := "fine" |} ]) fresh)
  = Ok [None; None; None].
Proof. reflexivity. Qed.

(** *** At most four results *)

Lemma firstn_length_le {A : Type} (n : nat) (l : list A) : (List.length (firstn n l) <= n)%nat.
Proof. rewrite length_firstn. lia. Qed.

Lemma in_firstn {A : Type} (l : list A) :
  forall n x, In x (firstn n l) -> In x l.
Proof.
  induction l as [ | y l IH]; intros [ | n] x H; cbn in *; try contradiction.
  destruct H as [-> | H]; [ left; reflexivity | right; eapply IH; exact H ].
Qed.

Lemma successful_length (results : list (option (list found))) :
  (List.length (successful results) <= List.length results)%nat.
Proof.
  unfold successful.
  induction results as [ | [docs | ] results IH]; cbn [flat_map app List.length]; lia.
Qed.

Lemma truthy_present (v : option string) : present v = true -> truthy (text_of_field v) = true.
Proof. destruct v; cbn; [ auto | discriminate ]. Qed.

Lemma normalizeData_ok (env : services) (docs : string) (normalizedData : list source) :
  normalizeData env docs = Ok normalizedData ->
  (List.length normalizedData <= 4)%nat
  /\ Forall (fun item => truthy (title item) = true /\ truthy (link item) = true
                         /\ includes "brave.com" (link item) = false) normalizedData.
Proof.
  unfold normalizeData. destruct (JSON_parse env docs) as [parsed | e]; [ | discriminate ].
  intros H.
  assert (E : normalizedData
              = map (fun doc => {| title := text_of_field (hit_title doc);
                                   link := text_of_field (hit_link doc) |})
                  (slice0 4 (filter keeps parsed))) by congruence.
  clear H. subst normalizedData. split.
  - rewrite length_map. apply firstn_length_le.
  - rewrite Forall_map. unfold slice0.
    apply Forall_forall. intros doc Hdoc. cbn [title link].
    apply in_firstn, filter_In in Hdoc as [_ Hkeep].
    unfold keeps in Hkeep.
    apply andb_prop in Hkeep as [Hkeep Hbrave]. apply andb_prop in Hkeep as [Ht Hl].
    split; [ apply truthy_present, Ht | ].
    split; [ apply truthy_present, Hl | ].
    apply negb_true_iff, Hbrave.
Qed.

(** Seven hits come back; five pass the filter, four are processed, and all
    four succeed. *)
Example four_of_seven_hits :
  normalizeData seven_hits_services "[...]"
  = Ok [ {| title := "one"; link := "http://one" |};
         {| title := "two"; link := "http://two" |};
         {| title := "three"; link := "http://three" |};
         {| title := "four"; link := "http://four" |} ]
  /\ map (yield seven_hits_services "q")
         [ {| title := "one"; link := "http://one" |};
           {| title := "two"; link := "http://two" |} ]
     = [ Some [ {| pageContent := "a"; metadata := "http://one" |} ];
         Some [ {| pageContent := "a"; metadata := "http://two" |} ] ].
Proof. split; reflexivity. Qed.

(** *** The order of the writes *)

Lemma triggerLLMAndFollowup_ok (env : services) (input : string) (w w' : world) (r : response) :
  triggerLLMAndFollowup env input w = (Ok r, w') ->
  exists texts reply,
    trace w' = (trace w ++ answering (next_id w) input texts reply)%list.
Proof.
  unfold triggerLLMAndFollowup. intros H.
  step H as u w1 Hc1.
  destruct u. apply getGPTResults_ok in Hc1 as (stream & w0 & _ & Ht0 & _ & Hn0 & Hloop).
  apply consume_trace in Hloop as (Hn1 & texts & Ht1).
  step H as reply w2 Hc2. unfold generateFollowup in Hc2.
  apply complete_ok in Hc2 as (_ & ->).
  step H as fid w3 Hc3. apply sendPayload_ok in Hc3 as (-> & ->).
  apply ret_ok in H as (_ & ->).
  exists texts, reply. unfold answering.
  cbn [trace served logged next_id]. rewrite Ht1, Ht0, Hn1, Hn0.
  rewrite <- !app_assoc. cbn [app]. reflexivity.
Qed.

Lemma searchEngineForSources_ok (env : services) (message source : string) (w w' : world)
  (r : response) :
  searchEngineForSources env message source w = (Ok r, w') ->
  exists before sources note input texts reply,
    writes before = []
    /\ trace w' =
       (trace w ++ before
        ++ [Inserted (next_id w) {| type := "Sources"; content := SourceList sources |};
            Inserted (next_id w + 1) {| type := "VectorCreation"; content := Words note |}]
        ++ answering (next_id w + 2) input texts reply)%list.
Proof.
  unfold searchEngineForSources. destruct (String.eqb source "database"); intros H.
  - step H as queryEmbedding w1 Hc1. apply lift_ok in Hc1 as (_ & ->).
    step H as embeddingsData w2 Hc2. apply lift_ok in Hc2 as (_ & ->).
    step H as sid w3 Hc3. apply sendPayload_ok in Hc3 as (-> & ->).
    step H as vid w4 Hc4. apply sendPayload_ok in Hc4 as (-> & ->).
    apply triggerLLMAndFollowup_ok in H as (texts & reply & Ht).
    eexists [], _, _, _, texts, reply. split; [ reflexivity | ].
    rewrite Ht. cbn [trace served next_id].
    replace (next_id w + 1 + 1)%Z with (next_id w + 2)%Z by lia.
    rewrite <- !app_assoc. reflexivity.
  - step H as rephrasedMessage w1 Hc1. unfold rephraseInput in Hc1.
    apply complete_ok in Hc1 as (_ & ->).
    step H as docs w2 Hc2. apply lift_ok in Hc2 as (_ & ->).
    step H as normalizedData w3 Hc3. apply lift_ok in Hc3 as (_ & ->).
    step H as sid w4 Hc4. apply sendPayload_ok in Hc4 as (-> & ->).
    step H as u1 w5 Hc5. rewrite set_vectorCount_run in Hc5. injection Hc5 as _ <-.
    step H as results w6 Hc6.
    match type of Hc6 with all _ ?w0 = _ =>
      destruct (all_fetchAndProcess env message normalizedData w0) as (n & E) end.
    rewrite E in Hc6. injection Hc6 as _ <-.
    step H as u2 w7 Hc7. rewrite set_vectorCount_run in Hc7. injection Hc7 as _ <-.
    step H as vid w8 Hc8. apply sendPayload_ok in Hc8 as (-> & ->).
    apply triggerLLMAndFollowup_ok in H as (texts & reply & Ht).
    eexists [Completed "gpt-4o" rephrase_system message], _, _, _, texts, reply.
    split; [ reflexivity | ].
    rewrite Ht. cbn [trace served logged counting next_id].
    replace (next_id w + 1 + 1)%Z with (next_id w + 2)%Z by lia.
    rewrite <- !app_assoc. reflexivity.
Qed.

Lemma POST_unfold (env : services) (req : request) :
  POST env req = try_catch (attempt env req) (fun e => ret failed).
Proof. reflexivity. Qed.

Lemma attempt_ok (env : services) (req : request) (w w' : world) (r : response) :
  attempt env req w = (Ok r, w') ->
  r = processing
  /\ exists query before sources note input texts reply,
       writes before = []
       /\ trace w' =
          (trace w
           ++ [Inserted (next_id w) {| type := "Query"; content := Words query |}]
           ++ before
           ++ [Inserted (next_id w + 1) {| type := "Sources"; content := SourceList sources |};
               Inserted (next_id w + 2) {| type := "VectorCreation"; content := Words note |}]
           ++ answering (next_id w + 3) input texts reply)%list.
Proof.
  unfold attempt. intros H.
  step H as b w1 Hc1. apply lift_ok in Hc1 as (_ & ->).
  step H as qid w2 Hc2. apply sendPayload_ok in Hc2 as (-> & ->).
  step H as r' w3 Hc3. apply ret_ok in H as (-> & ->).
  split; [ reflexivity | ].
  apply searchEngineForSources_ok in Hc3
    as (before & sources & note & input & texts & reply & Hb & Ht).
  exists (message b), before, sources, note, input, texts, reply.
  split; [ exact Hb | ].
  rewrite Ht. cbn [trace served next_id].
  replace (next_id w + 1 + 1)%Z with (next_id w + 2)%Z by lia.
  replace (next_id w + 1 + 2)%Z with (next_id w + 3)%Z by lia.
  rewrite <- !app_assoc. reflexivity.
Qed.

Lemma writes_app (l l' : list event) : writes (l ++ l') = (writes l ++ writes l')%list.
Proof. apply filter_app. Qed.

Lemma writes_updates (id : Z) (texts : list string) :
  writes (map (fun t => Updated id (answer t)) texts)
  = map (fun t => Updated id (answer t)) texts.
Proof. induction texts as [ | t texts IH]; cbn; [ reflexivity | f_equal; exact IH ]. Qed.

Lemma processing_not_failed : processing <> failed.
Proof. discriminate. Qed.

(** C5.  A request that is processed without an exception writes, in this
    order: the query, the sources, the end of the vector creation, the empty
    row of the answer, the heading, the updates of that row, and the
    follow-up. *)
Theorem payloads_in_order (env : services) (req : request) (w w' : world) :
  POST env req w = (Ok processing, w') ->
  exists evs query sources note texts reply,
    trace w' = (trace w ++ evs)%list
    /\ writes evs =
       ([Inserted (next_id w) {| type := "Query"; content := Words query |};
         Inserted (next_id w + 1) {| type := "Sources"; content := SourceList sources |};
         Inserted (next_id w + 2) {| type := "VectorCreation"; content := Words note |};
         Inserted (next_id w + 3) (answer "");
         Inserted (next_id w + 4) heading]
        ++ map (fun t => Updated (next_id w + 3) (answer t)) texts
        ++ [Inserted (next_id w + 5) (followUp reply)])%list.
Proof.
  rewrite POST_unfold. unfold try_catch.
  destruct (attempt env req w) as [[r | e] w1] eqn:Hrun; intros H.
  - injection H as -> ->.
    apply attempt_ok in Hrun
      as (_ & query & before & sources & note & input & texts & reply & Hb & Ht).
    eexists _, query, sources, note, texts, reply.
    split; [ exact Ht | ].
    unfold answering. rewrite !writes_app, Hb, writes_updates. cbn [writes filter is_write app].
    replace (next_id w + 3 + 1)%Z with (next_id w + 4)%Z by lia.
    replace (next_id w + 3 + 2)%Z with (next_id w + 5)%Z by lia.
    reflexivity.
  - unfold ret in H.
    assert (Hf : processing = failed) by congruence.
    destruct (processing_not_failed Hf).
Qed.

Lemma payloads_in_order_witness :
  exists evs,
    trace (snd (POST sample_services (sample_request "database") fresh)) = evs
    /\ List.length (writes evs) = 8%nat.
Proof.
  destruct (payloads_in_order sample_services (sample_request "database") fresh
              (snd (POST sample_services (sample_request "database") fresh))
              eq_refl)
    as (evs & query & sources & note & texts & reply & Ht & Hw).
  exists evs. split; [ exact Ht | ].
  assert (Hev : writes evs
                = writes (trace (snd (POST sample_services (sample_request "database")
                                        fresh))))
    by (rewrite Ht; reflexivity).
  rewrite Hev. reflexivity.
Defined.

(** The writes of the sample request, in web-search mode. *)
Example web_search_writes :
  writes (trace (snd (POST sample_services (sample_request "web") fresh)))
  = [ Inserted 1 {| type := "Query"; content := Words "q" |};
      Inserted 2 {| type := "Sources";
                    content := SourceList [ {| title := "t"; link := "http://x" |} ] |};
      Inserted 3 {| type := "VectorCreation"; content := Words "Finished Scanning Sources." |};
      Inserted 4 (answer "");
      Inserted 5 heading;
      Updated 4 (answer "Hel");
      Updated 4 (answer "Hello");
      Inserted 6 (followUp "I cannot help with that.") ].
Proof. reflexivity. Qed.


(** A request that is accepted, one that fails at its third write, and one
    whose body cannot be read. *)
Example POST_responses :
  fst (POST sample_services (sample_request "web") fresh)
  = Ok {| status := 200; json := [("message", "Processing request")] |}
  /\ fst (POST (flaky 2 sample_services) (sample_request "web") fresh)
     = Ok {| status := 500;
             json := [("error", "An error occurred while processing the request")] |}
  /\ POST sample_services {| req_json := Throw "Unexpected end of JSON input" |} fresh
     = (Ok {| status := 500;
              json := [("error", "An error occurred while processing the request")] |},
        fresh).
Proof. repeat split. Qed.

(** *** The prompt of the answer *)

Lemma streams_app (l l' : list event) : streams (l ++ l') = (streams l ++ streams l')%list.
Proof. apply flat_map_app. Qed.

Lemma quiet_ret {A : Type} (a : A) : quiet (ret a).
Proof. intros w. reflexivity. Qed.

Lemma quiet_throw {A : Type} (e : exception) : quiet (@throw A e).
Proof. intros w. reflexivity. Qed.

Lemma quiet_lift {A : Type} (r : result A) : quiet (lift r).
Proof. intros w. reflexivity. Qed.

Lemma quiet_bind {A B : Type} (c : M A) (k : A -> M B) :
  quiet c -> (forall a, quiet (k a)) -> quiet (bind c k).
Proof.
  intros Hc Hk w. unfold bind. specialize (Hc w).
  destruct (c w) as [[a | e] w1]; cbn [snd] in *; [ rewrite Hk | ]; exact Hc.
Qed.

Lemma quiet_try_catch {A : Type} (c : M A) (h : exception -> M A) :
  quiet c -> (forall e, quiet (h e)) -> quiet (try_catch c h).
Proof.
  intros Hc Hh w. unfold try_catch. specialize (Hc w).
  destruct (c w) as [[a | e] w1]; cbn [snd] in *; [ | rewrite Hh ]; exact Hc.
Qed.

Lemma quiet_insert_row (env : services) (p : payload) : quiet (insert_row env p).
Proof.
  intros w. unfold insert_row.
  destruct (supabase_fails env (supabase_calls w)); cbn [snd trace served];
    rewrite streams_app; cbn; apply app_nil_r.
Qed.

Lemma quiet_update_row (env : services) (id : Z) (p : payload) : quiet (update_row env id p).
Proof.
  intros w. unfold update_row.
  destruct (supabase_fails env (supabase_calls w)); cbn [snd trace served];
    rewrite streams_app; cbn; apply app_nil_r.
Qed.

Lemma quiet_first_id (d : option (list Z)) : quiet (first_id d).
Proof. destruct d as [[ | id d] | ]; intros w; reflexivity. Qed.

Lemma quiet_sendPayload (env : services) (p : payload) : quiet (sendPayload env p).
Proof.
  apply quiet_try_catch; [ | intros e; apply quiet_throw ].
  apply quiet_bind; [ apply quiet_insert_row | ].
  intros r. destruct (error r); [ apply quiet_throw | apply quiet_first_id ].
Qed.

Lemma quiet_createRow (env : services) : quiet (createRowForGPTResponse env).
Proof.
  apply quiet_bind; [ apply quiet_insert_row | ].
  intros r. destruct (error r); [ apply quiet_throw | ].
  destruct (data r); [ | apply quiet_ret ].
  apply quiet_bind; [ apply quiet_first_id | intros id; apply quiet_ret ].
Qed.

Lemma quiet_update (env : services) (rowId : option Z) (text : string) :
  quiet (updateRowWithGPTResponse env rowId text).
Proof.
  unfold updateRowWithGPTResponse. destruct rowId as [id | ]; [ | apply quiet_ret ].
  destruct (falsy (Some id)); [ apply quiet_ret | ].
  apply quiet_try_catch; [ | intros e; apply quiet_throw ].
  apply quiet_bind; [ apply quiet_update_row | ].
  intros r. destruct (error r); [ apply quiet_throw | ].
  destruct (data r); [ | apply quiet_ret ].
  apply quiet_bind; [ apply quiet_first_id | intros id'; apply quiet_ret ].
Qed.

Lemma quiet_consume (env : services) (rowId : option Z) (stream : list chunk) :
  forall text, quiet (consume env rowId stream text).
Proof.
  induction stream as [ | c stream IH]; intros text; cbn [consume].
  - apply quiet_ret.
  - destruct c as [[d | ] | e]; [ | apply IH | apply quiet_throw ].
    destruct (truthy d); [ | apply IH ].
    apply quiet_bind; [ apply quiet_update | intros _; apply IH ].
Qed.

Lemma quiet_complete (env : services) (model system user : string) :
  quiet (complete env model system user).
Proof.
  intros w. unfold complete, bind. rewrite log_run. cbn [snd lift logged trace].
  rewrite streams_app. cbn. apply app_nil_r.
Qed.

Lemma streams_bind {A B : Type} (c : M A) (k : A -> M B) (prompts : list string) :
  (forall w, streams (trace (snd (c w))) = (streams (trace w) ++ prompts)%list) ->
  (forall a, quiet (k a)) ->
  forall w, streams (trace (snd (bind c k w))) = (streams (trace w) ++ prompts)%list.
Proof.
  intros Hc Hk w. unfold bind. specialize (Hc w).
  destruct (c w) as [[a | e] w1]; cbn [snd] in *; [ rewrite Hk | ]; exact Hc.
Qed.

Lemma open_stream_streams (env : services) (model system user : string) (w : world) :
  streams (trace (snd (open_stream env model system user w)))
  = (streams (trace w) ++ [user])%list.
Proof.
  unfold open_stream, bind. rewrite log_run. cbn [lift snd logged trace].
  rewrite streams_app. reflexivity.
Qed.

Lemma getGPTResults_streams (env : services) (input : string) (w : world) :
  streams (trace (snd (getGPTResults env input w))) = (streams (trace w) ++ [input])%list.
Proof.
  unfold getGPTResults. cbv zeta.
  apply streams_bind; [ intros w0; apply open_stream_streams | intros stream ].
  apply quiet_bind; [ apply quiet_createRow | intros rowId ].
  apply quiet_bind; [ apply quiet_sendPayload | intros _; apply quiet_consume ].
Qed.

(** Whatever happens afterwards, the prompt goes out first and once. *)
Lemma triggerLLMAndFollowup_streams (env : services) (input : string) (w : world) :
  streams (trace (snd (triggerLLMAndFollowup env input w)))
  = (streams (trace w) ++ [input])%list.
Proof.
  unfold triggerLLMAndFollowup.
  apply streams_bind; [ intros w0; apply getGPTResults_streams | intros _ ].
  apply quiet_bind; [ apply quiet_complete | intros reply ].
  apply quiet_bind; [ apply quiet_sendPayload | intros _; apply quiet_ret ].
Qed.

(** X19.  In database mode, when every row scores a number, the
    rows are ranked in descending order of their cosine similarity to the
    query, rows of equal score in the order of the table; and, once the two
    progress payloads are written, the model is prompted with the contents of
    the first four, in that order and one blank line apart, as its context. *)
Theorem database_context_ranked (env : services) (message : string) (w : world)
  (queryEmbedding : list number) (embeddingsData : list Similarity.row) :
  openai_embedding env message = Ok queryEmbedding ->
  select_embeddings env = Ok embeddingsData ->
  supabase_fails env (supabase_calls w) = None ->
  supabase_fails env (S (supabase_calls w)) = None ->
  let docs := Similarity.documents (Number env) embeddingsData in
  Cosine.numeric (Similarity.score queryEmbedding docs) ->
  exists ranked,
    Cosine.stable_ranking (Similarity.score queryEmbedding docs) ranked
    /\ (forall a b, In a (firstn 4 ranked) -> In b (skipn 4 ranked) ->
        PrimFloat.leb (Similarity.similarity b) (Similarity.similarity a) = true)
    /\ streams (trace (snd (searchEngineForSources env message "database" w)))
       = (streams (trace w)
          ++ [database_prompt
                (String.concat (line_break ++ line_break)
                   (map Similarity.scored_content (firstn 4 ranked)))
                message])%list.
Proof.
  intros Hq Hrows Hs1 Hs2 docs Hnum.
  destruct (CosineFacts.ranking_descending queryEmbedding docs Hnum)
    as (_ & Hdesc & _ & Hctx).
  exists (Similarity.similarities queryEmbedding docs).
  split; [ apply CosineFacts.sort_is_stable_ranking, Hnum | ].
  split; [ apply CosineFacts.descending_firstn, Hdesc | ].
  unfold searchEngineForSources. cbn [String.eqb Ascii.eqb Bool.eqb]. cbn iota.
  rewrite Hq, Hrows. unfold bind at 1 2. unfold lift at 1 2. cbv zeta.
  unfold bind at 1. rewrite sendPayload_run, Hs1.
  unfold bind at 1. rewrite sendPayload_run. cbn [supabase_calls served]. rewrite Hs2.
  rewrite triggerLLMAndFollowup_streams. cbn [trace served].
  rewrite !streams_app. cbn [streams flat_map app]. rewrite !app_nil_r.
  fold docs. rewrite Hctx. reflexivity.
Qed.

Lemma database_context_ranked_witness :
  streams (trace (snd (searchEngineForSources sample_services "q" "database" fresh)))
  = [database_prompt (String.concat (line_break ++ line_break) ["C"; "B"; "A"]) "q"].
Proof.
  destruct (database_context_ranked sample_services "q" fresh [1; 0]%float sample_rows
              eq_refl eq_refl eq_refl eq_refl)
    as (ranked & _ & _ & Hprompt).
  - repeat constructor.
  - reflexivity.
Defined.

(** With a zero embedding in the table the ranking is not descending: the
    row scores [NaN], every comparison with it answers zero, and the rows
    stay in the order of the table, [B] (similarity 1) behind [A]. *)
Lemma database_ranking_counterexample :
  streams (trace (snd (searchEngineForSources zero_row_services "q" "database" fresh)))
  = [database_prompt (String.concat (line_break ++ line_break) ["A"; "Z"; "B"]) "q"]
  /\ map Similarity.similarity
       (Similarity.similarities Cosine.sample_query Cosine.sample_documents)
     = [Similarity.cosineSimilarity [1; 0] [1; 1]; nan; 1]%float
  /\ ~ Cosine.descending
        (Similarity.similarities Cosine.sample_query Cosine.sample_documents).
Proof.
  split; [ reflexivity | ]. split; [ reflexivity | ].
  unfold Cosine.descending. intros H.
  apply StronglySorted_inv in H as [_ H].
  apply Forall_inv_tail, Forall_inv in H.
  vm_compute in H. discriminate H.
Qed.

(** *** The follow-up *)

Lemma append_cons_ne (c : ascii) (s t : string) : c <> "{"%char -> "{ " ++ s <> String c t.
Proof. intros Hc H. cbn in H. injection H as H _. apply Hc. symmetry. exact H. Qed.

(** C7, as amended.  [generateFollowup] asks the model [gpt-4] for four
    follow-up questions in the format [{ "follow_up": [...] }], of which the
    system prompt ends with an instance, and returns the content of the
    reply as it is. *)
Theorem generateFollowup_returns_reply (env : services) (message : string) (w : world) :
  generateFollowup env message w
  = (openai_chat env "gpt-4" (followup_system message) (followup_user message),
     logged w (Completed "gpt-4" (followup_system message) (followup_user message)))
  /\ exists before,
       followup_system message
       = before ++ follow_up_json ["QUESTION_GOES_HERE"; "QUESTION_GOES_HERE";
                                   "QUESTION_GOES_HERE"; "QUESTION_GOES_HERE"].
Proof.
  split; [ reflexivity | ].
  exists ("You are a follow up answer generator and always respond with 4 follow up questions based on this input "
          ++ quote ++ message ++ quote ++ " in JSON format. i.e. ").
  unfold followup_system, follow_up_json, quoted.
  cbn [map String.concat]. rewrite !Strings.append_assoc. reflexivity.
Qed.

(** The reply is whatever the model says; here it is no list of questions. *)
Lemma generateFollowup_counterexample :
  fst (generateFollowup sample_services "q" fresh) = Ok "I cannot help with that."
  /\ ~ (exists questions,
          List.length questions = 4%nat
          /\ "I cannot help with that." = follow_up_json questions).
Proof.
  split; [ reflexivity | ].
  intros (questions & _ & H). unfold follow_up_json in H. cbn in H. discriminate H.
Qed.

(** *** Both outcomes of a request *)

Example request_processed :
  fst (POST sample_services (sample_request "database") fresh) = Ok processing.
Proof. reflexivity. Qed.

(** When the third request to Supabase fails, the request is answered with
    status 500 and the first two payloads stay written. *)
Example request_failed :
  fst (POST (flaky 2 sample_services) (sample_request "database") fresh) = Ok failed
  /\ map fst (message_history
                (snd (POST (flaky 2 sample_services) (sample_request "database") fresh)))
     = [1; 2]%Z.
Proof. split; reflexivity. Qed.

Example request_unreadable :
  fst (POST sample_services {| req_json := Throw "Unexpected end of JSON input" |} fresh)
  = Ok failed.
Proof. reflexivity. Qed.

End RunFacts.

(** ** The protocol of a request *)

Module ProtocolFacts.
Import Js Pipeline Run Protocol RunFacts.
Local Open Scope string_scope.

Section Request.
Context (database : bool) (message : string).

Lemma walk_app (s : stage) (evs evs' : list event) :
  walk database message s (evs ++ evs') =
  match walk database message s evs with
  | Some s' => walk database message s' evs'
  | None => None
  end.
Proof.
  revert s. induction evs as [|e evs IH]; intros s; cbn [app Protocol.walk];
    [ reflexivity | ].
  destruct (step database message s e); [ apply IH | reflexivity ].
Qed.

(** *** Sequencing *)

Lemma moves_ret {A : Type} (s : stage) (a : A) : moves database message s (ret a) (to s).
Proof.
  intros w. exists []. cbn. rewrite app_nil_r. split; [ reflexivity | ].
  exists s. split; reflexivity.
Qed.

Lemma moves_lift {A : Type} (s : stage) (r : result A) : s <> Done -> moves database message s (lift r) (to s).
Proof.
  intros Hs w. exists []. cbn. rewrite app_nil_r. split; [ reflexivity | ].
  destruct r; exists s; split; [ reflexivity | reflexivity | reflexivity | exact Hs ].
Qed.

Lemma moves_bind {A B : Type} (s : stage) (c : M A) (k : A -> M B)
  (Q1 : A -> stage -> Prop) (Q2 : B -> stage -> Prop) :
  moves database message s c Q1 -> (forall a s1, Q1 a s1 -> moves database message s1 (k a) Q2) -> moves database message s (bind c k) Q2.
Proof.
  intros Hc Hk w. destruct (Hc w) as (evs & Ht & Hr). unfold bind.
  destruct (c w) as [[a|e] w1]; cbn [fst snd] in *.
  - destruct Hr as (s1 & Hw1 & Hq). destruct (Hk a s1 Hq w1) as (evs' & Ht' & Hr').
    exists (evs ++ evs')%list.
    split; [ rewrite Ht', Ht, app_assoc; reflexivity | ].
    destruct (fst (k a w1)); rewrite walk_app, Hw1; exact Hr'.
  - exists evs. split; [ exact Ht | exact Hr ].
Qed.

(** The same, when [c] leads to one stage whatever it returns. *)
Lemma moves_then {A B : Type} (s s1 : stage) (c : M A) (k : A -> M B)
  (Q : B -> stage -> Prop) :
  moves database message s c (to s1) -> (forall a, moves database message s1 (k a) Q) -> moves database message s (bind c k) Q.
Proof.
  intros Hc Hk. apply (moves_bind s c k (to s1) Q Hc).
  intros a s' ->. apply Hk.
Qed.

Lemma moves_set_vectorCount (s : stage) (f : nat -> nat) :
  moves database message s (set_vectorCount f) (to s).
Proof.
  intros w. exists []. cbn. rewrite app_nil_r. split; [ reflexivity | ].
  exists s. split; reflexivity.
Qed.

(** *** The writes and the requests to the model *)

Lemma moves_sendPayload (env : services) (p : payload) (s s' : stage) :
  s <> Done -> (forall id, step database message s (Inserted id p) = Some s') ->
  moves database message s (sendPayload env p) (to s').
Proof.
  intros Hs Hstep w. rewrite sendPayload_run.
  destruct (supabase_fails env (supabase_calls w)); cbn [fst snd served trace].
  - exists []. split; [ reflexivity | ]. exists s. split; [ reflexivity | exact Hs ].
  - eexists. split; [ reflexivity | ]. exists s'. cbn [Protocol.walk]. rewrite Hstep.
    split; reflexivity.
Qed.

Lemma moves_createRow (env : services) :
  moves database message AwaitAnswerRow (createRowForGPTResponse env)
    (fun rowId s' => exists row, rowId = Some row /\ s' = AwaitHeading row).
Proof.
  intros w. rewrite createRow_run.
  destruct (supabase_fails env (supabase_calls w)); cbn [fst snd served trace].
  - exists []. split; [ reflexivity | ].
    exists AwaitAnswerRow. split; [ reflexivity | discriminate ].
  - eexists. split; [ reflexivity | ]. exists (AwaitHeading (next_id w)).
    split; [ reflexivity | ]. exists (next_id w). split; reflexivity.
Qed.

Lemma moves_update (env : services) (row : Z) (text : string) :
  moves database message (Streaming row) (updateRowWithGPTResponse env (Some row) text) (to (Streaming row)).
Proof.
  intros w. destruct (falsy (Some row)) eqn:Hf.
  - rewrite (update_falsy env (Some row) text w Hf). exists []. cbn. rewrite app_nil_r.
    split; [ reflexivity | ]. exists (Streaming row). split; reflexivity.
  - assert (Hid : row <> 0%Z) by (cbn in Hf; lia).
    rewrite (update_run env row text w Hid).
    assert (Hstep : step database message (Streaming row) (Updated row (answer text)) = Some (Streaming row))
      by (cbn; rewrite Z.eqb_refl; reflexivity).
    destruct (supabase_fails env (supabase_calls w)); cbn [fst snd served trace].
    + exists []. split; [ reflexivity | ].
      exists (Streaming row). split; [ reflexivity | discriminate ].
    + cbv zeta.
      destruct (filter _ (message_history w)); cbn [fst snd served trace];
        (eexists; split; [ reflexivity | ]); exists (Streaming row);
        cbn [Protocol.walk]; rewrite Hstep; split; (reflexivity || discriminate).
Qed.

Lemma moves_consume (env : services) (row : Z) (stream : list chunk) :
  forall text, moves database message (Streaming row) (consume env (Some row) stream text) (to (Streaming row)).
Proof.
  induction stream as [|[[d|]|e] stream IH]; intros text; cbn [consume].
  - apply moves_ret.
  - destruct (truthy d); [ | apply IH ].
    eapply moves_then; [ apply moves_update | intros _; apply IH ].
  - apply IH.
  - intros w. exists []. cbn. rewrite app_nil_r. split; [ reflexivity | ].
    exists (Streaming row). split; [ reflexivity | discriminate ].
Qed.

Lemma moves_open_stream (env : services) (system user : string) :
  moves database message AwaitStream (open_stream env "gpt-4o" system user) (to AwaitAnswerRow).
Proof.
  intros w. unfold open_stream, bind. rewrite log_run. unfold lift.
  cbn [fst snd logged trace]. eexists. split; [ reflexivity | ].
  destruct (openai_stream env "gpt-4o" system user);
    exists AwaitAnswerRow; split; (reflexivity || discriminate).
Qed.

Lemma moves_complete (env : services) (model system user : string) (s s' : stage) :
  step database message s (Completed model system user) = Some s' -> s' <> Done ->
  moves database message s (complete env model system user) (to s').
Proof.
  intros Hstep Hs w. unfold complete, bind. rewrite log_run. unfold lift.
  cbn [fst snd logged trace]. eexists. split; [ reflexivity | ].
  cbn [Protocol.walk]. rewrite Hstep.
  destruct (openai_chat env model system user); exists s';
    split; [ reflexivity | reflexivity | reflexivity | exact Hs ].
Qed.

(** *** The handler, function by function *)

Lemma moves_getGPTResults (env : services) (input : string) :
  moves database message AwaitStream (getGPTResults env input) (fun _ s' => exists row, s' = Streaming row).
Proof.
  unfold getGPTResults.
  eapply moves_then; [ apply moves_open_stream | intros stream ].
  eapply moves_bind; [ apply moves_createRow | intros rowId s1 (row & -> & ->) ].
  eapply (moves_then _ (Streaming row)).
  - apply moves_sendPayload; [ discriminate | reflexivity ].
  - intros _ w. destruct (moves_consume env row stream "" w) as (evs & Ht & Hr).
    exists evs. split; [ exact Ht | ].
    destruct (fst (consume env (Some row) stream "" w)); [ | exact Hr ].
    destruct Hr as (s' & Hw & ->). exists (Streaming row).
    split; [ exact Hw | exists row; reflexivity ].
Qed.

Lemma moves_triggerLLMAndFollowup (env : services) (input : string) :
  moves database message AwaitStream (triggerLLMAndFollowup env input) (to Done).
Proof.
  unfold triggerLLMAndFollowup.
  eapply moves_bind; [ apply moves_getGPTResults | intros _ s1 (row & ->) ].
  eapply (moves_then _ AwaitFollowUp).
  { unfold generateFollowup. apply moves_complete; [ reflexivity | discriminate ]. }
  intros reply.
  eapply (moves_then _ Done); [ | intros _; apply moves_ret ].
  apply moves_sendPayload; [ discriminate | reflexivity ].
Qed.

Lemma moves_fan_out (env : services) (query : string) (items : list source) (s : stage) :
  moves database message s (all (map (fetchAndProcess env query) items)) (to s).
Proof.
  intros w. destruct (all_fetchAndProcess env query items w) as (n & E).
  rewrite E. exists []. cbn. rewrite app_nil_r. split; [ reflexivity | ].
  exists s. split; reflexivity.
Qed.

End Request.

Lemma moves_searchEngineForSources (env : services) (message source : string) :
  moves (String.eqb source "database") message AwaitSources
    (searchEngineForSources env message source) (to Done).
Proof.
  unfold searchEngineForSources. destruct (String.eqb source "database").
  - eapply moves_then; [ apply moves_lift; discriminate | intros queryEmbedding ].
    eapply moves_then; [ apply moves_lift; discriminate | intros embeddingsData ].
    cbv zeta.
    eapply (moves_then _ _ _ AwaitVectorCreation);
      [ apply moves_sendPayload; [ discriminate | reflexivity ] | intros _ ].
    eapply (moves_then _ _ _ AwaitStream);
      [ apply moves_sendPayload; [ discriminate | reflexivity ] | intros _ ].
    apply moves_triggerLLMAndFollowup.
  - eapply (moves_then _ _ _ Rephrased); [ | intros rephrasedMessage ].
    { unfold rephraseInput. apply moves_complete; [ | discriminate ].
      cbn. rewrite String.eqb_refl. reflexivity. }
    eapply moves_then; [ apply moves_lift; discriminate | intros docs ].
    eapply moves_then; [ apply moves_lift; discriminate | intros normalizedData ].
    eapply (moves_then _ _ _ AwaitVectorCreation);
      [ apply moves_sendPayload; [ discriminate | reflexivity ] | intros _ ].
    eapply moves_then; [ apply moves_set_vectorCount | intros _ ].
    eapply moves_then; [ apply moves_fan_out | intros results ].
    eapply moves_then; [ apply moves_set_vectorCount | intros _ ].
    cbv zeta.
    eapply (moves_then _ _ _ AwaitStream);
      [ apply moves_sendPayload; [ discriminate | reflexivity ] | intros _ ].
    apply moves_triggerLLMAndFollowup.
Qed.

Lemma moves_attempt (env : services) (req : request) :
  moves (mode_of req) (message_of req) AwaitQuery (attempt env req) (to Done).
Proof.
  unfold attempt, mode_of, message_of. destruct (req_json req) as [b | e].
  - assert (Hrest :
      moves (String.eqb (embeddingSource b) "database") (message b) AwaitQuery
        (sendPayload env {| type := "Query"; content := Words (message b) |} ;;
         searchEngineForSources env (message b) (embeddingSource b) ;;
         ret processing)
        (to Done)).
    { eapply (moves_then _ _ _ AwaitSources).
      - apply moves_sendPayload; [ discriminate | ].
        intros id. cbn. rewrite String.eqb_refl. reflexivity.
      - intros _. eapply moves_then; [ apply moves_searchEngineForSources | ].
        intros _. apply moves_ret. }
    intros w. exact (Hrest w).
  - intros w. exists []. cbn. rewrite app_nil_r. split; [ reflexivity | ].
    exists AwaitQuery. split; [ reflexivity | discriminate ].
Qed.

(** X1.  Whatever the services answer and wherever a request fails, the
    writes and the requests to the model that [POST] causes follow the
    protocol of the request, from its first stage: the query is inserted
    first, with the message; the model is asked to rephrase in web mode and
    only there; sources and progress note come before the answer stream is
    opened; the answer row is inserted empty, before the heading, and every
    update is an update of that row; the request for follow-up questions and
    its reply come last.  The response is the one of status 200 exactly when
    the protocol has run to its end. *)
Theorem POST_follows_protocol (env : services) (req : request) (w : world) :
  exists evs s,
    trace (snd (POST env req w)) = (trace w ++ evs)%list
    /\ walk (mode_of req) (message_of req) AwaitQuery evs = Some s
    /\ (fst (POST env req w)
        = Ok {| status := 200; json := [("message", "Processing request")] |}
        <-> s = Done).
Proof.
  destruct (moves_attempt env req w) as (evs & Ht & Hr).
  rewrite POST_unfold. unfold try_catch.
  destruct (attempt env req w) as [[r|e] w1] eqn:E; cbn [fst snd] in *.
  - destruct Hr as (s & Hw & ->). destruct (attempt_ok env req w w1 r E) as (-> & _).
    exists evs, Done. split; [ exact Ht | ]. split; [ exact Hw | ]. split; reflexivity.
  - destruct Hr as (s & Hw & Hs). exists evs, s. cbn [ret fst snd].
    split; [ exact Ht | ]. split; [ exact Hw | ].
    split; intros H; [ discriminate H | contradiction ].
Qed.

(** The protocol refuses what the handler never does: a request to rephrase
    in database mode, an answer row that is not empty, an update of another
    row. *)
Example protocol_refuses :
  walk true "q" AwaitQuery
    [ Inserted 1 {| type := "Query"; content := Words "q" |};
      Completed "gpt-4o" rephrase_system "q" ] = None
  /\ walk false "q" AwaitAnswerRow
       [ Inserted 4 {| type := "GPT"; content := Words "Hel" |} ] = None
  /\ walk false "q" (Streaming 4)
       [ Updated 1 {| type := "GPT"; content := Words "Hel" |} ] = None
  /\ walk false "q" AwaitQuery
       [ Inserted 1 {| type := "Query"; content := Words "q" |};
         Inserted 2 {| type := "Sources"; content := SourceList [] |} ] = None.
Proof. repeat split. Qed.

(** A request that fails once its query is recorded. *)
Example protocol_of_a_failed_request :
  exists evs,
    trace (snd (POST (flaky 2 sample_services) (sample_request "database") fresh)) = evs
    /\ walk true "q" AwaitQuery evs = Some AwaitVectorCreation.
Proof. eexists. split; reflexivity. Qed.

End ProtocolFacts.

(** ** The table across a request *)

Module LedgerFacts.
Import Js Pipeline Run Ledger RunFacts.
Local Open Scope string_scope.

(** *** Rows and identifiers *)

Lemma stored_app_new (rows : list (Z * payload)) (id new : Z) (p : payload) :
  id <> new ->
  option_map snd (find (fun r => (fst r =? id)%Z) (rows ++ [(new, p)]))
  = option_map snd (find (fun r => (fst r =? id)%Z) rows).
Proof.
  intros Hne. induction rows as [|r rows IH]; cbn.
  - destruct (Z.eqb_spec new id); [ congruence | reflexivity ].
  - destruct (fst r =? id)%Z; [ reflexivity | exact IH ].
Qed.

Lemma stored_replaced_other (rows : list (Z * payload)) (id rowId : Z) (p : payload) :
  id <> rowId ->
  option_map snd (find (fun r => (fst r =? id)%Z) (replaced rowId p rows))
  = option_map snd (find (fun r => (fst r =? id)%Z) rows).
Proof.
  intros Hne. induction rows as [|r rows IH]; cbn; [ reflexivity | ].
  destruct (Z.eqb_spec (fst r) rowId) as [E|E]; cbn [fst].
  - destruct (Z.eqb_spec (fst r) id); [ congruence | exact IH ].
  - destruct (fst r =? id)%Z; [ reflexivity | exact IH ].
Qed.

Lemma replaced_absent (rowId : Z) (p : payload) (rows : list (Z * payload)) :
  (forall r, In r rows -> fst r <> rowId) -> replaced rowId p rows = rows.
Proof.
  intros H. unfold replaced. rewrite <- (map_id rows) at 2. apply map_ext_in.
  intros r Hr. destruct (Z.eqb_spec (fst r) rowId) as [E|E]; [ | reflexivity ].
  destruct (H r Hr E).
Qed.

Lemma filter_absent (rowId : Z) (rows : list (Z * payload)) :
  (forall r, In r rows -> fst r <> rowId) ->
  filter (fun r => (fst r =? rowId)%Z) rows = [].
Proof.
  induction rows as [|r rows IH]; intros H; cbn; [ reflexivity | ].
  destruct (Z.eqb_spec (fst r) rowId) as [E|E].
  - destruct (H r (or_introl eq_refl) E).
  - apply IH. intros r' Hr'. apply H. right. exact Hr'.
Qed.

(** *** Sequencing *)

Lemma extends_refl (base : Z) (w : world) : extends base w w.
Proof. split; [ lia | reflexivity ]. Qed.

Lemma extends_trans (base : Z) (w1 w2 w3 : world) :
  extends base w1 w2 -> extends base w2 w3 -> extends base w1 w3.
Proof.
  intros (Hn & Hs) (Hn' & Hs'). split; [ lia | ].
  intros id Hid. rewrite (Hs' id Hid). apply Hs, Hid.
Qed.

Lemma extends_same (base : Z) (w w' : world) :
  message_history w' = message_history w -> next_id w' = next_id w -> extends base w w'.
Proof.
  intros Hm Hn. split; [ lia | ].
  intros id _. unfold stored. rewrite Hm. reflexivity.
Qed.

Lemma extends_bind {A B : Type} (base : Z) (c : M A) (k : A -> M B) (w : world) :
  extends base w (snd (c w)) ->
  (forall a w1, c w = (Ok a, w1) -> extends base w w1 -> extends base w1 (snd (k a w1))) ->
  extends base w (snd (bind c k w)).
Proof.
  intros Hc Hk. unfold bind. destruct (c w) as [[a|e] w1] eqn:E; cbn [snd] in *.
  - eapply extends_trans; [ exact Hc | apply (Hk a w1 eq_refl Hc) ].
  - exact Hc.
Qed.

Lemma extends_lift {A : Type} (base : Z) (r : result A) (w : world) :
  extends base w (snd (lift r w)).
Proof. apply extends_refl. Qed.

(** *** The writes *)

Lemma extends_inserted (base : Z) (w : world) (p : payload) (evs : list event) :
  (base <= next_id w)%Z ->
  extends base w (served w (message_history w ++ [(next_id w, p)]) (next_id w + 1)%Z evs).
Proof.
  intros Hb. split; [ cbn; lia | ].
  intros id Hid. unfold stored. cbn [served message_history].
  apply stored_app_new. lia.
Qed.

Lemma extends_sendPayload (base : Z) (env : services) (p : payload) (w : world) :
  (base <= next_id w)%Z -> extends base w (snd (sendPayload env p w)).
Proof.
  intros Hb. rewrite sendPayload_run.
  destruct (supabase_fails env (supabase_calls w)); cbn [snd].
  - apply extends_same; reflexivity.
  - apply extends_inserted, Hb.
Qed.

Lemma extends_createRow (base : Z) (env : services) (w : world) :
  (base <= next_id w)%Z -> extends base w (snd (createRowForGPTResponse env w)).
Proof.
  intros Hb. rewrite createRow_run.
  destruct (supabase_fails env (supabase_calls w)); cbn [snd].
  - apply extends_same; reflexivity.
  - apply extends_inserted, Hb.
Qed.

Lemma extends_replaced (base rowId : Z) (w : world) (p : payload) (evs : list event) :
  (base <= rowId)%Z ->
  extends base w (served w (replaced rowId p (message_history w)) (next_id w) evs).
Proof.
  intros Hb. split; [ cbn; lia | ].
  intros id Hid. unfold stored. cbn [served message_history].
  apply stored_replaced_other. lia.
Qed.

Lemma extends_update (base : Z) (env : services) (rowId : option Z) (text : string)
  (w : world) :
  (forall id, rowId = Some id -> (base <= id)%Z) ->
  extends base w (snd (updateRowWithGPTResponse env rowId text w)).
Proof.
  intros Hb. destruct (falsy rowId) eqn:Hf.
  - rewrite (update_falsy env rowId text w Hf). apply extends_refl.
  - destruct rowId as [id|]; [ | discriminate Hf ].
    assert (Hid : id <> 0%Z) by (cbn in Hf; lia).
    rewrite (update_run env id text w Hid).
    destruct (supabase_fails env (supabase_calls w)); cbn [snd].
    + apply extends_same; reflexivity.
    + cbv zeta. destruct (filter _ (message_history w)); cbn [snd];
        apply extends_replaced, Hb; reflexivity.
Qed.

Lemma extends_consume (base : Z) (env : services) (rowId : option Z) (stream : list chunk) :
  (forall id, rowId = Some id -> (base <= id)%Z) ->
  forall text w, extends base w (snd (consume env rowId stream text w)).
Proof.
  intros Hb. induction stream as [|[[d|]|e] stream IH]; intros text w; cbn [consume].
  - apply extends_refl.
  - destruct (truthy d); [ | apply IH ].
    apply extends_bind; [ apply extends_update, Hb | intros _ w1 _ _; apply IH ].
  - apply IH.
  - apply extends_refl.
Qed.

(** *** The handler, function by function *)

Lemma extends_getGPTResults (base : Z) (env : services) (input : string) (w : world) :
  (base <= next_id w)%Z -> extends base w (snd (getGPTResults env input w)).
Proof.
  intros Hb. unfold getGPTResults.
  apply extends_bind.
  { unfold open_stream, bind. rewrite log_run. apply extends_same; reflexivity. }
  intros stream w1 H1 _. apply open_stream_ok in H1 as (_ & ->).
  apply extends_bind; [ apply extends_createRow, Hb | ].
  intros rowId w2 H2 _. apply createRow_ok in H2 as (-> & ->).
  apply extends_bind; [ apply extends_sendPayload; cbn; lia | ].
  intros _ w3 _ _. apply extends_consume.
  intros id [= <-]. exact Hb.
Qed.

Lemma extends_complete (base : Z) (env : services) (model system user : string) (w : world) :
  extends base w (snd (complete env model system user w)).
Proof. unfold complete, bind. rewrite log_run. apply extends_same; reflexivity. Qed.

Lemma extends_triggerLLMAndFollowup (base : Z) (env : services) (input : string) (w : world) :
  (base <= next_id w)%Z -> extends base w (snd (triggerLLMAndFollowup env input w)).
Proof.
  intros Hb. unfold triggerLLMAndFollowup.
  apply extends_bind; [ apply extends_getGPTResults, Hb | ].
  intros _ w1 _ (Hn1 & _).
  apply extends_bind; [ apply extends_complete | ].
  intros reply w2 _ (Hn2 & _).
  apply extends_bind; [ apply extends_sendPayload; lia | ].
  intros _ w3 _ _. apply extends_refl.
Qed.

Lemma extends_set_vectorCount (base : Z) (f : nat -> nat) (w : world) :
  extends base w (snd (set_vectorCount f w)).
Proof. apply extends_same; reflexivity. Qed.

Lemma extends_fan_out (base : Z) (env : services) (message : string) (items : list source)
  (w : world) :
  extends base w (snd (all (map (fetchAndProcess env message) items) w)).
Proof.
  destruct (all_fetchAndProcess env message items w) as (n & E).
  rewrite E. apply extends_same; reflexivity.
Qed.

Lemma extends_searchEngineForSources (base : Z) (env : services) (message source : string)
  (w : world) :
  (base <= next_id w)%Z ->
  extends base w (snd (searchEngineForSources env message source w)).
Proof.
  intros Hb. unfold searchEngineForSources. destruct (String.eqb source "database").
  - apply extends_bind; [ apply extends_lift | intros queryEmbedding w1 _ (Hn1 & _) ].
    apply extends_bind; [ apply extends_lift | intros embeddingsData w2 _ (Hn2 & _) ].
    cbv zeta.
    apply extends_bind; [ apply extends_sendPayload; lia | intros _ w3 _ (Hn3 & _) ].
    apply extends_bind; [ apply extends_sendPayload; lia | intros _ w4 _ (Hn4 & _) ].
    apply extends_triggerLLMAndFollowup. lia.
  - apply extends_bind; [ apply extends_complete | intros rephrased w1 _ (Hn1 & _) ].
    apply extends_bind; [ apply extends_lift | intros docs w2 _ (Hn2 & _) ].
    apply extends_bind; [ apply extends_lift | intros normalizedData w3 _ (Hn3 & _) ].
    apply extends_bind; [ apply extends_sendPayload; lia | intros _ w4 _ (Hn4 & _) ].
    apply extends_bind; [ apply extends_set_vectorCount | intros _ w5 _ (Hn5 & _) ].
    apply extends_bind; [ apply extends_fan_out | intros results w6 _ (Hn6 & _) ].
    apply extends_bind; [ apply extends_set_vectorCount | intros _ w7 _ (Hn7 & _) ].
    cbv zeta.
    apply extends_bind; [ apply extends_sendPayload; lia | intros _ w8 _ (Hn8 & _) ].
    apply extends_triggerLLMAndFollowup. lia.
Qed.

Lemma extends_POST (env : services) (req : request) (w : world) :
  extends (next_id w) w (snd (POST env req w)).
Proof.
  rewrite POST_unfold. unfold try_catch.
  assert (H : extends (next_id w) w (snd (attempt env req w))).
  { unfold attempt.
    apply extends_bind; [ apply extends_lift | intros b w1 _ (Hn1 & _) ].
    apply extends_bind; [ apply extends_sendPayload; lia | intros _ w2 _ (Hn2 & _) ].
    apply extends_bind; [ | intros _ w3 _ _; apply extends_refl ].
    apply extends_searchEngineForSources. lia. }
  destruct (attempt env req w) as [[r|e] w1]; exact H.
Qed.

(** X2.  A request leaves the rows of earlier requests as they are, whatever the
    services answer and whether or not it fails: under every identifier the
    table had handed out before, the same payload is stored afterwards.  The
    rows a request writes are its own. *)
Theorem POST_keeps_earlier_rows (env : services) (req : request) (w : world) (id : Z) :
  (id < next_id w)%Z -> stored (snd (POST env req w)) id = stored w id.
Proof. intros Hid. destruct (extends_POST env req w) as (_ & Hs). apply Hs, Hid. Qed.

Lemma POST_keeps_earlier_rows_witness :
  stored (snd (POST sample_services (sample_request "web")
                 (snd (POST sample_services (sample_request "database") fresh)))) 4
  = Some (answer "Hello").
Proof.
  rewrite (POST_keeps_earlier_rows sample_services (sample_request "web")
             (snd (POST sample_services (sample_request "database") fresh)) 4);
    reflexivity.
Defined.

End LedgerFacts.

(** ** Single writes and the answer row *)

Module WriteFacts.
Import Js Pipeline Run Ledger RunFacts.
Local Open Scope string_scope.

Lemma stored_new (rows : list (Z * payload)) (id : Z) (p : payload) :
  (forall r, In r rows -> fst r <> id) ->
  option_map snd (find (fun r => (fst r =? id)%Z) (rows ++ [(id, p)])) = Some p.
Proof.
  intros H. rewrite find_app_none.
  - cbn. rewrite Z.eqb_refl. reflexivity.
  - intros r Hr. apply Z.eqb_neq, H, Hr.
Qed.

(** X11.  [sendPayload] stores the payload in a new row and returns its
    identifier: the table holds the payload under it and every other
    identifier holds what it held.  When Supabase answers with an error,
    that error is thrown as it is and the table is left unchanged. *)
Theorem sendPayload_round_trip (env : services) (p : payload) (w : world) :
  unused_next_id w ->
  let w' := snd (sendPayload env p w) in
  match supabase_fails env (supabase_calls w) with
  | Some e =>
      fst (sendPayload env p w) = Throw e
      /\ message_history w' = message_history w
      /\ next_id w' = next_id w
      /\ trace w' = trace w
  | None =>
      fst (sendPayload env p w) = Ok (next_id w)
      /\ stored w' (next_id w) = Some p
      /\ (forall id, id <> next_id w -> stored w' id = stored w id)
      /\ next_id w' = (next_id w + 1)%Z
  end.
Proof.
  intros Hu w'. subst w'. rewrite sendPayload_run.
  destruct (supabase_fails env (supabase_calls w)); cbn [fst snd served].
  - cbn. rewrite app_nil_r. repeat split.
  - split; [ reflexivity | ]. unfold stored. cbn [message_history next_id].
    split; [ apply stored_new, Hu | ]. split; [ | reflexivity ].
    intros id Hid. apply LedgerFacts.stored_app_new, Hid.
Qed.

Lemma sendPayload_round_trip_witness :
  stored (snd (sendPayload sample_services heading fresh)) 1 = Some heading.
Proof.
  assert (Hu : unused_next_id fresh) by (intros r []).
  exact (proj1 (proj2 (sendPayload_round_trip sample_services heading fresh Hu))).
Defined.

(** X9.  Updating a row the table does not hold is an error: Supabase answers
    with an empty list of rows, reading the identifier of its first element
    throws, and the table is left as it was. *)
Theorem updateRowWithGPTResponse_absent_row (env : services) (rowId : Z) (text : string)
  (w : world) :
  rowId <> 0%Z ->
  supabase_fails env (supabase_calls w) = None ->
  (forall r, In r (message_history w) -> fst r <> rowId) ->
  let run := updateRowWithGPTResponse env (Some rowId) text w in
  (exists e, fst run = Throw e)
  /\ message_history (snd run) = message_history w
  /\ next_id (snd run) = next_id w.
Proof.
  intros Hid Hs Habsent run. subst run. rewrite (update_run env rowId text w Hid), Hs.
  cbv zeta. rewrite (LedgerFacts.filter_absent rowId _ Habsent). cbn [fst snd served].
  split; [ eexists; reflexivity | ].
  cbn [message_history next_id]. rewrite (LedgerFacts.replaced_absent rowId _ _ Habsent).
  split; reflexivity.
Qed.

Lemma updateRowWithGPTResponse_absent_row_witness :
  exists e, fst (updateRowWithGPTResponse sample_services (Some 7%Z) "text" fresh) = Throw e.
Proof.
  apply (updateRowWithGPTResponse_absent_row sample_services 7 "text" fresh).
  - discriminate.
  - reflexivity.
  - intros r [].
Defined.

(** *** The loop over the stream *)

Lemma consume_falsy_run (env : services) (rowId : option Z) (stream : list chunk) :
  falsy rowId = true ->
  forall text w, snd (consume env rowId stream text w) = w.
Proof.
  intros Hf. induction stream as [|[[d|]|e] stream IH]; intros text w; cbn [consume].
  - reflexivity.
  - destruct (truthy d); [ | apply IH ].
    unfold bind. rewrite (update_falsy env rowId _ w Hf). apply IH.
  - apply IH.
  - reflexivity.
Qed.

Lemma consume_throws_broken (env : services) (rowId : option Z) (stream : list chunk) :
  falsy rowId = true ->
  forall text w e, fst (consume env rowId stream text w) = Throw e -> In (Broken e) stream.
Proof.
  intros Hf. induction stream as [|[[d|]|e0] stream IH]; intros text w e; cbn [consume].
  - discriminate.
  - destruct (truthy d); [ | intros H; right; eapply IH, H ].
    unfold bind. rewrite (update_falsy env rowId _ w Hf). intros H. right. eapply IH, H.
  - intros H. right. eapply IH, H.
  - cbn. intros [= ->]. left. reflexivity.
Qed.

(** X10.  With a row identifier that is null or zero nothing of the answer is
    persisted: every update returns null without a request to Supabase, and
    the loop runs over the stream without a write, failing only where the
    stream itself breaks. *)
Theorem consume_without_row (env : services) (rowId : option Z) (stream : list chunk)
  (text : string) (w : world) :
  falsy rowId = true ->
  updateRowWithGPTResponse env rowId text w = (Ok None, w)
  /\ snd (consume env rowId stream text w) = w
  /\ (forall e, fst (consume env rowId stream text w) = Throw e -> In (Broken e) stream).
Proof.
  intros Hf. split; [ apply update_falsy, Hf | ].
  split; [ apply consume_falsy_run, Hf | ].
  intros e. apply consume_throws_broken, Hf.
Qed.

Lemma consume_without_row_witness :
  snd (consume sample_services (Some 0%Z) sample_stream "" fresh) = fresh.
Proof.
  exact (proj1 (proj2 (consume_without_row sample_services (Some 0%Z) sample_stream ""
                         fresh eq_refl))).
Defined.

Lemma deltas_cons_truthy (d : string) (stream : list chunk) :
  truthy d = true -> deltas (Part (Some d) :: stream) = d :: deltas stream.
Proof. intros H. unfold deltas. cbn [flat_map delta]. rewrite H. reflexivity. Qed.

Lemma deltas_cons_falsy (d : string) (stream : list chunk) :
  truthy d = false -> deltas (Part (Some d) :: stream) = deltas stream.
Proof. intros H. unfold deltas. cbn [flat_map delta]. rewrite H. reflexivity. Qed.

(** X8.  The answer row only ever holds what has arrived: the loop issues one
    update for each content the stream carries, in order, each with all the
    contents so far appended to the text it started from; a loop that fails
    has issued the first of these updates and no other. *)
Theorem consume_writes_running_text (env : services) (id : Z) (stream : list chunk)
  (text : string) (w : world) :
  exists k,
    trace (snd (consume env (Some id) stream text w))
    = (trace w
       ++ map (fun t => Updated id (answer t)) (firstn k (running text (deltas stream))))%list
    /\ (id <> 0%Z -> fst (consume env (Some id) stream text w) = Ok tt ->
        k = List.length (deltas stream)).
Proof.
  destruct (Z.eq_dec id 0) as [->|Hid].
  { exists 0%nat. rewrite consume_falsy_run by reflexivity. cbn. rewrite app_nil_r.
    split; [ reflexivity | intros H; destruct (H eq_refl) ]. }
  revert text w. induction stream as [|[[d|]|e] stream IH]; intros text w; cbn [consume].
  - exists 0%nat. cbn. rewrite app_nil_r. split; reflexivity.
  - destruct (truthy d) eqn:Hd.
    + rewrite (deltas_cons_truthy d stream Hd). cbn [running].
      unfold bind. rewrite (update_run env id _ w Hid).
      destruct (supabase_fails env (supabase_calls w)).
      * exists 0%nat. cbn. rewrite app_nil_r. split; [ reflexivity | discriminate ].
      * cbv zeta. destruct (filter _ (message_history w)).
        -- exists 1%nat. cbn. split; [ reflexivity | discriminate ].
        -- match goal with |- context [consume _ _ _ _ ?w0] =>
             destruct (IH (text ++ d) w0) as (k & Ht & Hk) end.
           exists (S k). rewrite Ht. cbn [trace served firstn map List.length].
           rewrite <- app_assoc. split; [ reflexivity | ].
           intros _ Hok. f_equal. apply Hk; [ exact Hid | exact Hok ].
    + rewrite (deltas_cons_falsy d stream Hd). apply IH.
  - apply IH.
  - exists 0%nat. cbn. rewrite app_nil_r. split; [ reflexivity | discriminate ].
Qed.

Example running_text_of_the_sample_stream :
  trace (snd (consume sample_services (Some 1%Z) sample_stream ""
                (snd (createRowForGPTResponse sample_services fresh))))
  = [Inserted 1 (answer ""); Updated 1 (answer "Hel"); Updated 1 (answer "Hello")].
Proof. reflexivity. Qed.

End WriteFacts.

(** ** What the model is asked, and what the reader is shown *)

Module SourceFacts.
Import Js Pipeline Run Protocol RunFacts.
Local Open Scope string_scope.

Lemma topResult_at_most_four (results : list (list found)) :
  (List.length results <= 4)%nat -> topResult results = results.
Proof.
  intros H. unfold topResult.
  destruct (Nat.ltb_spec 4 (List.length results)); [ lia | reflexivity ].
Qed.

Lemma trace_sendPayload_ok (env : services) (p : payload) (w : world) :
  supabase_fails env (supabase_calls w) = None ->
  sendPayload env p w
  = (Ok (next_id w),
     served w (message_history w ++ [(next_id w, p)]) (next_id w + 1)%Z
       [Inserted (next_id w) p]).
Proof. intros H. rewrite sendPayload_run, H. reflexivity. Qed.

(** X6.  In web mode the search is made with the rephrased message, while the
    pages are searched and the model is prompted with the message as the
    reader wrote it.  Once the two progress payloads are written the prompt
    carries every result that was not dropped, in the order of the sources;
    the cut to four results never applies, because there are at most four
    sources. *)
Theorem web_prompt (env : services) (message source rephrased docs : string)
  (normalizedData : list Pipeline.source) (w : world) :
  String.eqb source "database" = false ->
  openai_chat env "gpt-4o" rephrase_system message = Ok rephrased ->
  brave_search env rephrased = Ok docs ->
  normalizeData env docs = Ok normalizedData ->
  supabase_fails env (supabase_calls w) = None ->
  supabase_fails env (S (supabase_calls w)) = None ->
  let results := map (yield env message) normalizedData in
  topResult (successful results) = successful results
  /\ streams (trace (snd (searchEngineForSources env message source w)))
     = (streams (trace w)
        ++ [("Query: " ++ message ++ ", Top Results: "
             ++ JSON_stringify env (successful results))%string])%list.
Proof.
  intros Hmode Hchat Hsearch Hnorm Hs1 Hs2 results.
  assert (Htop : topResult (successful results) = successful results).
  { apply topResult_at_most_four.
    destruct (normalizeData_ok env docs normalizedData Hnorm) as (Hlen & _).
    pose proof (successful_length results) as Hle.
    unfold results in Hle at 2. rewrite length_map in Hle. lia. }
  split; [ exact Htop | ].
  unfold searchEngineForSources. rewrite Hmode.
  unfold rephraseInput, complete. unfold bind at 1 2. rewrite log_run.
  rewrite Hchat. unfold lift at 1. cbv iota beta.
  unfold bind at 1. rewrite Hsearch. unfold lift at 1. cbv iota beta.
  unfold bind at 1. rewrite Hnorm. unfold lift at 1. cbv iota beta.
  unfold bind at 1. rewrite trace_sendPayload_ok by exact Hs1. cbv iota beta.
  unfold bind at 1. rewrite set_vectorCount_run. cbv iota beta.
  unfold bind at 1.
  match goal with |- context [all _ ?w0] =>
    destruct (all_fetchAndProcess env message normalizedData w0) as (n & E) end.
  rewrite E. cbv iota beta.
  unfold bind at 1. rewrite set_vectorCount_run. cbv iota beta zeta.
  unfold bind at 1. rewrite trace_sendPayload_ok by exact Hs2. cbv iota beta.
  rewrite triggerLLMAndFollowup_streams. fold results. rewrite Htop.
  cbn [trace served counting logged]. rewrite !streams_app. cbn [streams flat_map app].
  rewrite !app_nil_r. reflexivity.
Qed.

Lemma web_prompt_witness :
  streams (trace (snd (searchEngineForSources seven_hits_services "q" "web" fresh)))
  = ["Query: q, Top Results: []"].
Proof.
  exact (proj2 (web_prompt seven_hits_services "q" "web" "I cannot help with that." "[]"
                  [ {| title := "one"; link := "http://one" |};
                    {| title := "two"; link := "http://two" |};
                    {| title := "three"; link := "http://three" |};
                    {| title := "four"; link := "http://four" |} ]
                  fresh eq_refl eq_refl eq_refl eq_refl eq_refl eq_refl)).
Defined.

Lemma in_topDocuments (queryEmbedding : list number) (docs : list Similarity.document)
  (d : Similarity.scored) :
  In d (Similarity.topDocuments queryEmbedding docs) ->
  exists doc, In doc docs
    /\ Similarity.scored_content d = Similarity.content doc
    /\ Similarity.scored_url d = Similarity.url doc.
Proof.
  intros H. apply in_firstn in H.
  apply (Permutation_in _ (CosineFacts.sort_permutation _ _)) in H.
  apply in_map_iff in H as (doc & <- & Hdoc). exists doc. repeat split. exact Hdoc.
Qed.

(** X7.  In database mode the reader is shown the documents the model is given:
    the payload of the sources lists, in the order of the context and under
    the same texts, the documents whose contents make up the context of the
    prompt, each a row of the table with its address; there are four of
    them, or as many as the table has rows. *)
Theorem database_sources_match_context (env : services) (message : string) (w : world)
  (queryEmbedding : list number) (embeddingsData : list Similarity.row) :
  openai_embedding env message = Ok queryEmbedding ->
  select_embeddings env = Ok embeddingsData ->
  supabase_fails env (supabase_calls w) = None ->
  supabase_fails env (S (supabase_calls w)) = None ->
  let w' := snd (searchEngineForSources env message "database" w) in
  exists sources rest,
    trace w'
    = (trace w
       ++ Inserted (next_id w) {| type := "Sources"; content := SourceList sources |}
          :: rest)%list
    /\ streams (trace w')
       = (streams (trace w)
          ++ [database_prompt (join (line_break ++ line_break) (map title sources))
                message])%list
    /\ List.length sources = Nat.min 4 (List.length embeddingsData)
    /\ Forall (fun s => exists r, In r embeddingsData
                                  /\ title s = Similarity.row_content r
                                  /\ link s = Similarity.row_url r) sources.
Proof.
  intros Hq Hrows Hs1 Hs2 w'. subst w'.
  set (docs := Similarity.documents (Number env) embeddingsData).
  set (top := Similarity.topDocuments queryEmbedding docs).
  exists (map (fun doc => {| title := Similarity.scored_content doc;
                             link := Similarity.scored_url doc |}) top).
  assert (Hrun : exists rest,
             trace (snd (searchEngineForSources env message "database" w))
             = (trace w
                ++ Inserted (next_id w)
                     {| type := "Sources";
                        content := SourceList
                          (map (fun doc => {| title := Similarity.scored_content doc;
                                              link := Similarity.scored_url doc |}) top) |}
                   :: rest)%list
             /\ streams (trace (snd (searchEngineForSources env message "database" w)))
                = (streams (trace w)
                   ++ [database_prompt (Similarity.contextText queryEmbedding docs)
                         message])%list).
  { assert (Erun : exists w2 note,
               searchEngineForSources env message "database" w
               = triggerLLMAndFollowup env
                   (database_prompt (Similarity.contextText queryEmbedding docs) message) w2
               /\ trace w2
                  = (trace w
                     ++ [Inserted (next_id w)
                           {| type := "Sources";
                              content := SourceList
                                (map (fun doc => {| title := Similarity.scored_content doc;
                                                    link := Similarity.scored_url doc |})
                                   top) |};
                         note])%list
               /\ streams [note] = []).
    { unfold searchEngineForSources. cbn [String.eqb Ascii.eqb Bool.eqb]. cbn iota.
      rewrite Hq, Hrows. unfold bind at 1 2. unfold lift at 1 2. cbv zeta.
      unfold bind at 1. rewrite trace_sendPayload_ok by exact Hs1. cbv iota beta.
      unfold bind at 1. rewrite trace_sendPayload_ok by exact Hs2. cbv iota beta.
      fold docs. fold top. eexists. eexists. split; [ reflexivity | ].
      cbn [trace served]. rewrite <- app_assoc. split; reflexivity. }
    destruct Erun as (w2 & note & -> & Ht2 & Hnote).
    destruct (ProtocolFacts.moves_triggerLLMAndFollowup true message env
                (database_prompt (Similarity.contextText queryEmbedding docs) message) w2)
      as (evs & Ht & _).
    exists (note :: evs). split.
    - rewrite Ht, Ht2. rewrite <- app_assoc. reflexivity.
    - rewrite triggerLLMAndFollowup_streams, Ht2. rewrite streams_app.
      change [Inserted (next_id w)
                {| type := "Sources";
                   content := SourceList
                     (map (fun doc => {| title := Similarity.scored_content doc;
                                         link := Similarity.scored_url doc |}) top) |};
              note]
        with ([Inserted (next_id w)
                 {| type := "Sources";
                    content := SourceList
                      (map (fun doc => {| title := Similarity.scored_content doc;
                                          link := Similarity.scored_url doc |}) top) |}]
              ++ [note])%list.
      rewrite streams_app, Hnote. cbn [streams flat_map app]. rewrite !app_nil_r.
      reflexivity. }
  destruct Hrun as (rest & Ht & Hst). exists rest.
  split; [ exact Ht | ]. split; [ | split ].
  - rewrite Hst. rewrite map_map. cbn [title]. reflexivity.
  - rewrite length_map. unfold top, Similarity.topDocuments, slice0, Similarity.similarities.
    rewrite length_firstn.
    rewrite (Permutation_length (CosineFacts.sort_permutation _ _)).
    unfold Similarity.score, docs, Similarity.documents. rewrite !length_map. reflexivity.
  - apply Forall_forall. intros s Hs. apply in_map_iff in Hs as (d & <- & Hd).
    apply in_topDocuments in Hd as (doc & Hdoc & Hc & Hu).
    unfold docs, Similarity.documents in Hdoc.
    apply in_map_iff in Hdoc as (r & <- & Hr).
    exists r. cbn in *. auto.
Qed.

Lemma database_sources_match_context_witness :
  exists sources rest,
    trace (snd (searchEngineForSources sample_services "q" "database" fresh))
    = Inserted 1 {| type := "Sources"; content := SourceList sources |} :: rest
    /\ List.length sources = 3%nat.
Proof.
  destruct (database_sources_match_context sample_services "q" fresh [1; 0]%float
              sample_rows eq_refl eq_refl eq_refl eq_refl)
    as (sources & rest & Ht & _ & Hlen & _).
  exists sources, rest. split; [ exact Ht | exact Hlen ].
Defined.

End SourceFacts.

(** ** Pages that are too short *)

Module ShortPageFacts.
Import Js Html Page Pipeline Run RunFacts.
Local Open Scope string_scope.

Lemma length_trim_start (s : string) : (String.length (trim_start s) <= String.length s)%nat.
Proof.
  induction s as [|c s IH]; cbn; [ lia | ].
  destruct (is_white_space c); cbn; lia.
Qed.

Lemma length_trim_end (s : string) : (String.length (trim_end s) <= String.length s)%nat.
Proof.
  induction s as [|c s IH]; cbn [trim_end]; [ cbn; lia | ].
  destruct (trim_end s) eqn:E.
  - destruct (is_white_space c); cbn; lia.
  - cbn in *. lia.
Qed.

Lemma length_replace_runs (s : string) :
  forall in_run, (String.length (replace_runs in_run s) <= String.length s)%nat.
Proof.
  induction s as [|c s IH]; intros in_run; cbn [replace_runs]; [ cbn; lia | ].
  destruct (is_white_space c).
  - destruct in_run; cbn; specialize (IH true); lia.
  - cbn. specialize (IH false). lia.
Qed.

Lemma length_extractMainContent (load : string -> document) (html : string) :
  (String.length (extractMainContent load html) <= String.length (main_text (load html)))%nat.
Proof.
  unfold extractMainContent. cbv zeta. rewrite PageFacts.select_remove_text.
  unfold trim, collapse_white_space.
  pose proof (length_trim_end (trim_start (replace_runs false (main_text (load html))))).
  pose proof (length_trim_start (replace_runs false (main_text (load html)))).
  pose proof (length_replace_runs (main_text (load html)) false).
  lia.
Qed.

(** X12.  The extracted text is never longer than the text the page shows in its
    body, so a page that shows fewer than 250 characters there is never used
    as a source: [fetchAndProcess] answers null for it, however long the
    markup is and whatever the splitter and the vector store would do. *)
Theorem short_page_is_dropped (env : services) (message : string) (item : source)
  (html : string) (w : world) :
  outcome (fetch env (link item)) = Ok html ->
  (String.length (main_text (cheerio_load env html)) < 250)%nat ->
  (String.length (extractMainContent (cheerio_load env) html)
   <= String.length (main_text (cheerio_load env html)))%nat
  /\ fst (fetchAndProcess env message item w) = Ok None.
Proof.
  intros Hfetch Hshort. split; [ apply length_extractMainContent | ].
  destruct (fetchAndProcess_run env message item w) as (n & ->). cbn [fst]. f_equal.
  destruct (Z.ltb_spec (elapsed (fetch env (link item))) 5000) as [Hfast|Hslow].
  - apply (yield_short env message item (extractMainContent (cheerio_load env) html)).
    + unfold race, fetchPageContent. cbn [elapsed outcome].
      destruct (Z.ltb_spec (elapsed (fetch env (link item))) 5000); [ | lia ].
      rewrite Hfetch. reflexivity.
    + pose proof (length_extractMainContent (cheerio_load env) html). lia.
  - apply yield_timeout, Hslow.
Qed.

Lemma short_page_is_dropped_witness :
  fst (fetchAndProcess sample_services "q" {| title := "t"; link := "http://x" |} fresh)
  = Ok None.
Proof.
  apply (short_page_is_dropped sample_services "q" {| title := "t"; link := "http://x" |}
           "<html>" fresh eq_refl).
  cbn. lia.
Defined.

(** Markup of any length around a short text. *)
Example long_markup_short_text :
  let page := [ Element "body" [ Element "script" [ Text (filler 400) ]; Text "Hello" ] ] in
  extractMainContent (fun _ => page) "<body>" = "Hello".
Proof. reflexivity. Qed.

End ShortPageFacts.

(** ** Cosine similarity, further *)

Module VectorFacts.
Import Js Similarity Cosine Float.
Local Open Scope float_scope.

(** *** Products commute, [NaN] absorbs *)

Lemma SFmul_comm (x y : spec_float) : SF64mul x y = SF64mul y x.
Proof.
  destruct x as [sx|sx| |sx mx ex], y as [sy|sy| |sy my ey]; cbn;
    rewrite ?(xorb_comm sx sy), ?(Pos.mul_comm mx my), ?(Z.add_comm ex ey); reflexivity.
Qed.

Lemma mul_comm (x y : float) : x * y = y * x.
Proof. apply Prim2SF_inj. rewrite !mul_spec. apply SFmul_comm. Qed.

Lemma add_nan_l (x y : float) : is_nan x = true -> is_nan (x + y) = true.
Proof.
  rewrite !Binary64.is_nan_spec, add_spec.
  destruct (Prim2SF x); try discriminate. reflexivity.
Qed.

Lemma add_nan_r (x y : float) : is_nan y = true -> is_nan (x + y) = true.
Proof.
  rewrite !Binary64.is_nan_spec, add_spec.
  destruct (Prim2SF y); try discriminate. destruct (Prim2SF x); reflexivity.
Qed.

Lemma mul_nan_r (x y : float) : is_nan y = true -> is_nan (x * y) = true.
Proof.
  rewrite !Binary64.is_nan_spec, mul_spec.
  destruct (Prim2SF y); try discriminate. destruct (Prim2SF x); reflexivity.
Qed.

(** *** The dot product *)

Lemma dot_comm (a : list number) :
  forall b acc,
    fold_left (fun sum p => sum + fst p * snd p) (combine a b) acc
    = fold_left (fun sum p => sum + fst p * snd p) (combine b a) acc.
Proof.
  induction a as [|x a IH]; intros [|y b] acc; cbn; try reflexivity.
  rewrite (mul_comm x y). apply IH.
Qed.

Lemma dotProduct_dot (a b : list number) :
  (List.length a <= List.length b)%nat -> dotProduct a b = dot a b.
Proof.
  intros H. unfold dotProduct, reduce, dot.
  rewrite CosineFacts.dotProduct_from by (cbn; lia). reflexivity.
Qed.

(** Once the sum is [NaN] it stays [NaN]. *)
Lemma dotProduct_nan_sticks (vecB vecA : list number) :
  forall idx acc,
    is_nan acc = true ->
    is_nan (reduce_from (fun sum a i => sum + a * to_number (nth_error vecB i)) idx vecA acc)
    = true.
Proof.
  induction vecA as [|x vecA IH]; intros idx acc H; cbn [reduce_from]; [ exact H | ].
  apply IH, add_nan_l, H.
Qed.

Lemma dotProduct_past_the_end (vecB vecA : list number) :
  forall idx acc,
    (idx <= List.length vecB)%nat ->
    (List.length vecB < idx + List.length vecA)%nat ->
    is_nan (reduce_from (fun sum a i => sum + a * to_number (nth_error vecB i)) idx vecA acc)
    = true.
Proof.
  induction vecA as [|x vecA IH]; intros idx acc Hidx H; cbn [reduce_from].
  - cbn in H. lia.
  - destruct (Nat.ltb_spec idx (List.length vecB)) as [Hin|Hout].
    + apply IH; cbn in H; lia.
    + apply dotProduct_nan_sticks, add_nan_r, mul_nan_r.
      apply nth_error_None in Hout. rewrite Hout. reflexivity.
Qed.

(** X15.  For vectors of one length the similarity is symmetric, to the last bit:
    the products are the same numbers added in the same order. *)
Theorem cosineSimilarity_symmetric (a b : list number) :
  List.length a = List.length b -> cosineSimilarity a b = cosineSimilarity b a.
Proof.
  intros H. rewrite !CosineFacts.cosineSimilarity_unfold.
  rewrite !dotProduct_dot by lia. unfold dot, divisor.
  rewrite (dot_comm a b). rewrite (mul_comm (magnitudeOf a) (magnitudeOf b)). reflexivity.
Qed.

Lemma cosineSimilarity_symmetric_witness :
  cosineSimilarity [1; 2; 3] [4; 5; 6] = cosineSimilarity [4; 5; 6] [1; 2; 3].
Proof. apply (cosineSimilarity_symmetric [1; 2; 3] [4; 5; 6]). reflexivity. Defined.

(** It is not symmetric across lengths: the first vector decides how many
    components are read. *)
Example cosineSimilarity_not_symmetric :
  is_nan (cosineSimilarity [1; 2] [1]) = true
  /\ is_nan (cosineSimilarity [1] [1; 2]) = false.
Proof. split; reflexivity. Qed.

(** X16.  A stored vector that is shorter than the query scores [NaN]: the dot
    product reads past its end, where JavaScript answers [undefined]. *)
Theorem cosineSimilarity_short_vector (vecA vecB : list number) :
  (List.length vecB < List.length vecA)%nat ->
  is_nan (cosineSimilarity vecA vecB) = true.
Proof.
  intros H. rewrite CosineFacts.cosineSimilarity_unfold, Binary64.div_is_nan.
  unfold dotProduct, reduce. rewrite dotProduct_past_the_end by (cbn; lia). reflexivity.
Qed.

Lemma cosineSimilarity_short_vector_witness :
  is_nan (cosineSimilarity [1; 2; 3] [1; 2]) = true.
Proof. apply (cosineSimilarity_short_vector [1; 2; 3] [1; 2]). cbn. lia. Defined.

(** *** One ranking *)

(** X18.  When every row scores a number the ranking is settled by the scores and
    the order of the table alone: every stable ranking in descending order,
    however an engine computes it, is the ranking of the handler, and has
    the same first four documents. *)
Theorem ranking_is_engine_independent (queryEmbedding : list number)
  (docs : list document) (ranked : list scored) :
  numeric (score queryEmbedding docs) ->
  stable_ranking (score queryEmbedding docs) ranked ->
  ranked = similarities queryEmbedding docs
  /\ firstn 4 ranked = topDocuments queryEmbedding docs.
Proof.
  intros Hnum Hranked.
  assert (E : ranked = similarities queryEmbedding docs)
    by apply (CosineFacts.ranking_unique _ _ Hnum Hranked).
  split; [ exact E | rewrite E; reflexivity ].
Qed.

Lemma ranking_is_engine_independent_witness :
  firstn 4 (similarities [1; 0] (documents (fun _ => 0) Run.sample_rows))
  = topDocuments [1; 0] (documents (fun _ => 0) Run.sample_rows).
Proof.
  apply (ranking_is_engine_independent [1; 0] (documents (fun _ => 0) Run.sample_rows)).
  - repeat constructor.
  - apply CosineFacts.sort_is_stable_ranking. repeat constructor.
Defined.

(** *** A query without direction *)

Lemma sub_nan_r (x y : float) : is_nan y = true -> is_nan (x - y) = true.
Proof.
  rewrite !Binary64.is_nan_spec, sub_spec.
  destruct (Prim2SF y); try discriminate. destruct (Prim2SF x); reflexivity.
Qed.

Lemma ltb_nan_r (x y : float) : is_nan y = true -> (x <? y) = false.
Proof.
  rewrite Binary64.is_nan_spec, FloatAxioms.ltb_spec.
  destruct (Prim2SF y); try discriminate. destruct (Prim2SF x); reflexivity.
Qed.

Lemma insert_nan (x : scored) (l : list scored) :
  is_nan (similarity x) = true -> insert by_similarity x l = x :: l.
Proof.
  intros H. destruct l as [|y l]; [ reflexivity | ]. cbn [insert].
  unfold sorts_after, by_similarity. rewrite ltb_nan_r; [ reflexivity | ].
  apply sub_nan_r, H.
Qed.

Lemma sort_all_nan (l : list scored) :
  Forall (fun a => is_nan (similarity a) = true) l -> sort by_similarity l = l.
Proof.
  induction 1 as [|x l Hx Hl IH]; [ reflexivity | ].
  change (sort by_similarity (x :: l)) with (insert by_similarity x (sort by_similarity l)).
  rewrite IH. apply insert_nan, Hx.
Qed.

Lemma cosineSimilarity_zero_query (q e : list number) :
  all_zero q -> is_nan (cosineSimilarity q e) = true.
Proof.
  intros Hq. rewrite CosineFacts.cosineSimilarity_unfold.
  apply Binary64.div_zero_or_nan.
  - unfold dotProduct, reduce. apply CosineFacts.dotProduct_zero_l; [ exact Hq | reflexivity ].
  - apply CosineFacts.divisor_zero_magnitude. left.
    rewrite (CosineFacts.magnitudeOf_zero q Hq). reflexivity.
Qed.

(** X17.  A query whose embedding is empty or all zeros ranks nothing: every row
    scores [NaN], the sort leaves the rows in the order of the table, and the
    context is made of the first four rows, whatever they are about. *)
Theorem zero_query_keeps_table_order (queryEmbedding : list number) (docs : list document) :
  all_zero queryEmbedding ->
  Forall (fun d => is_nan (similarity d) = true) (score queryEmbedding docs)
  /\ similarities queryEmbedding docs = score queryEmbedding docs
  /\ map scored_content (topDocuments queryEmbedding docs) = map content (firstn 4 docs)
  /\ contextText queryEmbedding docs
     = join (String "010" (String "010" EmptyString)) (map content (firstn 4 docs)).
Proof.
  intros Hq.
  assert (Hnan : Forall (fun d => is_nan (similarity d) = true) (score queryEmbedding docs)).
  { unfold score. apply Forall_forall. intros d Hd.
    apply in_map_iff in Hd as (doc & <- & _). apply cosineSimilarity_zero_query, Hq. }
  assert (Hsort : similarities queryEmbedding docs = score queryEmbedding docs)
    by apply sort_all_nan, Hnan.
  assert (Htop : map scored_content (topDocuments queryEmbedding docs)
                 = map content (firstn 4 docs)).
  { unfold topDocuments, slice0. rewrite Hsort. unfold score.
    rewrite <- !firstn_map, map_map. reflexivity. }
  split; [ exact Hnan | ]. split; [ exact Hsort | ]. split; [ exact Htop | ].
  unfold contextText. rewrite Htop. reflexivity.
Qed.

Lemma zero_query_keeps_table_order_witness :
  map scored_content (topDocuments [] sample_documents) = ["A"; "Z"; "B"]%string.
Proof.
  exact (proj1 (proj2 (proj2 (zero_query_keeps_table_order [] sample_documents
                                (Forall_nil _))))).
Defined.

End VectorFacts.

(** ** Vectors read from text, and the links that are kept *)

Module TextFacts.
Import Js Similarity Pipeline Text.
Local Open Scope string_scope.

(** *** Occurrences *)

Lemma includes_unfold (sub s : string) :
  includes sub s =
  if String.prefix sub s then true
  else match s with
       | "" => false
       | String _ s' => includes sub s'
       end.
Proof. destruct s; reflexivity. Qed.

Lemma prefix_split (sub : string) :
  forall s, String.prefix sub s = true -> exists post, s = sub ++ post.
Proof.
  induction sub as [|a sub IH]; intros s H.
  - exists s. reflexivity.
  - destruct s as [|b s]; cbn in H; [ discriminate | ].
    destruct (ascii_dec a b) as [<-|]; [ | discriminate ].
    destruct (IH s H) as (post & ->). exists post. reflexivity.
Qed.

Lemma includes_occurs (sub s : string) : includes sub s = true <-> occurs sub s.
Proof.
  split.
  - induction s as [|c s IH]; rewrite includes_unfold;
      destruct (String.prefix sub _) eqn:Hp; intros H.
    + apply prefix_split in Hp as (post & ->). exists "", post. reflexivity.
    + discriminate.
    + apply prefix_split in Hp as (post & ->). exists "", post. reflexivity.
    + destruct (IH H) as (pre & post & ->). exists (String c pre), post. reflexivity.
  - intros (pre & post & ->). induction pre as [|c pre IH]; rewrite includes_unfold.
    + cbn [append]. rewrite Strings.prefix_append. reflexivity.
    + destruct (String.prefix sub _); [ reflexivity | exact IH ].
Qed.

Lemma truthy_nonempty (s : string) : truthy s = true <-> s <> "".
Proof. unfold truthy. rewrite negb_true_iff. apply String.eqb_neq. Qed.

Lemma keeps_qualifies (doc : search_hit) : keeps doc = true <-> qualifies doc.
Proof.
  unfold keeps, qualifies, present, text_of_field.
  rewrite !andb_true_iff, negb_true_iff.
  destruct (hit_title doc) as [t|], (hit_link doc) as [l|].
  - rewrite !truthy_nonempty. split.
    + intros ((Ht & Hl) & Hi). exists t, l. repeat split; auto.
      intros Ho. apply includes_occurs in Ho. congruence.
    + intros (t' & l' & [= <-] & [= <-] & Ht & Hl & Ho). repeat split; auto.
      destruct (includes "brave.com" l) eqn:E; [ | reflexivity ].
      destruct Ho. apply includes_occurs, E.
  - split; [ intros ((_ & [=]) & _) | intros (t' & l' & _ & [=] & _) ].
  - split; [ intros (([=] & _) & _) | intros (t' & l' & [=] & _) ].
  - split; [ intros (([=] & _) & _) | intros (t' & l' & [=] & _) ].
Qed.

(** X13.  A search hit is kept exactly when it has a title and a link, neither of
    them empty, and [brave.com] occurs nowhere in the link; so no source the
    reader is shown, and no page that is fetched, has a link in which
    [brave.com] occurs, in the host or anywhere else. *)
Theorem normalizeData_keeps_qualifying_hits (env : services) (docs : string)
  (parsed : list search_hit) :
  JSON_parse env docs = Ok parsed ->
  (forall doc, keeps doc = true <-> qualifies doc)
  /\ exists normalizedData,
       normalizeData env docs = Ok normalizedData
       /\ map (fun item => {| hit_title := Some (title item); hit_link := Some (link item) |})
              normalizedData
          = firstn 4 (filter keeps parsed)
       /\ Forall (fun item => title item <> "" /\ link item <> ""
                              /\ ~ occurs "brave.com" (link item)) normalizedData.
Proof.
  intros Hparse. split; [ exact keeps_qualifies | ].
  unfold normalizeData. rewrite Hparse. eexists. split; [ reflexivity | ].
  unfold slice0. split.
  - rewrite map_map. rewrite <- (map_id (firstn 4 (filter keeps parsed))) at 2.
    apply map_ext_in. intros doc Hdoc. apply RunFacts.in_firstn in Hdoc.
    apply filter_In in Hdoc as (_ & Hk). apply keeps_qualifies in Hk
      as (t & l & Ht & Hl & _). destruct doc as [dt dl]. cbn in *. subst. reflexivity.
  - apply Forall_forall. intros item Hitem.
    apply in_map_iff in Hitem as (doc & <- & Hdoc). apply RunFacts.in_firstn in Hdoc.
    apply filter_In in Hdoc as (_ & Hk). apply keeps_qualifies in Hk
      as (t & l & Ht & Hl & Hne & Hne' & Ho). cbn [title link]. rewrite Ht, Hl. cbn.
    auto.
Qed.

Lemma normalizeData_keeps_qualifying_hits_witness :
  exists normalizedData,
    normalizeData Run.seven_hits_services "[...]" = Ok normalizedData
    /\ Forall (fun item => ~ occurs "brave.com" (link item)) normalizedData.
Proof.
  destruct (normalizeData_keeps_qualifying_hits Run.seven_hits_services "[...]"
              Run.seven_hits eq_refl) as (_ & normalizedData & Hn & _ & Hall).
  exists normalizedData. split; [ exact Hn | ].
  eapply Forall_impl; [ | exact Hall ]. intros item (_ & _ & Ho). exact Ho.
Defined.

(** The provider's name anywhere in a link is enough to drop the hit. *)
Example link_with_the_name_in_its_path :
  keeps {| hit_title := Some "Review"; hit_link := Some "https://example.org/brave.com-review" |}
  = false.
Proof. reflexivity. Qed.

(** *** The text of a vector *)

Lemma free_of_app (bad : ascii -> bool) (s t : string) :
  free_of bad (s ++ t) = (free_of bad s && free_of bad t)%bool.
Proof.
  induction s as [|c s IH]; cbn; [ reflexivity | ].
  rewrite IH, andb_assoc. reflexivity.
Qed.

Lemma plain_no_comma (s : string) : plain s = true -> free_of is_comma s = true.
Proof.
  unfold plain. induction s as [|c s IH]; cbn; [ reflexivity | ].
  rewrite !andb_true_iff, !negb_true_iff, orb_false_iff.
  intros ((Hc & _) & H). rewrite Hc. split; [ reflexivity | apply IH, H ].
Qed.

Lemma plain_no_brace (s : string) : plain s = true -> free_of is_brace s = true.
Proof.
  unfold plain. induction s as [|c s IH]; cbn; [ reflexivity | ].
  rewrite !andb_true_iff, !negb_true_iff, orb_false_iff.
  intros ((_ & Hc) & H). rewrite Hc. split; [ reflexivity | apply IH, H ].
Qed.

Lemma join_no_brace (tokens : list string) :
  Forall (fun t => plain t = true) tokens -> free_of is_brace (join "," tokens) = true.
Proof.
  unfold join. induction 1 as [|t tokens Ht Htokens IH]; [ reflexivity | ].
  destruct tokens as [|t' tokens].
  - apply plain_no_brace, Ht.
  - rewrite PageFacts.concat_cons by discriminate.
    rewrite !free_of_app, (plain_no_brace t Ht), IH. reflexivity.
Qed.

Lemma remove_braces_free (s : string) : free_of is_brace s = true -> remove_braces s = s.
Proof.
  induction s as [|c s IH]; cbn; [ reflexivity | ].
  rewrite andb_true_iff, negb_true_iff. unfold is_brace. intros (Hc & H).
  rewrite Hc, (IH H). reflexivity.
Qed.

Lemma remove_braces_app (s t : string) :
  remove_braces (s ++ t) = remove_braces s ++ remove_braces t.
Proof.
  induction s as [|c s IH]; cbn; [ reflexivity | ].
  rewrite IH. destruct (Ascii.eqb c "{" || Ascii.eqb c "}")%bool; reflexivity.
Qed.

Lemma remove_braces_braced (tokens : list string) :
  Forall (fun t => plain t = true) tokens ->
  remove_braces (braced tokens) = join "," tokens.
Proof.
  intros H. unfold braced. cbn [append remove_braces Ascii.eqb Bool.eqb orb].
  rewrite remove_braces_app, (remove_braces_free _ (join_no_brace tokens H)).
  cbn. apply Strings.append_nil_r.
Qed.

Lemma split_from_token (t : string) :
  free_of is_comma t = true ->
  forall cur,
    split_from "," cur t = [cur ++ t]
    /\ forall rest,
         split_from "," cur (t ++ String "," rest) = (cur ++ t) :: split_from "," "" rest.
Proof.
  induction t as [|c t IH]; cbn [free_of]; intros H cur.
  - rewrite Strings.append_nil_r. split; reflexivity.
  - apply andb_true_iff in H as (Hc & H). apply negb_true_iff in Hc. unfold is_comma in Hc.
    cbn [append split_from]. rewrite Hc.
    destruct (IH H (cur ++ String c "")) as (E1 & E2).
    rewrite Strings.append_assoc in E1. cbn [append] in E1.
    split; [ exact E1 | ]. intros rest. rewrite E2, Strings.append_assoc. reflexivity.
Qed.

Lemma split_join (tokens : list string) :
  tokens <> [] -> Forall (fun t => plain t = true) tokens ->
  split "," (join "," tokens) = tokens.
Proof.
  unfold split, join. intros Hne H. induction H as [|t tokens Ht Htokens IH];
    [ destruct (Hne eq_refl) | ].
  destruct (split_from_token t (plain_no_comma t Ht) "") as (E1 & E2).
  destruct tokens as [|t' tokens].
  - exact E1.
  - rewrite PageFacts.concat_cons by discriminate.
    cbn [append]. rewrite E2. cbn [append]. f_equal. apply IH. discriminate.
Qed.

(** X14.  A vector the driver hands over as text in the notation of Postgres
    arrays, [{t1,...,tn}], is read component by component: the embedding of
    the document is the list of the numbers its components convert to, in
    order; content and address of the row are taken over. *)
Theorem documents_reads_braced_text (Number : string -> number) (tokens : list string)
  (r : row) (before after : list row) :
  tokens <> [] ->
  Forall (fun t => plain t = true) tokens ->
  row_embedding r = EmbeddingText (braced tokens) ->
  documents Number (before ++ r :: after)
  = (documents Number before
     ++ {| embedding := map Number tokens; Similarity.content := row_content r;
          url := row_url r |}
        :: documents Number after)%list.
Proof.
  intros Hne H Hr. unfold documents. rewrite map_app. cbn [map]. rewrite Hr.
  rewrite (remove_braces_braced tokens H), (split_join tokens Hne H). reflexivity.
Qed.

Lemma documents_reads_braced_text_witness :
  documents (fun t => if String.eqb t "0.5" then 0.5%float else 2%float)
    [ {| row_embedding := EmbeddingText "{0.5,2}"; row_content := "A"; row_url := "a" |} ]
  = [ {| embedding := [0.5; 2]%float; Similarity.content := "A"; url := "a" |} ].
Proof.
  exact (documents_reads_braced_text
           (fun t => if String.eqb t "0.5" then 0.5%float else 2%float) ["0.5"; "2"]
           {| row_embedding := EmbeddingText "{0.5,2}"; row_content := "A"; row_url := "a" |}
           [] [] ltac:(discriminate) ltac:(repeat constructor) eq_refl).
Defined.

(** The text of the empty vector is read as a vector of one component, the
    number the empty string converts to; in the notation of pgvector, with
    square brackets, the brackets stay on the first and the last
    component. *)
Example documents_reads_other_texts (Number : string -> number) :
  map embedding
    (documents Number
       [ {| row_embedding := EmbeddingText "{}"; row_content := "A"; row_url := "a" |};
         {| row_embedding := EmbeddingText "[0.5,2]"; row_content := "B"; row_url := "b" |} ])
  = [ [Number ""]; [Number "[0.5"; Number "2]"] ].
Proof. reflexivity. Qed.

End TextFacts.

(** ** The web mode across the two revisions *)

Module RevisionFacts.
Import Js Pipeline Run Revision RunFacts.
Local Open Scope string_scope.

Section Simulation.
Context (t1 t2 : list event).

Notation "c1 ~ c2" := (sim t1 t2 c1 c2) (at level 70).

(** *** Sequencing *)

Lemma sim_ret {A : Type} (a : A) : ret a ~ ret a.
Proof. intros w1 w2 H. split; [ reflexivity | exact H ]. Qed.

Lemma sim_throw {A : Type} (e : exception) : @throw A e ~ throw e.
Proof. intros w1 w2 H. split; [ reflexivity | exact H ]. Qed.

Lemma sim_lift {A : Type} (r : result A) : lift r ~ lift r.
Proof. intros w1 w2 H. split; [ reflexivity | exact H ]. Qed.

Lemma sim_bind {A B : Type} (c1 c2 : M A) (k1 k2 : A -> M B) :
  c1 ~ c2 -> (forall a, k1 a ~ k2 a) -> bind c1 k1 ~ bind c2 k2.
Proof.
  intros Hc Hk w1 w2 Hw. destruct (Hc w1 w2 Hw) as (Hr & Hw'). unfold bind.
  destruct (c1 w1) as [[a|e] w1'], (c2 w2) as [[a'|e'] w2']; cbn [fst snd] in *;
    try discriminate Hr.
  - injection Hr as <-. apply Hk, Hw'.
  - split; [ congruence | exact Hw' ].
Qed.

Lemma sim_try_catch {A : Type} (c1 c2 : M A) (h1 h2 : exception -> M A) :
  c1 ~ c2 -> (forall e, h1 e ~ h2 e) -> try_catch c1 h1 ~ try_catch c2 h2.
Proof.
  intros Hc Hh w1 w2 Hw. destruct (Hc w1 w2 Hw) as (Hr & Hw'). unfold try_catch.
  destruct (c1 w1) as [[a|e] w1'], (c2 w2) as [[a'|e'] w2']; cbn [fst snd] in *;
    try discriminate Hr.
  - split; [ exact Hr | exact Hw' ].
  - injection Hr as <-. apply Hh, Hw'.
Qed.

Lemma sim_all {A B : Type} (f g : A -> M B) (l : list A) :
  (forall x, f x ~ g x) -> all (map f l) ~ all (map g l).
Proof.
  intros H. induction l as [|x l IH]; cbn [map all]; [ apply sim_ret | ].
  apply sim_bind; [ apply H | intros a ].
  apply sim_bind; [ exact IH | intros rest; apply sim_ret ].
Qed.

(** *** The state *)

Lemma alike_served (w1 w2 : world) (rows1 rows2 : list (Z * payload)) (n1 n2 : Z)
  (evs : list event) :
  alike t1 t2 w1 w2 -> rows1 = rows2 -> n1 = n2 ->
  alike t1 t2 (served w1 rows1 n1 evs) (served w2 rows2 n2 (map upgrade evs)).
Proof.
  intros (Hm & Hn & Hs & Hv & old & Ht1 & Ht2) -> ->. unfold alike.
  cbn [served message_history next_id supabase_calls vectorCount trace].
  rewrite Hs, Hv. repeat (split; [ reflexivity | ]).
  exists (old ++ evs)%list. rewrite Ht1, Ht2, map_app, !app_assoc. split; reflexivity.
Qed.

Lemma sim_log (e : event) : log e ~ log (upgrade e).
Proof.
  intros w1 w2 (Hm & Hn & Hs & Hv & old & Ht1 & Ht2). split; [ reflexivity | ].
  unfold alike. cbn [log snd message_history next_id supabase_calls vectorCount trace].
  repeat (split; [ assumption | ]).
  exists (old ++ [e])%list. rewrite Ht1, Ht2, map_app, !app_assoc. split; reflexivity.
Qed.

Lemma sim_set_vectorCount (f : nat -> nat) : set_vectorCount f ~ set_vectorCount f.
Proof.
  intros w1 w2 (Hm & Hn & Hs & Hv & Ht). split; [ reflexivity | ].
  unfold alike. cbn [set_vectorCount snd message_history next_id supabase_calls vectorCount
                       trace].
  rewrite Hv. repeat (split; [ assumption || reflexivity | ]). exact Ht.
Qed.

(** *** Supabase *)

Lemma sim_insert_row (env : services) (p : payload) : insert_row env p ~ insert_row env p.
Proof.
  intros w1 w2 Hw. pose proof Hw as (Hm & Hn & Hs & _). unfold insert_row.
  rewrite Hs. destruct (supabase_fails env (supabase_calls w2)); cbn [fst snd].
  - split; [ reflexivity | ]. apply (alike_served _ _ _ _ _ _ [] Hw); assumption.
  - rewrite Hn. split; [ reflexivity | ].
    apply (alike_served _ _ _ _ _ _ [Inserted (next_id w2) p] Hw); congruence.
Qed.

Lemma sim_update_row (env : services) (rowId : Z) (p : payload) :
  update_row env rowId p ~ update_row env rowId p.
Proof.
  intros w1 w2 Hw. pose proof Hw as (Hm & Hn & Hs & _). unfold update_row.
  rewrite Hs. destruct (supabase_fails env (supabase_calls w2)); cbn [fst snd].
  - split; [ reflexivity | ]. apply (alike_served _ _ _ _ _ _ [] Hw); assumption.
  - rewrite Hm. split; [ reflexivity | ].
    apply (alike_served _ _ _ _ _ _ [Updated rowId p] Hw); congruence.
Qed.

Lemma sim_first_id (d : option (list Z)) : first_id d ~ first_id d.
Proof. destruct d as [[|id d]|]; cbn [first_id]; apply sim_ret || apply sim_throw. Qed.

Lemma sim_sendPayload (env : services) (p : payload) : sendPayload env p ~ sendPayload env p.
Proof.
  unfold sendPayload. apply sim_try_catch; [ | intros e; apply sim_throw ].
  apply sim_bind; [ apply sim_insert_row | intros r ].
  destruct (error r); [ apply sim_throw | apply sim_first_id ].
Qed.

Lemma sim_createRow (env : services) (generateUniqueStreamId : unit -> string) :
  Earlier.createRowForGPTResponse env generateUniqueStreamId ~ createRowForGPTResponse env.
Proof.
  unfold Earlier.createRowForGPTResponse, createRowForGPTResponse. cbv zeta.
  apply sim_bind; [ apply sim_insert_row | intros r ].
  destruct (error r); [ apply sim_throw | ].
  destruct (data r); [ | apply sim_ret ].
  apply sim_bind; [ apply sim_first_id | intros id; apply sim_ret ].
Qed.

Lemma sim_update (env : services) (rowId : option Z) (text : string) :
  updateRowWithGPTResponse env rowId text ~ updateRowWithGPTResponse env rowId text.
Proof.
  unfold updateRowWithGPTResponse. destruct rowId as [id|]; [ | apply sim_ret ].
  destruct (falsy (Some id)); [ apply sim_ret | ].
  apply sim_try_catch; [ | intros e; apply sim_throw ].
  apply sim_bind; [ apply sim_update_row | intros r ].
  destruct (error r); [ apply sim_throw | ].
  destruct (data r); [ | apply sim_ret ].
  apply sim_bind; [ apply sim_first_id | intros id'; apply sim_ret ].
Qed.

Lemma sim_consume (env : services) (rowId : option Z) (stream : list chunk) :
  forall text, consume env rowId stream text ~ consume env rowId stream text.
Proof.
  induction stream as [|[[d|]|e] stream IH]; intros text; cbn [consume].
  - apply sim_ret.
  - destruct (truthy d); [ | apply IH ].
    apply sim_bind; [ apply sim_update | intros _; apply IH ].
  - apply IH.
  - apply sim_throw.
Qed.

(** *** The handler, function by function *)

Section Handler.
Context (env : services) (generateUniqueStreamId : unit -> string).
Hypothesis rephrases_alike :
  forall m, openai_chat env "gpt-4o" rephrase_system m
            = openai_chat env "gpt-3.5-turbo" rephrase_system m.
Hypothesis answers_alike :
  forall input, openai_stream env "gpt-4o" answer_system input
                = openai_stream env "gpt-3.5-turbo" Earlier.answer_system input.

Lemma sim_rephraseInput (m : string) : Earlier.rephraseInput env m ~ rephraseInput env m.
Proof.
  unfold Earlier.rephraseInput, rephraseInput, complete.
  apply sim_bind; [ apply (sim_log (Completed "gpt-3.5-turbo" rephrase_system m)) | intros _ ].
  rewrite rephrases_alike. apply sim_lift.
Qed.

Lemma sim_generateFollowup (m : string) : generateFollowup env m ~ generateFollowup env m.
Proof.
  unfold generateFollowup, complete.
  apply sim_bind; [ | intros _; apply sim_lift ].
  apply (sim_log (Completed "gpt-4" (followup_system m) (followup_user m))).
Qed.

Lemma sim_getGPTResults (input : string) :
  Earlier.getGPTResults env generateUniqueStreamId input ~ getGPTResults env input.
Proof.
  unfold Earlier.getGPTResults, getGPTResults, open_stream. cbv zeta.
  apply sim_bind; [ | intros stream ].
  { apply sim_bind; [ | intros _; rewrite answers_alike; apply sim_lift ].
    apply (sim_log (StreamOpened "gpt-3.5-turbo" Earlier.answer_system input)). }
  apply sim_bind; [ apply sim_createRow | intros rowId ].
  apply sim_bind; [ apply sim_sendPayload | intros _; apply sim_consume ].
Qed.

Lemma sim_triggerLLMAndFollowup (input : string) :
  Earlier.triggerLLMAndFollowup env generateUniqueStreamId input
  ~ triggerLLMAndFollowup env input.
Proof.
  unfold Earlier.triggerLLMAndFollowup, triggerLLMAndFollowup.
  apply sim_bind; [ apply sim_getGPTResults | intros _ ].
  apply sim_bind; [ apply sim_generateFollowup | intros reply ].
  apply sim_bind; [ apply sim_sendPayload | intros _; apply sim_ret ].
Qed.

Lemma sim_fetchAndProcess (message : string) (item : source) :
  fetchAndProcess env message item ~ fetchAndProcess env message item.
Proof.
  unfold fetchAndProcess. apply sim_try_catch.
  - apply sim_bind; [ apply sim_lift | intros htmlContent ].
    destruct (String.length htmlContent <? 250)%nat; [ apply sim_ret | ].
    apply sim_bind; [ apply sim_lift | intros splitText ].
    apply sim_bind; [ apply sim_lift | intros vectorStore ].
    apply sim_bind; [ apply sim_set_vectorCount | intros _ ].
    apply sim_bind; [ apply sim_lift | intros docs; apply sim_ret ].
  - intros e. apply sim_bind; [ apply sim_set_vectorCount | intros _; apply sim_ret ].
Qed.

Lemma sim_searchEngineForSources (message source : string) :
  String.eqb source "database" = false ->
  Earlier.searchEngineForSources env generateUniqueStreamId message
  ~ searchEngineForSources env message source.
Proof.
  intros Hmode. unfold Earlier.searchEngineForSources, searchEngineForSources.
  rewrite Hmode.
  apply sim_bind; [ apply sim_rephraseInput | intros rephrasedMessage ].
  apply sim_bind; [ apply sim_lift | intros docs ].
  apply sim_bind; [ apply sim_lift | intros normalizedData ].
  apply sim_bind; [ apply sim_sendPayload | intros _ ].
  apply sim_bind; [ apply sim_set_vectorCount | intros _ ].
  apply sim_bind; [ apply sim_all, sim_fetchAndProcess | intros results ].
  apply sim_bind; [ apply sim_set_vectorCount | intros _ ].
  cbv zeta.
  apply sim_bind; [ apply sim_sendPayload | intros _ ].
  apply sim_triggerLLMAndFollowup.
Qed.

Lemma sim_POST (req : request) :
  (forall b, req_json req = Ok b -> String.eqb (embeddingSource b) "database" = false) ->
  Earlier.POST env generateUniqueStreamId req ~ POST env req.
Proof.
  intros Hmode. unfold Earlier.POST, POST.
  apply sim_try_catch; [ | intros e; apply sim_ret ].
  destruct (req_json req) as [b|e] eqn:E.
  - assert (Hrest :
      (sendPayload env {| type := "Query"; content := Words (message b) |} ;;
       Earlier.searchEngineForSources env generateUniqueStreamId (message b) ;;
       ret processing)
      ~ (sendPayload env {| type := "Query"; content := Words (message b) |} ;;
         searchEngineForSources env (message b) (embeddingSource b) ;;
         ret processing)).
    { apply sim_bind; [ apply sim_sendPayload | intros _ ].
      apply sim_bind; [ | intros _; apply sim_ret ].
      apply sim_searchEngineForSources, Hmode. reflexivity. }
    intros w1 w2 Hw. exact (Hrest w1 w2 Hw).
  - intros w1 w2 Hw. split; [ reflexivity | exact Hw ].
Qed.

End Handler.
End Simulation.

Lemma alike_start (w : world) : alike (trace w) (trace w) w w.
Proof.
  unfold alike. repeat (split; [ reflexivity | ]).
  exists []. cbn. rewrite app_nil_r. split; reflexivity.
Qed.

(** X5.  Adding the database mode left the web mode as it was, but for the model
    and the system prompt: for a request that does not ask for the database,
    and as long as [gpt-4o] answers as [gpt-3.5-turbo] did, the later
    revision gives the response of the earlier one, leaves the same table,
    and makes the same writes and the same requests to the model in the same
    order, each request to [gpt-3.5-turbo] now made to [gpt-4o] and the
    answer asked for under the new system prompt.  The stream identifier the
    earlier revision computed plays no part. *)
Theorem web_mode_as_before (env : services) (generateUniqueStreamId : unit -> string)
  (req : request) (w : world) :
  (forall b, req_json req = Ok b -> String.eqb (embeddingSource b) "database" = false) ->
  (forall m, openai_chat env "gpt-4o" rephrase_system m
             = openai_chat env "gpt-3.5-turbo" rephrase_system m) ->
  (forall input, openai_stream env "gpt-4o" answer_system input
                 = openai_stream env "gpt-3.5-turbo" Earlier.answer_system input) ->
  let before := Earlier.POST env generateUniqueStreamId req w in
  let after := POST env req w in
  fst after = fst before
  /\ message_history (snd after) = message_history (snd before)
  /\ next_id (snd after) = next_id (snd before)
  /\ exists evs,
       trace (snd before) = (trace w ++ evs)%list
       /\ trace (snd after) = (trace w ++ map upgrade evs)%list.
Proof.
  intros Hmode Hchat Hstream before after. subst before after.
  destruct (sim_POST (trace w) (trace w) env generateUniqueStreamId Hchat Hstream req Hmode
              w w (alike_start w))
    as (Hr & Hm & Hn & _ & _ & Ht).
  split; [ symmetry; exact Hr | ]. split; [ symmetry; exact Hm | ].
  split; [ symmetry; exact Hn | exact Ht ].
Qed.

Lemma web_mode_as_before_witness :
  fst (POST sample_services (sample_request "web") fresh)
  = fst (Earlier.POST sample_services (fun _ => "1730620800000-k3j9x0q2a") (sample_request "web")
           fresh).
Proof.
  apply (web_mode_as_before sample_services (fun _ => "1730620800000-k3j9x0q2a")
           (sample_request "web") fresh).
  - intros b [= <-]. reflexivity.
  - reflexivity.
  - reflexivity.
Defined.

(** The earlier revision at work. *)
Example earlier_requests :
  streams (trace (snd (Earlier.POST seven_hits_services (fun _ => "0-0")
                         (sample_request "database") fresh)))
  = ["Query: q, Top Results: []"].
Proof. reflexivity. Qed.

End RevisionFacts.

(** ** The results of a web search *)

Module WebFacts.
Import Js Pipeline Run Text Web RunFacts.
Local Open Scope string_scope.

Lemma successful_in (results : list (option (list found))) (docs : list found) :
  In docs (successful results) <-> In (Some docs) results.
Proof.
  unfold successful. rewrite in_flat_map. split.
  - intros ([d | ] & Hin & Hd); cbn in Hd; [ | contradiction ].
    destruct Hd as [<- | []]. exact Hin.
  - intros Hin. exists (Some docs). split; [ exact Hin | left; reflexivity ].
Qed.

Lemma short_pages (env : services) (message : string) (items : list source) :
  Forall2
    (fun item r =>
       forall page,
         (elapsed (fetch env (link item)) < 5000)%Z ->
         outcome (fetch env (link item)) = Ok page ->
         (String.length (Html.extractMainContent (cheerio_load env) page) < 250)%nat ->
         r = None)
    items (map (yield env message) items).
Proof.
  induction items as [ | item items IH]; cbn [map]; constructor; [ | exact IH ].
  intros page Hfast Hpage Hshort.
  apply (yield_short env message item (Html.extractMainContent (cheerio_load env) page));
    [ | exact Hshort ].
  unfold race, fetchPageContent. cbn [elapsed outcome].
  apply Z.ltb_lt in Hfast. rewrite Hfast, Hpage. reflexivity.
Qed.

(** C10.  The search results are normalized to at most four items, each with
    a title and a link, neither empty, and [brave.com] nowhere in the link.
    [fetchAndProcess] is run on these items and on no other; a page that
    arrives in time and whose extracted content is shorter than 250
    characters makes its item's result [null], and the successful results
    are the results that are not [null].  So at most four results are
    successful, and [topResult] is the list of the successful results
    itself. *)
Theorem web_results_at_most_four (env : services) (docs message : string)
  (normalizedData : list source) (w : world) :
  normalizeData env docs = Ok normalizedData ->
  (List.length normalizedData <= 4)%nat
  /\ Forall (fun item => title item <> "" /\ link item <> ""
                         /\ ~ occurs "brave.com" (link item)) normalizedData
  /\ exists results w',
       all (map (fetchAndProcess env message) normalizedData) w = (Ok results, w')
       /\ Forall2 (fun item r => forall w0, fst (fetchAndProcess env message item w0) = Ok r)
            normalizedData results
       /\ Forall2
            (fun item r =>
               forall page,
                 (elapsed (fetch env (link item)) < 5000)%Z ->
                 outcome (fetch env (link item)) = Ok page ->
                 (String.length (Html.extractMainContent (cheerio_load env) page) < 250)%nat ->
                 r = None)
            normalizedData results
       /\ (forall found, In found (successful results) <-> In (Some found) results)
       /\ (List.length (successful results) <= 4)%nat
       /\ topResult (successful results) = successful results.
Proof.
  intros Hnorm. apply normalizeData_ok in Hnorm as (Hlen & Hitems).
  split; [ exact Hlen | ]. split.
  { eapply Forall_impl; [ | exact Hitems ]. cbn beta. intros item (Ht & Hl & Hb).
    split; [ apply TextFacts.truthy_nonempty, Ht | ].
    split; [ apply TextFacts.truthy_nonempty, Hl | ].
    intros Ho. apply TextFacts.includes_occurs in Ho. congruence. }
  destruct (all_fetchAndProcess env message normalizedData w) as (n & Hrun).
  exists (map (yield env message) normalizedData), (counting n w).
  split; [ exact Hrun | ]. split; [ apply fan_out_results | ].
  split; [ apply short_pages | ]. split; [ apply successful_in | ].
  assert (Hs : (List.length (successful (map (yield env message) normalizedData)) <= 4)%nat).
  { eapply Nat.le_trans; [ apply successful_length | ]. rewrite length_map. exact Hlen. }
  split; [ exact Hs | ].
  unfold topResult. apply Nat.ltb_ge in Hs. rewrite Hs. reflexivity.
Qed.

(** Seven hits come back and five of them qualify; four are processed, the
    page of the second shows 249 characters, and three results are left. *)
Lemma web_results_at_most_four_witness :
  List.length (filter keeps seven_hits) = 5%nat
  /\ normalizeData one_short_page "[...]" = Ok four_sources
  /\ exists results,
       fst (all (map (fetchAndProcess one_short_page "q") four_sources) fresh) = Ok results
       /\ topResult (successful results) = successful results
       /\ map (fun docs => map metadata docs) (successful results)
          = [ ["http://one"]; ["http://three"]; ["http://four"] ].
Proof.
  split; [ reflexivity | ]. split; [ reflexivity | ].
  destruct (web_results_at_most_four one_short_page "[...]" "q" four_sources fresh eq_refl)
    as (_ & _ & results & w' & Hrun & _ & _ & _ & _ & Htop).
  exists results. rewrite Hrun. split; [ reflexivity | ]. split; [ exact Htop | ].
  assert (E : Ok results
              = fst (all (map (fetchAndProcess one_short_page "q") four_sources) fresh))
    by (rewrite Hrun; reflexivity).
  vm_compute in E. injection E as ->. reflexivity.
Defined.

End WebFacts.

(** ** The ranking at a score that is no number *)

Module RankingFacts.
Import Js Similarity Cosine Pipeline Run Ranking RunFacts.
Local Open Scope string_scope.

(** C1.  A table with a zero embedding.  The query embeds to [[1; 0]]; the
    rows score about 0.707, [NaN], 1, 1 and 1.  Every comparison with the
    score [NaN] answers [NaN], which the sort reads as a tie, so the rows are
    left in the order of the table, by the sort of the handler as by the
    sort of the engine: the ranking is not in descending order, and the cut
    to four keeps [A] and the row that scores [NaN] and drops [B3], which
    scores 1.  The model is asked with the context [A], [Z], [B1], [B2]. *)
Lemma database_ranking_at_a_zero_embedding :
  let query := [1; 0]%float in
  let docs := documents (fun _ => 0%float) five_rows in
  map similarity (score query docs)
  = [cosineSimilarity [1%float; 0%float] [1%float; 1%float]; nan; 1%float; 1%float; 1%float]
  /\ PrimFloat.ltb (cosineSimilarity [1%float; 0%float] [1%float; 1%float]) 1%float = true
  /\ map scored_content (similarities query docs) = ["A"; "Z"; "B1"; "B2"; "B3"]
  /\ map scored_content (V8.sort by_similarity (score query docs))
     = ["A"; "Z"; "B1"; "B2"; "B3"]
  /\ ~ descending (similarities query docs)
  /\ map scored_content (topDocuments query docs) = ["A"; "Z"; "B1"; "B2"]
  /\ streams (trace (snd (searchEngineForSources five_row_services "q" "database" fresh)))
     = [database_prompt (String.concat (line_break ++ line_break) ["A"; "Z"; "B1"; "B2"])
          "q"].
Proof.
  cbv zeta. repeat (split; [ reflexivity | ]). split; [ | split; reflexivity ].
  unfold descending. intros H.
  apply StronglySorted_inv in H as [_ H].
  apply Forall_inv_tail, Forall_inv in H.
  vm_compute in H. discriminate H.
Qed.

(** Where a score of [NaN] stands among numbers the order is the engine's
    own.  With the zero embedding in third place the sort of the engine
    gives [B1], [B3], [A0], [Z2]; the insertion sort gives [B1], [A0], [Z2],
    [B3].  Neither is in descending order by more than chance, and the
    statements about the ranking are made where the two agree: on scores that
    are numbers, on scores that are all [NaN], and on the tables above. *)
Example engine_order_at_nan :
  let scores := score [1; 0]%float (documents (fun _ => 0%float) four_rows) in
  map scored_content (V8.sort by_similarity scores) = ["B1"; "B3"; "A0"; "Z2"]
  /\ map scored_content (Js.sort by_similarity scores) = ["B1"; "A0"; "Z2"; "B3"].
Proof. split; reflexivity. Qed.

(** On the sample tables, whose scores are numbers, and on the table of
    three rows with a zero embedding, the two sorts agree. *)
Example engine_order_on_the_samples :
  V8.sort by_similarity (score [1; 0]%float (documents (fun _ => 0%float) sample_rows))
  = similarities [1; 0]%float (documents (fun _ => 0%float) sample_rows)
  /\ V8.sort by_similarity (score sample_query sample_documents)
     = similarities sample_query sample_documents.
Proof. split; reflexivity. Qed.

End RankingFacts.
